(** * WebGLRenderer: texture slots, object-renderer hand-off, context restore

    A shallow embedding of [WebGLRenderer] (src/unnamed/part_000): the
    bound-texture table with [bindTexture] and [unbindTexture], the
    object-renderer switch ([setObjectRenderer], [flush]), the frame entry
    point [render], and the context life cycle ([_initContext],
    [handleContextLost], [handleContextRestored]).

    - A JavaScript object is its identity (a number); the fields of the
      texture objects live in a store inside the renderer record, so that two
      slots holding the same object are two equal numbers.
    - A JavaScript array is a list of optional entries; writing past the end
      grows it, the new entries in between being holes.
    - A method is a function from the renderer before the call to an outcome:
      the returned value with the renderer after the call and the calls made,
      or [TypeError] where the source reads a property of [undefined] or
      [null].
    - Every call that leaves the renderer (to the WebGL driver, a manager, an
      object renderer, the scene graph, a listener) is logged, in program
      order.  The texture managers and the scene traversal change the
      renderer they are handed; their effect is a parameter
      ([Collaborators]).  For the other callees the log entry is all that is
      modelled.  Whether the two helpers of the constructor,
      [validateContext] and [glCore.createContext], return or throw is a
      parameter as well ([ContextSource]).
    - [TextureManager.removeAll()] is in addition modelled after the
      specification ([TextureManager_removeAll]), for what a restore leaves
      of the GPU-side textures.
    - [bindVao] reads and writes the field [_activeVao] only and is modelled
      on that field, with the calls it makes on vertex-array objects.
    - [generateSampleSrc] (src/src/core/sprites/webgl/generateMultiTextureShader.js)
      is a function from the number of texture units to a string. *)

From stdpp Require Import base option list gmap strings.
From stdpp Require Import pretty.
From Stdlib Require Import Ascii.

Set Default Proof Using "Type".

(** ** Data model *)

(** Identity of a texture object ([PIXI.Texture], [PIXI.BaseTexture], or the
    temporary object the initialisation places in the slots). *)
Definition TexRef := nat.
(** Identity of an [ObjectRenderer], a display object, a render texture. *)
Definition ObjectRendererRef := nat.
Definition DisplayObjectRef := nat.
Definition RenderTextureRef := nat.
Definition NewTextureRef := nat.

(** A [glCore.GLTexture]: [texture] is the driver's texture name.  The
    temporary object of [_initContext] stores a bare [{}] here, which has no
    [texture] property. *)
Record GLTexture := { texture : option nat }.

(** The fields of a texture object that the renderer reads or writes.
    [_glTextures] is the JS object used as a map from [CONTEXT_UID] to the
    GPU-side texture. *)
Record TexObj := {
  baseTexture : option TexRef;
  _glTextures : gmap nat GLTexture;
  _newTexture : option NewTextureRef;
  touched : nat;
}.

(** [new BaseTexture()]: no [baseTexture] property, an empty [_glTextures]. *)
Definition new_BaseTexture : TexObj :=
  {| baseTexture := None; _glTextures := ∅; _newTexture := None; touched := 0 |}.

#[export] Instance TexObj_inhabited : Inhabited TexObj := populate new_BaseTexture.

Definition with_glTexture (uid : nat) (g : GLTexture) (o : TexObj) : TexObj :=
  {| baseTexture := baseTexture o; _glTextures := <[uid := g]> (_glTextures o);
     _newTexture := _newTexture o; touched := touched o |}.

Definition with_touched (n : nat) (o : TexObj) : TexObj :=
  {| baseTexture := baseTexture o; _glTextures := _glTextures o;
     _newTexture := _newTexture o; touched := n |}.

(** The part of the [WebGLRenderingContext] the renderer consults. *)
Record WebGLRenderingContext := {
  isContextLost : bool;
  WEBGL_lose_context : bool;          (* gl.getExtension('WEBGL_lose_context') *)
  MAX_TEXTURE_IMAGE_UNITS : nat;
  createdTextures : nat;              (* texture names handed out so far *)
}.

(** Calls leaving the renderer, in the order the source makes them. *)
Inductive Call :=
| gl_activeTexture (slot : nat)                 (* gl.TEXTURE0 + slot *)
| gl_bindTexture (name : option nat)            (* target TEXTURE_2D *)
| gl_flush
| gl_restoreContext
| GLTexture_fromData (name : nat)
| textureManager_updateTexture (tm : nat) (t : TexRef) (location : nat)
| textureManager_removeAll (tm : nat)
| newTextureManager_bindTexture (t : NewTextureRef) (location : nat)
| new_TextureManager (tm : nat)
| new_TextureGarbageCollector
| new_ShaderManager
| state_resetToDefault
| state_setState (owner : ObjectRendererRef)    (* objectRenderer.state *)
| objectRenderer_start (o : ObjectRendererRef)
| objectRenderer_stop (o : ObjectRendererRef)
| objectRenderer_flush (o : ObjectRendererRef)
| renderTexture_bind (rt : option RenderTextureRef)
| renderTexture_clear
| renderTexture_resize
| SystemRenderer_resize
| displayObject_updateTransform (d : DisplayObjectRef)
| displayObject_renderWebGL (d : DisplayObjectRef)
| textureGC_update
| event_preventDefault
| emit (name : string).

(** The renderer object.  A JS array is a list of optional entries: [None]
    is a hole (reads as [undefined]). *)
Record WebGLRenderer := {
  gl : option WebGLRenderingContext;            (* null after destroy *)
  CONTEXT_UID : nat;
  boundTextures : list (option TexRef);
  emptyTextures : list (option TexRef);
  _nextTextureLocation : nat;
  textureGC_count : nat;                        (* this.textureGC.count *)
  textureManager : nat;                         (* which TextureManager instance *)
  newTextureManager : option nat;               (* not assigned by the constructor *)
  emptyRenderer : ObjectRendererRef;
  currentRenderer : option ObjectRendererRef;   (* null after destroy *)
  renderingToScreen : bool;
  _lastObjectRendered : option DisplayObjectRef;
  clearBeforeRender : bool;
  textures : gmap TexRef TexObj;                (* the store of texture objects *)
  nextObject : nat;                             (* identity of the next object created *)
}.

Definition set_gl v r :=
  {| gl := v; CONTEXT_UID := CONTEXT_UID r; boundTextures := boundTextures r;
     emptyTextures := emptyTextures r; _nextTextureLocation := _nextTextureLocation r;
     textureGC_count := textureGC_count r; textureManager := textureManager r;
     newTextureManager := newTextureManager r; emptyRenderer := emptyRenderer r;
     currentRenderer := currentRenderer r; renderingToScreen := renderingToScreen r;
     _lastObjectRendered := _lastObjectRendered r; clearBeforeRender := clearBeforeRender r;
     textures := textures r; nextObject := nextObject r |}.

Definition set_CONTEXT_UID v r :=
  {| gl := gl r; CONTEXT_UID := v; boundTextures := boundTextures r;
     emptyTextures := emptyTextures r; _nextTextureLocation := _nextTextureLocation r;
     textureGC_count := textureGC_count r; textureManager := textureManager r;
     newTextureManager := newTextureManager r; emptyRenderer := emptyRenderer r;
     currentRenderer := currentRenderer r; renderingToScreen := renderingToScreen r;
     _lastObjectRendered := _lastObjectRendered r; clearBeforeRender := clearBeforeRender r;
     textures := textures r; nextObject := nextObject r |}.

Definition set_boundTextures v r :=
  {| gl := gl r; CONTEXT_UID := CONTEXT_UID r; boundTextures := v;
     emptyTextures := emptyTextures r; _nextTextureLocation := _nextTextureLocation r;
     textureGC_count := textureGC_count r; textureManager := textureManager r;
     newTextureManager := newTextureManager r; emptyRenderer := emptyRenderer r;
     currentRenderer := currentRenderer r; renderingToScreen := renderingToScreen r;
     _lastObjectRendered := _lastObjectRendered r; clearBeforeRender := clearBeforeRender r;
     textures := textures r; nextObject := nextObject r |}.

Definition set_emptyTextures v r :=
  {| gl := gl r; CONTEXT_UID := CONTEXT_UID r; boundTextures := boundTextures r;
     emptyTextures := v; _nextTextureLocation := _nextTextureLocation r;
     textureGC_count := textureGC_count r; textureManager := textureManager r;
     newTextureManager := newTextureManager r; emptyRenderer := emptyRenderer r;
     currentRenderer := currentRenderer r; renderingToScreen := renderingToScreen r;
     _lastObjectRendered := _lastObjectRendered r; clearBeforeRender := clearBeforeRender r;
     textures := textures r; nextObject := nextObject r |}.

Definition set_nextTextureLocation v r :=
  {| gl := gl r; CONTEXT_UID := CONTEXT_UID r; boundTextures := boundTextures r;
     emptyTextures := emptyTextures r; _nextTextureLocation := v;
     textureGC_count := textureGC_count r; textureManager := textureManager r;
     newTextureManager := newTextureManager r; emptyRenderer := emptyRenderer r;
     currentRenderer := currentRenderer r; renderingToScreen := renderingToScreen r;
     _lastObjectRendered := _lastObjectRendered r; clearBeforeRender := clearBeforeRender r;
     textures := textures r; nextObject := nextObject r |}.

Definition set_textureGC_count v r :=
  {| gl := gl r; CONTEXT_UID := CONTEXT_UID r; boundTextures := boundTextures r;
     emptyTextures := emptyTextures r; _nextTextureLocation := _nextTextureLocation r;
     textureGC_count := v; textureManager := textureManager r;
     newTextureManager := newTextureManager r; emptyRenderer := emptyRenderer r;
     currentRenderer := currentRenderer r; renderingToScreen := renderingToScreen r;
     _lastObjectRendered := _lastObjectRendered r; clearBeforeRender := clearBeforeRender r;
     textures := textures r; nextObject := nextObject r |}.

Definition set_textureManager v r :=
  {| gl := gl r; CONTEXT_UID := CONTEXT_UID r; boundTextures := boundTextures r;
     emptyTextures := emptyTextures r; _nextTextureLocation := _nextTextureLocation r;
     textureGC_count := textureGC_count r; textureManager := v;
     newTextureManager := newTextureManager r; emptyRenderer := emptyRenderer r;
     currentRenderer := currentRenderer r; renderingToScreen := renderingToScreen r;
     _lastObjectRendered := _lastObjectRendered r; clearBeforeRender := clearBeforeRender r;
     textures := textures r; nextObject := nextObject r |}.

Definition set_emptyRenderer v r :=
  {| gl := gl r; CONTEXT_UID := CONTEXT_UID r; boundTextures := boundTextures r;
     emptyTextures := emptyTextures r; _nextTextureLocation := _nextTextureLocation r;
     textureGC_count := textureGC_count r; textureManager := textureManager r;
     newTextureManager := newTextureManager r; emptyRenderer := v;
     currentRenderer := currentRenderer r; renderingToScreen := renderingToScreen r;
     _lastObjectRendered := _lastObjectRendered r; clearBeforeRender := clearBeforeRender r;
     textures := textures r; nextObject := nextObject r |}.

Definition set_currentRenderer v r :=
  {| gl := gl r; CONTEXT_UID := CONTEXT_UID r; boundTextures := boundTextures r;
     emptyTextures := emptyTextures r; _nextTextureLocation := _nextTextureLocation r;
     textureGC_count := textureGC_count r; textureManager := textureManager r;
     newTextureManager := newTextureManager r; emptyRenderer := emptyRenderer r;
     currentRenderer := v; renderingToScreen := renderingToScreen r;
     _lastObjectRendered := _lastObjectRendered r; clearBeforeRender := clearBeforeRender r;
     textures := textures r; nextObject := nextObject r |}.

Definition set_renderingToScreen v r :=
  {| gl := gl r; CONTEXT_UID := CONTEXT_UID r; boundTextures := boundTextures r;
     emptyTextures := emptyTextures r; _nextTextureLocation := _nextTextureLocation r;
     textureGC_count := textureGC_count r; textureManager := textureManager r;
     newTextureManager := newTextureManager r; emptyRenderer := emptyRenderer r;
     currentRenderer := currentRenderer r; renderingToScreen := v;
     _lastObjectRendered := _lastObjectRendered r; clearBeforeRender := clearBeforeRender r;
     textures := textures r; nextObject := nextObject r |}.

Definition set_lastObjectRendered v r :=
  {| gl := gl r; CONTEXT_UID := CONTEXT_UID r; boundTextures := boundTextures r;
     emptyTextures := emptyTextures r; _nextTextureLocation := _nextTextureLocation r;
     textureGC_count := textureGC_count r; textureManager := textureManager r;
     newTextureManager := newTextureManager r; emptyRenderer := emptyRenderer r;
     currentRenderer := currentRenderer r; renderingToScreen := renderingToScreen r;
     _lastObjectRendered := v; clearBeforeRender := clearBeforeRender r;
     textures := textures r; nextObject := nextObject r |}.

Definition set_textures v r :=
  {| gl := gl r; CONTEXT_UID := CONTEXT_UID r; boundTextures := boundTextures r;
     emptyTextures := emptyTextures r; _nextTextureLocation := _nextTextureLocation r;
     textureGC_count := textureGC_count r; textureManager := textureManager r;
     newTextureManager := newTextureManager r; emptyRenderer := emptyRenderer r;
     currentRenderer := currentRenderer r; renderingToScreen := renderingToScreen r;
     _lastObjectRendered := _lastObjectRendered r; clearBeforeRender := clearBeforeRender r;
     textures := v; nextObject := nextObject r |}.

Definition set_nextObject v r :=
  {| gl := gl r; CONTEXT_UID := CONTEXT_UID r; boundTextures := boundTextures r;
     emptyTextures := emptyTextures r; _nextTextureLocation := _nextTextureLocation r;
     textureGC_count := textureGC_count r; textureManager := textureManager r;
     newTextureManager := newTextureManager r; emptyRenderer := emptyRenderer r;
     currentRenderer := currentRenderer r; renderingToScreen := renderingToScreen r;
     _lastObjectRendered := _lastObjectRendered r; clearBeforeRender := clearBeforeRender r;
     textures := textures r; nextObject := v |}.

(** ** JavaScript arrays *)

(** [a[i]]: a hole and an index past the end both read as [undefined]. *)
Definition array_get {A} (a : list (option A)) (i : nat) : option A :=
  a !! i ≫= id.

(** [a[i] = v]: in range the entry is replaced; past the end the array grows,
    the entries in between being holes. *)
Definition array_set {A} (a : list (option A)) (i : nat) (v : option A)
  : list (option A) :=
  if decide (i < length a) then <[i := v]> a
  else a ++ replicate (i - length a) None ++ [v].

(** The loop [for (i = 0; i < a.length; i++) if (a[i] === t) return i]. *)
Definition indexOf (t : TexRef) (a : list (option TexRef)) : option nat :=
  fst <$> list_find (λ x, x = Some t) a.

(** ** Outcomes and the renderer monad *)

Inductive Result (A : Type) : Type :=
| Ok (a : A)
| TypeError          (* a property read or a call on undefined / null *)
| NotANumber.        (* [x % 0]: the slot index is NaN *)
Arguments Ok {A} a.
Arguments TypeError {A}.
Arguments NotANumber {A}.

(** A method of the renderer: from the renderer before the call to the
    returned value, the renderer after it and the calls it made. *)
Definition M (A : Type) : Type :=
  WebGLRenderer → Result (A * WebGLRenderer * list Call).

Definition ret {A} (a : A) : M A := λ r, Ok (a, r, []).

(** The outcome [x], reached after the calls [l] were made. *)
Definition after_calls {A} (l : list Call)
    (x : Result (A * WebGLRenderer * list Call)) : Result (A * WebGLRenderer * list Call) :=
  match x with
  | Ok (a, r, l') => Ok (a, r, l ++ l')
  | TypeError => TypeError
  | NotANumber => NotANumber
  end.

Definition bind {A B} (m : M A) (k : A → M B) : M B := λ r,
  match m r with
  | Ok (a, r1, l1) => after_calls l1 (k a r1)
  | TypeError => TypeError
  | NotANumber => NotANumber
  end.

Notation "'do' x <- m ; k" := (bind m (λ x, k))
  (at level 10, x name, m at level 100, k at level 200).

Definition call (c : Call) : M unit := λ r, Ok (tt, r, [c]).
Definition modify (f : WebGLRenderer → WebGLRenderer) : M unit := λ r, Ok (tt, f r, []).
Definition throw {A} : M A := λ _, TypeError.

(** ** Collaborators *)

(** The source imports [TextureManager], [NewTextureManager],
    [TextureGarbageCollector] and the display objects from other files.  They
    hold a reference to the renderer and may change it.  Their effect on the
    renderer is a parameter: every definition and theorem below is stated
    for any such collaborators. *)
Class Collaborators := {
  (** [textureManager.updateTexture(texture, location)] *)
  updateTexture : TexRef → nat → WebGLRenderer → WebGLRenderer;
  (** [newTextureManager.bindTexture(texture._newTexture, location)] *)
  newTexture_bindTexture : NewTextureRef → nat → WebGLRenderer → WebGLRenderer;
  (** [textureManager.removeAll()] *)
  removeAll : WebGLRenderer → WebGLRenderer;
  (** [displayObject.renderWebGL(renderer)], the traversal of the scene *)
  renderWebGL : DisplayObjectRef → WebGLRenderer → WebGLRenderer;
  (** [count] of a [new TextureGarbageCollector(renderer)] *)
  TextureGarbageCollector_count : nat;
}.

(** The two helpers from which the constructor gets its context,
    [validateContext] (./utils/validateContext) and [glCore.createContext]
    (pixi-gl-core).  Neither is under src/: whether they return or throw is
    a parameter. *)
Class ContextSource := {
  (** [validateContext(options.context)]: [true] when it returns, [false]
      when it throws *)
  validateContext : WebGLRenderingContext → bool;
  (** [glCore.createContext(this.view, this._contextOptions)]: the context
      it returns, [None] when it throws *)
  createContext : option WebGLRenderingContext;
}.

(** What [new WebGLRenderer(...)] comes to: the error one of the two helpers
    throws, in which case there is no renderer, or the outcome of the body
    on the context it got. *)
Inductive Construction :=
| validateContext_throws
| createContext_throws
| constructed (x : Result (nat * WebGLRenderer * list Call)).

Definition get : M WebGLRenderer := λ r, Ok (r, r, []).

(** ** The methods of [WebGLRenderer] *)

Section Renderer.
Context `{Collaborators}.

(** [texture = texture || this.emptyTextures[location]]: [None] when the
    result is [undefined], on which the next line raises. *)
Definition argument_texture (t : option TexRef) (location : option nat)
    (r : WebGLRenderer) : option TexRef :=
  match t with
  | Some t => Some t
  | None => location ≫= array_get (emptyTextures r)
  end.

(** [texture.baseTexture || texture] *)
Definition baseOf (r : WebGLRenderer) (t : TexRef) : TexRef :=
  default t (baseTexture (textures r !!! t)).

(** [texture.touched = this.textureGC.count] *)
Definition touch (t : TexRef) (r : WebGLRenderer) : WebGLRenderer :=
  set_textures (<[t := with_touched (textureGC_count r) (textures r !!! t)]> (textures r)) r.

(** [bindTexture], from [const gl = this.gl] to the end: the slot is decided,
    the texture is resolved.  The value read into [glTexture] on the
    [_newTexture] path is not used by the source and is left out. *)
Definition bindTexture_at (t : TexRef) (location : nat) : M nat := λ r,
  let o := textures r !!! t in
  match _newTexture o with
  | Some nt =>
      match newTextureManager r with
      | Some _ =>
          Ok (location, newTexture_bindTexture nt location r,
              [newTextureManager_bindTexture nt location])
      | None => TypeError
      end
  | None =>
      match _glTextures o !! CONTEXT_UID r with
      | None =>
          (* this will also bind the texture.. *)
          Ok (location, updateTexture t location r,
              [textureManager_updateTexture (textureManager r) t location])
      | Some glTexture =>
          if decide (array_get (boundTextures r) location = Some t)
          then Ok (location, r, [])
          else
            match gl r with
            | Some _ =>
                Ok (location,
                    set_boundTextures (array_set (boundTextures r) location (Some t)) r,
                    [gl_activeTexture location; gl_bindTexture (texture glTexture)])
            | None => TypeError
            end
      end
  end.

(** [bindTexture(texture, location, forceLocation)]; [None] is a [null]
    texture, respectively an [undefined] location. *)
Definition bindTexture (t : option TexRef) (location : option nat)
    (forceLocation : bool) : M nat := λ r,
  match argument_texture t location r with
  | None => TypeError
  | Some t0 =>
      let t := baseOf r t0 in
      let r := touch t r in
      if forceLocation then
        (* location = location || 0 *)
        bindTexture_at t (default 0 location) r
      else
        match indexOf t (boundTextures r) with
        | Some i => Ok (i, r, [])
        | None =>
            match location with
            | Some l => bindTexture_at t l r
            | None =>
                let n := length (boundTextures r) in
                if decide (n = 0) then NotANumber
                else
                  let c := S (_nextTextureLocation r) mod n in
                  bindTexture_at t (n - c - 1) (set_nextTextureLocation c r)
            end
        end
  end.

(** [this.gl.f(...)] needs [this.gl]. *)
Definition gl_call (c : Call) : M unit :=
  do r <- get;
  match gl r with
  | Some _ => call c
  | None => throw
  end.

(** [this.emptyTextures[i]._glTextures[this.CONTEXT_UID].texture] *)
Definition emptyTexture_name (i : nat) : M (option nat) := λ r,
  match array_get (emptyTextures r) i with
  | Some e =>
      match _glTextures (textures r !!! e) !! CONTEXT_UID r with
      | Some g => Ok (texture g, r, [])
      | None => TypeError
      end
  | None => TypeError
  end.

(** The loop of [unbindTexture], at index [i] with [n] slots still to visit. *)
Fixpoint unbindTexture_loop (t : TexRef) (n i : nat) : M unit :=
  match n with
  | 0 => ret tt
  | S n' =>
      do r <- get;
      do _ <- (if decide (array_get (boundTextures r) i = Some t) then
                 do _ <- modify (set_boundTextures
                           (array_set (boundTextures r) i (array_get (emptyTextures r) i)));
                 do _ <- gl_call (gl_activeTexture i);
                 do name <- emptyTexture_name i;
                 call (gl_bindTexture name)
               else ret tt);
      unbindTexture_loop t n' (S i)
  end.

(** [unbindTexture(texture)] *)
Definition unbindTexture (t : TexRef) : M unit :=
  do r <- get;
  unbindTexture_loop (baseOf r t) (length (boundTextures r)) 0.

(** [this.currentRenderer.f()] needs [this.currentRenderer]. *)
Definition currentRenderer_call (f : ObjectRendererRef → Call) : M unit :=
  do r <- get;
  match currentRenderer r with
  | Some o => call (f o)
  | None => throw
  end.

(** [setObjectRenderer(objectRenderer)] *)
Definition setObjectRenderer (objectRenderer : ObjectRendererRef) : M unit :=
  do r <- get;
  if decide (currentRenderer r = Some objectRenderer) then ret tt
  else
    do _ <- currentRenderer_call objectRenderer_stop;
    do _ <- modify (set_currentRenderer (Some objectRenderer));
    do _ <- call (state_setState objectRenderer);
    currentRenderer_call objectRenderer_start.

(** [flush()] *)
Definition flush : M unit :=
  do r <- get;
  setObjectRenderer (emptyRenderer r).

(** [!this.gl || this.gl.isContextLost()] *)
Definition context_unusable (r : WebGLRenderer) : bool :=
  match gl r with
  | None => true
  | Some g => isContextLost g
  end.

(** [render(displayObject, renderTexture, clear, transform,
    skipUpdateTransform)].  [transform] is not used by the body.  The
    temporary re-parenting around [updateTransform] touches the display
    object only and is part of the logged call. *)
Definition render (displayObject : DisplayObjectRef)
    (renderTexture : option RenderTextureRef) (clear : option bool)
    (transform : option nat) (skipUpdateTransform : bool) : M unit :=
  do _ <- modify (set_renderingToScreen (negb (bool_decide (is_Some renderTexture))));
  do _ <- call (emit "prerender");
  do r <- get;
  if context_unusable r then ret tt
  else
    do _ <- modify (set_nextTextureLocation 0);
    do _ <- (if renderTexture is None
             then modify (set_lastObjectRendered (Some displayObject)) else ret tt);
    do _ <- (if skipUpdateTransform then ret tt
             else call (displayObject_updateTransform displayObject));
    do _ <- call (renderTexture_bind renderTexture);
    do _ <- currentRenderer_call objectRenderer_start;
    do r <- get;
    do _ <- (if default (clearBeforeRender r) clear
             then call renderTexture_clear else ret tt);
    do _ <- call (displayObject_renderWebGL displayObject);
    do _ <- modify (renderWebGL displayObject);
    do _ <- currentRenderer_call objectRenderer_flush;
    do _ <- call textureGC_update;
    do _ <- gl_call gl_flush;
    call (emit "postrender").

(** A new object: the next identity, stored with the given fields. *)
Definition new_object (o : TexObj) : M TexRef := λ r,
  let id := nextObject r in
  Ok (id, set_nextObject (S id) (set_textures (<[id := o]> (textures r)) r), []).

(** [new glCore.GLTexture.fromData(gl, null, 1, 1)]: a texture name the
    context has not handed out before. *)
Definition GLTexture_new : M GLTexture := λ r,
  match gl r with
  | Some g =>
      let name := createdTextures g in
      Ok ({| texture := Some name |},
          set_gl (Some {| isContextLost := isContextLost g;
                          WEBGL_lose_context := WEBGL_lose_context g;
                          MAX_TEXTURE_IMAGE_UNITS := MAX_TEXTURE_IMAGE_UNITS g;
                          createdTextures := S name |}) r,
          [GLTexture_fromData name])
  | None => TypeError
  end.

(** The loop of [_initContext] that fills the slots, at index [i] with [n]
    slots still to fill. *)
Fixpoint _initContext_loop (tempObj : TexRef) (emptyGLTexture : GLTexture)
    (n i : nat) : M unit :=
  match n with
  | 0 => ret tt
  | S n' =>
      do r <- get;
      do empty <- new_object (with_glTexture (CONTEXT_UID r) emptyGLTexture new_BaseTexture);
      do _ <- modify (λ r, set_boundTextures (array_set (boundTextures r) i (Some tempObj)) r);
      do _ <- modify (λ r, set_emptyTextures (array_set (emptyTextures r) i (Some empty)) r);
      do _ <- bindTexture None (Some i) false;
      _initContext_loop tempObj emptyGLTexture n' (S i)
  end.

(** [_initContext()].  The assignment to [glCore._testingContext] is outside
    the renderer and left out. *)
Definition _initContext : M unit :=
  do r <- get;
  match gl r with
  | None => throw
  | Some g =>
      do _ <- (if isContextLost g && WEBGL_lose_context g
               then call gl_restoreContext else ret tt);
      let maxTextures := MAX_TEXTURE_IMAGE_UNITS g in
      do _ <- modify (set_boundTextures (replicate maxTextures None));
      do _ <- modify (set_emptyTextures (replicate maxTextures None));
      do _ <- modify (λ r, set_nextObject (S (nextObject r)) (set_textureManager (nextObject r) r));
      do r <- get;
      do _ <- call (new_TextureManager (textureManager r));
      do _ <- modify (set_textureGC_count TextureGarbageCollector_count);
      do _ <- call new_TextureGarbageCollector;
      do _ <- call new_ShaderManager;
      do _ <- call state_resetToDefault;
      do emptyGLTexture <- GLTexture_new;
      do tempObj <- new_object
                      (with_glTexture (CONTEXT_UID r) {| texture := None |} new_BaseTexture);
      do _ <- _initContext_loop tempObj emptyGLTexture maxTextures 0;
      do _ <- call (emit "context");
      do _ <- call SystemRenderer_resize;
      call renderTexture_resize
  end.

(** The constructor on the context [this.gl] gets, from
    [this.emptyRenderer = ...] on, for the fields the methods above read.
    [this] is the object as the base class and the manager constructors left
    it; [uid] is the module counter [CONTEXT_UID], whose next value is
    returned. *)
Definition constructor_with (uid : nat) (context : WebGLRenderingContext) : M nat :=
  do r <- get;
  do _ <- modify (set_emptyRenderer (nextObject r));
  do _ <- modify (set_nextObject (S (nextObject r)));
  do _ <- modify (set_currentRenderer (Some (nextObject r)));
  do _ <- modify (set_gl (Some context));
  do _ <- modify (set_CONTEXT_UID uid);
  do _ <- modify (set_renderingToScreen true);
  do _ <- modify (set_boundTextures []);
  do _ <- _initContext;
  do _ <- modify (set_nextTextureLocation 0);
  ret (S uid).

(** The constructor.  [if (options.context) validateContext(options.context)]
    and [this.gl = options.context || glCore.createContext(...)] decide the
    context: a context that is supplied is validated, without one a context
    is created, and when the helper throws the constructor throws.  The two
    helpers are not handed the object, so the fields assigned before these
    lines are assigned in [constructor_with]. *)
Definition constructor `{ContextSource} (uid : nat)
    (options_context : option WebGLRenderingContext) (r : WebGLRenderer) : Construction :=
  match options_context with
  | Some context =>
      if validateContext context then constructed (constructor_with uid context r)
      else validateContext_throws
  | None =>
      match createContext with
      | Some context => constructed (constructor_with uid context r)
      | None => createContext_throws
      end
  end.

(** [handleContextLost(event)] *)
Definition handleContextLost : M unit :=
  call event_preventDefault.

(** [handleContextRestored()] *)
Definition handleContextRestored : M unit :=
  do _ <- _initContext;
  do r <- get;
  do _ <- call (textureManager_removeAll (textureManager r));
  modify removeAll.

(** A run of [bindTexture] calls without [forceLocation]. *)
Fixpoint bindTexture_seq (calls : list (option TexRef * option nat)) : M (list nat) :=
  match calls with
  | [] => ret []
  | (t, location) :: rest =>
      do i <- bindTexture t location false;
      do slots <- bindTexture_seq rest;
      ret (i :: slots)
  end.

(** The same run, call by call: for each call the texture asked for, the
    slot returned and the calls that this call made. *)
Fixpoint bindTexture_trace (calls : list (TexRef * option nat)) (r : WebGLRenderer)
  : Result (list (TexRef * nat * list Call) * WebGLRenderer) :=
  match calls with
  | [] => Ok ([], r)
  | (t, location) :: rest =>
      match bindTexture (Some t) location false r with
      | Ok (i, r1, l) =>
          match bindTexture_trace rest r1 with
          | Ok (tr, r2) => Ok ((t, i, l) :: tr, r2)
          | TypeError => TypeError
          | NotANumber => NotANumber
          end
      | TypeError => TypeError
      | NotANumber => NotANumber
      end
  end.

End Renderer.

(** ** The object-renderer switch as the specification words it *)

(** Section 4.3: "[flush()] is defined as [setObjectRenderer(emptyRenderer)]". *)
Definition flush_spec : M unit := λ r, setObjectRenderer (emptyRenderer r) r.

(** ** Reading the call log *)

Definition is_gl_bindTexture (c : Call) : bool :=
  match c with gl_bindTexture _ => true | _ => false end.

Definition is_gl_activeTexture (c : Call) : bool :=
  match c with gl_activeTexture _ => true | _ => false end.

Definition is_start (c : Call) : bool :=
  match c with objectRenderer_start _ => true | _ => false end.

Definition is_stop (c : Call) : bool :=
  match c with objectRenderer_stop _ => true | _ => false end.

(** The number of driver-level texture binds in a log. *)
Definition driver_binds (l : list Call) : nat :=
  length (filter (λ c, is_gl_bindTexture c) l).

Definition driver_activations (l : list Call) : nat :=
  length (filter (λ c, is_gl_activeTexture c) l).

Definition starts (l : list Call) : nat := length (filter (λ c, is_start c) l).

Definition stops (l : list Call) : nat := length (filter (λ c, is_stop c) l).

(** The calls of [render] that reach the GPU or a manager. *)
Definition gpu_work (c : Call) : bool :=
  match c with
  | emit _ | event_preventDefault => false
  | _ => true
  end.

(** No two slots hold the same texture. *)
Definition exclusive (table : list (option TexRef)) : Prop :=
  ∀ i j t, array_get table i = Some t → array_get table j = Some t → i = j.

(** The slot the [k]-th bind in a row gets from the round-robin counter,
    when the table has [n] slots and the counter stood at [c] before. *)
Definition round_robin (n c k : nat) : nat := n - (c + k) mod n - 1.

(** Textures that [bindTexture] binds itself when they are not resident:
    uploaded for the current context, without [_newTexture]. *)
Definition uploaded_in (r : WebGLRenderer) (b : TexRef) : Prop :=
  _newTexture (textures r !!! b) = None ∧
  is_Some (_glTextures (textures r !!! b) !! CONTEXT_UID r).

(** What slot exclusivity needs from the collaborators: handed a texture
    that no slot holds, [updateTexture] leaves the table exclusive (it may
    record the texture in a slot, or not touch the table), and so does
    [newTextureManager.bindTexture]. *)
Definition respects_exclusive (C : Collaborators) : Prop :=
  (∀ t location r,
     exclusive (boundTextures r) →
     (∀ i, array_get (boundTextures r) i ≠ Some t) →
     exclusive (boundTextures (updateTexture t location r))) ∧
  (∀ nt location r,
     exclusive (boundTextures r) →
     exclusive (boundTextures (newTexture_bindTexture nt location r))).

(** The driver calls that bind the texture [name] to the slots [i], ...,
    [i + n - 1], one after the other. *)
Definition rebind_calls (name : option nat) (i n : nat) : list Call :=
  flat_map (λ k, [gl_activeTexture k; gl_bindTexture name]) (seq i n).

(** The calls of one [_initContext()] on the context [g], when the next
    object created gets the identity [tm]. *)
Definition _initContext_calls (g : WebGLRenderingContext) (tm : nat) : list Call :=
  (if isContextLost g && WEBGL_lose_context g then [gl_restoreContext] else []) ++
  [new_TextureManager tm; new_TextureGarbageCollector; new_ShaderManager;
   state_resetToDefault; GLTexture_fromData (createdTextures g)] ++
  rebind_calls (Some (createdTextures g)) 0 (MAX_TEXTURE_IMAGE_UNITS g) ++
  [emit "context"; SystemRenderer_resize; renderTexture_resize].

(** [this.emptyTextures[i]._glTextures[this.CONTEXT_UID]], when the
    placeholder of slot [i] and its GPU-side texture exist. *)
Definition placeholder_glTexture (r : WebGLRenderer) (i : nat) : option GLTexture :=
  array_get (emptyTextures r) i ≫= λ e, _glTextures (textures r !!! e) !! CONTEXT_UID r.

(** The driver calls that rebind, in increasing order, the placeholders of
    those slots among [i], ..., [i + n - 1] that hold [b]. *)
Definition unbind_calls (r : WebGLRenderer) (b : TexRef) (i n : nat) : list Call :=
  flat_map
    (λ k, if decide (array_get (boundTextures r) k = Some b)
          then [gl_activeTexture k; gl_bindTexture (placeholder_glTexture r k ≫= texture)]
          else [])
    (seq i n).

(** ** Example collaborators and renderers *)

(** Collaborators that leave the renderer as it is. *)
Definition inert : Collaborators :=
  {| updateTexture := λ _ _ r, r;
     newTexture_bindTexture := λ _ _ r, r;
     removeAll := λ r, r;
     renderWebGL := λ _ r, r;
     TextureGarbageCollector_count := 0 |}.

(** An example texture manager (the manager of the source is outside this
    development): on [updateTexture] the texture gets a GPU-side texture for
    the current context and the slot records it. *)
Definition upload (t : TexRef) (location : nat) (r : WebGLRenderer) : WebGLRenderer :=
  match gl r with
  | Some g =>
      set_boundTextures (array_set (boundTextures r) location (Some t))
        (set_textures
           (<[t := with_glTexture (CONTEXT_UID r) {| texture := Some (createdTextures g) |}
                     (textures r !!! t)]> (textures r))
           (set_gl (Some {| isContextLost := isContextLost g;
                            WEBGL_lose_context := WEBGL_lose_context g;
                            MAX_TEXTURE_IMAGE_UNITS := MAX_TEXTURE_IMAGE_UNITS g;
                            createdTextures := S (createdTextures g) |}) r))
  | None => r
  end.

Definition uploading : Collaborators :=
  {| updateTexture := upload;
     newTexture_bindTexture := λ _ _ r, r;
     removeAll := λ r, r;
     renderWebGL := λ _ r, r;
     TextureGarbageCollector_count := 0 |}.

(** A base texture already uploaded for context 0 under the given name. *)
Definition uploaded (name : nat) : TexObj :=
  {| baseTexture := None; _glTextures := {[0 := {| texture := Some name |}]};
     _newTexture := None; touched := 0 |}.

(** Textures A = 100, B = 101, C = 102 (uploaded), D = 103 (not uploaded)
    and a [Texture] 104 whose [baseTexture] is A. *)
Definition example_store : gmap TexRef TexObj :=
  <[100 := uploaded 1]> (<[101 := uploaded 2]> (<[102 := uploaded 3]>
  (<[103 := new_BaseTexture]>
  (<[104 := {| baseTexture := Some 100; _glTextures := ∅;
               _newTexture := None; touched := 0 |}]> ∅)))).

Definition example_context : WebGLRenderingContext :=
  {| isContextLost := false; WEBGL_lose_context := true;
     MAX_TEXTURE_IMAGE_UNITS := 4; createdTextures := 10 |}.

Definition lost_context : WebGLRenderingContext :=
  {| isContextLost := true; WEBGL_lose_context := true;
     MAX_TEXTURE_IMAGE_UNITS := 4; createdTextures := 10 |}.

(** The object before the constructor body runs. *)
Definition blank : WebGLRenderer :=
  {| gl := None; CONTEXT_UID := 0; boundTextures := []; emptyTextures := [];
     _nextTextureLocation := 0; textureGC_count := 0; textureManager := 0;
     newTextureManager := None; emptyRenderer := 0; currentRenderer := None;
     renderingToScreen := false; _lastObjectRendered := None;
     clearBeforeRender := true; textures := example_store; nextObject := 200 |}.

Definition renderer_of {A} (x : Result (A * WebGLRenderer * list Call)) : WebGLRenderer :=
  match x with
  | Ok (_, r, _) => r
  | _ => blank
  end.

Definition calls_of {A} (x : Result (A * WebGLRenderer * list Call)) : list Call :=
  match x with
  | Ok (_, _, l) => l
  | _ => []
  end.

(** A renderer constructed on a context with four texture units: slots 0..3
    hold the placeholders 203..206, the empty renderer is object 200. *)
Definition example_renderer : WebGLRenderer :=
  renderer_of (constructor_with (H := inert) 0 example_context blank).

(** The same renderer after its context was lost. *)
Definition lost_renderer : WebGLRenderer :=
  set_gl (Some lost_context) example_renderer.

(** The example renderer after [bindTexture(A)]: round-robin puts A in slot 2. *)
Definition bound_A : WebGLRenderer :=
  renderer_of (bindTexture (H := inert) (Some 100) None false example_renderer).

(** The example renderer after [bindTexture(A, 0, true)]: A is in slot 0. *)
Definition forced_A : WebGLRenderer :=
  renderer_of (bindTexture (H := inert) (Some 100) (Some 0) true example_renderer).

(** The example renderer initialised again, with the uploading manager. *)
Definition reinitialised : WebGLRenderer :=
  renderer_of (_initContext (H := uploading) example_renderer).

(** A run of binds without [forceLocation]: A, then D (not uploaded), then B
    with slot 1 suggested, D again, and the placeholder of slot 0. *)
Definition example_calls : list (option TexRef * option nat) :=
  [(Some 100, None); (Some 103, None); (Some 101, Some 1); (Some 103, None); (None, Some 0)].

(** The example context after it handed out [n] texture names. *)
Definition example_context_after (n : nat) : WebGLRenderingContext :=
  {| isContextLost := false; WEBGL_lose_context := true;
     MAX_TEXTURE_IMAGE_UNITS := 4; createdTextures := n |}.

(** ** Further definitions: what initialisation establishes *)

(** The fields of a texture object as [new BaseTexture()] and the
    initialisation leave them for a placeholder: no [baseTexture], no
    [_newTexture], the GPU-side texture [eg] under the renderer's
    [CONTEXT_UID]. *)
Definition is_placeholder (r : WebGLRenderer) (eg : GLTexture) (e : TexRef) : Prop :=
  baseTexture (textures r !!! e) = None ∧
  _newTexture (textures r !!! e) = None ∧
  _glTextures (textures r !!! e) !! CONTEXT_UID r = Some eg.

(** The state of the loop of [_initContext] at slot [i] with [n] slots to
    go: the slots below [i] hold the placeholders [first], [first + 1], ...,
    the others are holes. *)
Definition filling (first tempObj : nat) (eg : GLTexture) (i n : nat)
    (r : WebGLRenderer) : Prop :=
  is_Some (gl r) ∧
  nextObject r = first + i ∧
  tempObj < first ∧
  boundTextures r = (Some <$> seq first i) ++ replicate n None ∧
  emptyTextures r = (Some <$> seq first i) ++ replicate n None ∧
  ∀ k, k < i → is_placeholder r eg (first + k).

(** The two renderers agree on every field but the slot tables, the store
    and the object counter. *)
Definition same_outside_slots (r r' : WebGLRenderer) : Prop :=
  gl r' = gl r ∧
  CONTEXT_UID r' = CONTEXT_UID r ∧
  _nextTextureLocation r' = _nextTextureLocation r ∧
  textureGC_count r' = textureGC_count r ∧
  textureManager r' = textureManager r ∧
  newTextureManager r' = newTextureManager r ∧
  emptyRenderer r' = emptyRenderer r ∧
  currentRenderer r' = currentRenderer r ∧
  renderingToScreen r' = renderingToScreen r ∧
  _lastObjectRendered r' = _lastObjectRendered r ∧
  clearBeforeRender r' = clearBeforeRender r.

(** ** Further definitions: a well-formed slot table *)

(** Every entry of the array is defined. *)
Definition no_holes {A} (a : list (option A)) : Prop :=
  ∀ i, i < length a → is_Some (array_get a i).

(** A placeholder texture sits in no slot but its own. *)
Definition own_slot (table empties : list (option TexRef)) : Prop :=
  ∀ i j e, array_get empties i = Some e → array_get table j = Some e → i = j.

(** The two renderers agree on [CONTEXT_UID] and on every field of every
    texture object except [touched]. *)
Definition same_texture_fields (r r' : WebGLRenderer) : Prop :=
  CONTEXT_UID r' = CONTEXT_UID r ∧
  ∀ x : TexRef,
    baseTexture (textures r' !!! x) = baseTexture (textures r !!! x) ∧
    _newTexture (textures r' !!! x) = _newTexture (textures r !!! x) ∧
    _glTextures (textures r' !!! x) = _glTextures (textures r !!! x).

(** The slot tables of a live renderer, as initialisation leaves them and
    the bind and unbind calls below keep them: there is a context and at
    least one slot, every slot has its placeholder texture, the placeholders
    differ from each other, no slot is a hole, no texture is in two slots and
    a placeholder is in no slot but its own. *)
Definition slots_ok (r : WebGLRenderer) : Prop :=
  is_Some (gl r) ∧
  0 < length (boundTextures r) ∧
  length (emptyTextures r) = length (boundTextures r) ∧
  (∀ i, i < length (boundTextures r) →
     ∃ e g, array_get (emptyTextures r) i = Some e ∧ is_placeholder r g e) ∧
  exclusive (emptyTextures r) ∧
  no_holes (boundTextures r) ∧
  exclusive (boundTextures r) ∧
  own_slot (boundTextures r) (emptyTextures r).

(** The calls on the slot table: [bindTexture(t, location)] without
    [forceLocation], [bindTexture(null, i)], [unbindTexture(t)]. *)
Inductive SlotCall :=
| bind_texture (t : TexRef) (location : option nat)
| bind_placeholder (i : nat)
| unbind_texture (t : TexRef).

(** A texture of the application: its base texture is uploaded for the
    current context and is not one of the placeholders. *)
Definition user_texture (r : WebGLRenderer) (t : TexRef) : Prop :=
  uploaded_in r (baseOf r t) ∧
  ∀ i, array_get (emptyTextures r) i ≠ Some (baseOf r t).

(** Calls that stay within the slots: a suggested slot is one of the
    slots, and the textures bound are textures of the application. *)
Definition within_slots (r : WebGLRenderer) (c : SlotCall) : Prop :=
  match c with
  | bind_texture t location =>
      user_texture r t ∧ ∀ s, location = Some s → s < length (boundTextures r)
  | bind_placeholder i => i < length (boundTextures r)
  | unbind_texture t => True
  end.

Section SlotCalls.
Context `{Collaborators}.

Definition run_call (c : SlotCall) : M unit :=
  match c with
  | bind_texture t location => do _ <- bindTexture (Some t) location false; ret tt
  | bind_placeholder i => do _ <- bindTexture None (Some i) false; ret tt
  | unbind_texture t => unbindTexture t
  end.

Fixpoint run_calls (cs : list SlotCall) : M unit :=
  match cs with
  | [] => ret tt
  | c :: cs => do _ <- run_call c; run_calls cs
  end.

End SlotCalls.

(** ** Further definitions: runs of renderer switches, calls to managers *)

(** [setObjectRenderer] called with each renderer of the list in turn. *)
Fixpoint setObjectRenderer_seq (xs : list ObjectRendererRef) : M unit :=
  match xs with
  | [] => ret tt
  | x :: xs => do _ <- setObjectRenderer x; setObjectRenderer_seq xs
  end.

(** A log of hand-overs from the renderer [c] to the renderer [c']: each
    hand-over stops the renderer that is current, applies the state of the
    next one and starts it. *)
Inductive handoff : ObjectRendererRef → list Call → ObjectRendererRef → Prop :=
| handoff_none c : handoff c [] c
| handoff_switch c n l c' :
    c ≠ n → handoff n l c' →
    handoff c (objectRenderer_stop c :: state_setState n :: objectRenderer_start n :: l) c'.

(** The calls of [bindTexture] that hand the bind over to a texture manager. *)
Definition is_manager_call (c : Call) : bool :=
  match c with
  | textureManager_updateTexture _ _ _ | newTextureManager_bindTexture _ _ => true
  | _ => false
  end.

(** ** Further definitions: [bindVao] *)

Definition VaoRef := nat.

(** The calls [bindVao] makes on vertex-array objects. *)
Inductive VaoCall :=
| vao_bind (v : VaoRef)
| vao_unbind (v : VaoRef).

(** [bindVao(vao)] reads and writes one field of the renderer,
    [_activeVao]: from the argument ([None] is [null]) and the field before
    the call to the field after it and the calls made.  The method returns
    [this]. *)
Definition bindVao (vao : option VaoRef) (_activeVao : option VaoRef)
  : option VaoRef * list VaoCall :=
  if decide (_activeVao = vao) then (_activeVao, [])
  else
    (vao,
     match vao with
     | Some v => [vao_bind v]
     | None =>
         match _activeVao with
         | Some a => [vao_unbind a]
         | None => []
         end
     end).

(** [bindVao] called with each argument of the list in turn. *)
Fixpoint bindVao_seq (vaos : list (option VaoRef)) (_activeVao : option VaoRef)
  : option VaoRef * list VaoCall :=
  match vaos with
  | [] => (_activeVao, [])
  | vao :: vaos =>
      let r1 := bindVao vao _activeVao in
      let r2 := bindVao_seq vaos r1.1 in
      (r2.1, r1.2 ++ r2.2)
  end.

(** ** Runs of binds, call by call *)

(** The driver binds that the calls of a run made for the texture whose
    base texture is [b]. *)
Definition binds_for (r : WebGLRenderer) (b : TexRef)
    (tr : list (TexRef * nat * list Call)) : nat :=
  sum_list ((λ e, if decide (baseOf r e.1.1 = b) then driver_binds e.2 else 0) <$> tr).

(** No call of the run for another texture than [b] binds to slot [i]. *)
Definition keeps_slot (r : WebGLRenderer) (b : TexRef) (i : nat)
    (tr : list (TexRef * nat * list Call)) : Prop :=
  Forall (λ e, baseOf r e.1.1 ≠ b → e.2 ≠ [] → e.1.2 ≠ i) tr.

(** Every call of the run for [b] returns slot [i] and calls nothing. *)
Definition served_from (r : WebGLRenderer) (b : TexRef) (i : nat)
    (tr : list (TexRef * nat * list Call)) : Prop :=
  Forall (λ e, baseOf r e.1.1 = b → e.1.2 = i ∧ e.2 = []) tr.

(** The textures of the run other than [b] are uploaded: [bindTexture] binds
    them itself. *)
Definition others_uploaded (r : WebGLRenderer) (b : TexRef)
    (calls : list (TexRef * option nat)) : Prop :=
  Forall (λ c, baseOf r c.1 ≠ b → uploaded_in r (baseOf r c.1)) calls.

(** ** The texture manager's [removeAll], and the context helpers *)

Definition without_glTexture (uid : nat) (o : TexObj) : TexObj :=
  {| baseTexture := baseTexture o; _glTextures := delete uid (_glTextures o);
     _newTexture := _newTexture o; touched := touched o |}.

(** Modelled from the spec: [TextureManager.removeAll()], which is not under
    src/.  Section 4.5 has the renderer, on a restored context, "re-run the
    initialization sequence and instruct the texture upload manager to drop
    all stale per-context GPU handles (they refer to a destroyed context
    generation and must never be dereferenced)".  When it is called the
    initialisation has run, and the placeholders of the slots are the
    textures with a handle of the new generation: every other texture object
    loses its entry under the renderer's [CONTEXT_UID].  Nothing else of the
    renderer changes. *)
Definition TextureManager_removeAll (r : WebGLRenderer) : WebGLRenderer :=
  set_textures
    (map_imap (λ x o, Some (if decide (Some x ∈ emptyTextures r) then o
                            else without_glTexture (CONTEXT_UID r) o))
       (textures r)) r.

(** Collaborators that leave the renderer as it is, but for [removeAll],
    which does what the specification says. *)
Definition dropping : Collaborators :=
  {| updateTexture := λ _ _ r, r;
     newTexture_bindTexture := λ _ _ r, r;
     removeAll := TextureManager_removeAll;
     renderWebGL := λ _ r, r;
     TextureGarbageCollector_count := 0 |}.

(** The only GPU-side texture that can be looked up under the renderer's
    [CONTEXT_UID] is [g]. *)
Definition only_handle (g : GLTexture) (r : WebGLRenderer) : Prop :=
  ∀ (x : TexRef) h, _glTextures (textures r !!! x) !! CONTEXT_UID r = Some h → h = g.

(** An example of the context helpers: a context that is lost does not pass
    the validation, and no context can be created (WebGL is not
    supported). *)
Definition no_webgl : ContextSource :=
  {| validateContext := λ c, negb (isContextLost c);
     createContext := None |}.

(** Another: every context passes, and the example context is created when
    none is supplied. *)
Definition with_webgl : ContextSource :=
  {| validateContext := λ _, true;
     createContext := Some example_context |}.

(** ** [generateSampleSrc]

    The function of generateMultiTextureShader.js that writes the chain of
    [if]/[else] blocks of the fragment shader.  [maxTextures] is a count of
    texture units, a natural number; [${i}] of a loop index is its decimal
    notation, [pretty i].  [src += piece] is [src +:+ piece]. *)

Definition newline : string := String "010"%char "".
Definition tab : string := String "009"%char "".

(** The body of the loop, at index [i]. *)
Definition generateSampleSrc_body (maxTextures i : nat) (src : string) : string :=
  let src := if decide (0 < i) then src +:+ newline +:+ "else " else src in
  let src := if decide (i < maxTextures - 1)
             then src +:+ "if(textureId == " +:+ pretty i +:+ ".0)" else src in
  let src := src +:+ newline +:+ "{" in
  let src := src +:+ newline +:+ tab +:+ "color = texture2D(uSamplers["
                 +:+ pretty i +:+ "], vTextureCoord);" in
  src +:+ newline +:+ "}".

(** The loop at index [i], with [n] rounds to go. *)
Fixpoint generateSampleSrc_loop (maxTextures n i : nat) (src : string) : string :=
  match n with
  | 0 => src
  | S n' => generateSampleSrc_loop maxTextures n' (S i)
              (generateSampleSrc_body maxTextures i src)
  end.

Definition generateSampleSrc (maxTextures : nat) : string :=
  let src := "" in
  let src := src +:+ newline in
  let src := src +:+ newline in
  let src := generateSampleSrc_loop maxTextures maxTextures 0 src in
  let src := src +:+ newline in
  let src := src +:+ newline in
  src.

(** How often a character occurs in a string. *)
Fixpoint count_char (c : ascii) (s : string) : nat :=
  match s with
  | EmptyString => 0
  | String c' s => (if decide (c' = c) then 1 else 0) + count_char c s
  end.

Definition is_digit (c : ascii) : bool :=
  bool_decide (c ∈ ["0"; "1"; "2"; "3"; "4"; "5"; "6"; "7"; "8"; "9"]%char).


(** The block that reads sampler [i], and the condition that guards it. *)
Definition sample_block (i : nat) : string :=
  newline +:+ "{" +:+
  newline +:+ tab +:+ "color = texture2D(uSamplers[" +:+ pretty i +:+ "], vTextureCoord);" +:+
  newline +:+ "}".

Definition sample_condition (i : nat) : string :=
  "if(textureId == " +:+ pretty i +:+ ".0)".

(** ** Laws of the monad *)

Lemma after_calls_nil {A} (x : Result (A * WebGLRenderer * list Call)) :
  after_calls [] x = x.
Proof. by destruct x as [[[a r] l]| |]. Qed.

Lemma after_calls_app {A} l1 l2 (x : Result (A * WebGLRenderer * list Call)) :
  after_calls l1 (after_calls l2 x) = after_calls (l1 ++ l2) x.
Proof. destruct x as [[[a r] l]| |]; simpl; [by rewrite app_assoc|done..]. Qed.

Lemma after_calls_Ok {A} l (x : Result (A * WebGLRenderer * list Call)) a r l' :
  after_calls l x = Ok (a, r, l') ↔ ∃ l2, x = Ok (a, r, l2) ∧ l' = l ++ l2.
Proof.
  destruct x as [[[a0 r0] l0]| |]; simpl; split.
  - intros [= -> -> <-]. eauto.
  - intros (l2 & [= -> -> ->] & ->). done.
  - done.
  - by intros (? & ? & _).
  - done.
  - by intros (? & ? & _).
Qed.

Lemma bind_ret {A B} (a : A) (k : A → M B) r : bind (ret a) k r = k a r.
Proof. unfold bind, ret. apply after_calls_nil. Qed.

Lemma bind_get {B} (k : WebGLRenderer → M B) r : bind get k r = k r r.
Proof. unfold bind, get. apply after_calls_nil. Qed.

Lemma bind_modify {B} f (k : unit → M B) r : bind (modify f) k r = k tt (f r).
Proof. unfold bind, modify. apply after_calls_nil. Qed.

Lemma bind_call {B} c (k : unit → M B) r : bind (call c) k r = after_calls [c] (k tt r).
Proof. done. Qed.

Lemma bind_Ok {A B} (m : M A) (k : A → M B) r b r2 l :
  bind m k r = Ok (b, r2, l) ↔
  ∃ a r1 l1 l2, m r = Ok (a, r1, l1) ∧ k a r1 = Ok (b, r2, l2) ∧ l = l1 ++ l2.
Proof.
  unfold bind. destruct (m r) as [[[a r1] l1]| |]; split.
  - intros (l2 & ? & ?)%after_calls_Ok. by exists a, r1, l1, l2.
  - intros (a' & r1' & l1' & l2 & [= -> -> ->] & Hk & ->).
    apply after_calls_Ok. eauto.
  - done.
  - by intros (? & ? & ? & ? & ? & _).
  - done.
  - by intros (? & ? & ? & ? & ? & _).
Qed.

(** ** The object-renderer switch *)

Lemma currentRenderer_call_Some f r o :
  currentRenderer r = Some o → currentRenderer_call f r = Ok (tt, r, [f o]).
Proof. intros Ho. unfold currentRenderer_call. by rewrite bind_get, Ho. Qed.

Lemma setObjectRenderer_same r next :
  currentRenderer r = Some next → setObjectRenderer next r = Ok (tt, r, []).
Proof.
  intros Hc. unfold setObjectRenderer. rewrite bind_get.
  by rewrite decide_True.
Qed.

Lemma setObjectRenderer_other r prev next :
  currentRenderer r = Some prev → prev ≠ next →
  setObjectRenderer next r =
    Ok (tt, set_currentRenderer (Some next) r,
        [objectRenderer_stop prev; state_setState next; objectRenderer_start next]).
Proof.
  intros Hc Hne. unfold setObjectRenderer. rewrite bind_get.
  rewrite decide_False by congruence.
  unfold bind at 1. rewrite (currentRenderer_call_Some _ _ _ Hc).
  rewrite bind_modify, bind_call.
  by rewrite (currentRenderer_call_Some _ _ next).
Qed.

Lemma setObjectRenderer_null r next :
  currentRenderer r = None → setObjectRenderer next r = TypeError.
Proof.
  intros Hc. unfold setObjectRenderer. rewrite bind_get.
  rewrite decide_False by congruence.
  unfold bind at 1, currentRenderer_call. by rewrite bind_get, Hc.
Qed.

(** C5, as stated, fails in its count: when the argument is the current
    renderer already, two calls in a row invoke neither [start()] nor
    [stop()], not each once. *)
Lemma setObjectRenderer_twice_on_current_calls_nothing :
  currentRenderer example_renderer = Some 200 ∧
  (do _ <- setObjectRenderer 200; setObjectRenderer 200) example_renderer =
    Ok (tt, example_renderer, []) ∧
  starts [] = 0 ∧ stops [] = 0.
Proof.
  split; [vm_compute; reflexivity|].
  split; [|done].
  unfold bind. by rewrite !(setObjectRenderer_same example_renderer 200 eq_refl).
Qed.

(** C5, amended: [setObjectRenderer(next)] does nothing when [next] is the
    current renderer; otherwise it calls [stop()] on the previous renderer,
    makes [next] current, applies [next.state] and calls [start()] on
    [next], in this order.  Called twice in a row with the same argument,
    the second call adds nothing: in total [start()] and [stop()] are each
    called once when the first call changed the renderer, and not at all
    when [next] was current from the start. *)
Theorem setObjectRenderer_switch (r : WebGLRenderer) (prev next : ObjectRendererRef) :
  currentRenderer r = Some prev →
  (prev = next → setObjectRenderer next r = Ok (tt, r, [])) ∧
  (prev ≠ next →
     setObjectRenderer next r =
       Ok (tt, set_currentRenderer (Some next) r,
           [objectRenderer_stop prev; state_setState next; objectRenderer_start next])) ∧
  ∃ r1 l1,
    setObjectRenderer next r = Ok (tt, r1, l1) ∧
    currentRenderer r1 = Some next ∧
    setObjectRenderer next r1 = Ok (tt, r1, []) ∧
    (do _ <- setObjectRenderer next; setObjectRenderer next) r = Ok (tt, r1, l1) ∧
    (prev ≠ next → starts l1 = 1 ∧ stops l1 = 1) ∧
    (prev = next → starts l1 = 0 ∧ stops l1 = 0).
Proof.
  intros Hc. split; [|split].
  - intros <-. by apply setObjectRenderer_same.
  - intros Hne. by apply setObjectRenderer_other.
  - destruct (decide (prev = next)) as [<-|Hne].
    + exists r, []. rewrite (setObjectRenderer_same _ _ Hc).
      split_and!; try done.
      unfold bind. by rewrite !(setObjectRenderer_same _ _ Hc).
    + eexists _, _. rewrite (setObjectRenderer_other _ _ _ Hc Hne).
      split_and!; try done.
      * by apply setObjectRenderer_same.
      * unfold bind. rewrite (setObjectRenderer_other _ _ _ Hc Hne).
        by rewrite setObjectRenderer_same.
Qed.

Lemma setObjectRenderer_switch_witness :
  currentRenderer example_renderer = Some 200 ∧
  setObjectRenderer 7 example_renderer =
    Ok (tt, set_currentRenderer (Some 7) example_renderer,
        [objectRenderer_stop 200; state_setState 7; objectRenderer_start 7]).
Proof.
  split; [reflexivity|].
  apply (setObjectRenderer_switch example_renderer 200 7); [reflexivity|lia].
Defined.

(** C9: [flush()] is [setObjectRenderer(emptyRenderer)]: on every renderer
    the two give the same outcome, the same renderer afterwards and the same
    calls.  Spelled out: nothing happens when the empty renderer is current;
    otherwise the current renderer is stopped, the empty renderer becomes
    current, its state is applied and it is started. *)
Theorem flush_is_setObjectRenderer_emptyRenderer (r : WebGLRenderer) :
  flush r = flush_spec r ∧
  (currentRenderer r = Some (emptyRenderer r) → flush r = Ok (tt, r, [])) ∧
  (∀ prev, currentRenderer r = Some prev → prev ≠ emptyRenderer r →
     flush r =
       Ok (tt, set_currentRenderer (Some (emptyRenderer r)) r,
           [objectRenderer_stop prev; state_setState (emptyRenderer r);
            objectRenderer_start (emptyRenderer r)])).
Proof.
  assert (flush r = flush_spec r) as Heq.
  { unfold flush, flush_spec. by rewrite bind_get. }
  split; [done|]. rewrite Heq. unfold flush_spec. split.
  - apply setObjectRenderer_same.
  - intros prev. apply setObjectRenderer_other.
Qed.

Lemma flush_is_setObjectRenderer_emptyRenderer_witness :
  flush (set_currentRenderer (Some 7) example_renderer) =
    Ok (tt, set_currentRenderer (Some 200) (set_currentRenderer (Some 7) example_renderer),
        [objectRenderer_stop 7; state_setState 200; objectRenderer_start 200]).
Proof.
  apply (flush_is_setObjectRenderer_emptyRenderer
           (set_currentRenderer (Some 7) example_renderer)); [reflexivity|].
  vm_compute; lia.
Defined.

(** ** [render] on an unusable context *)

Lemma render_unusable `{Collaborators} r d rt clear tr skip :
  context_unusable r = true →
  render d rt clear tr skip r =
    Ok (tt, set_renderingToScreen (negb (bool_decide (is_Some rt))) r, [emit "prerender"]).
Proof.
  intros Hu. unfold render.
  rewrite bind_modify, bind_call, bind_get.
  replace (context_unusable (set_renderingToScreen _ r)) with (context_unusable r) by done.
  by rewrite Hu.
Qed.

(** C4: a [render] call made while the context is lost, or while the renderer
    has no [gl], returns normally and makes no call that reaches the GPU or a
    manager: its only call is the "prerender" notification, so there is no
    render-target bind, no object-renderer start or flush, no texture bind,
    no clear, no garbage-collection tick and no driver flush. *)
Theorem render_unusable_context_is_noop `{Collaborators} (r : WebGLRenderer)
    (d : DisplayObjectRef) (rt : option RenderTextureRef) (clear : option bool)
    (tr : option nat) (skip : bool) :
  context_unusable r = true →
  ∃ r' l,
    render d rt clear tr skip r = Ok (tt, r', l) ∧
    l = [emit "prerender"] ∧
    Forall (λ c, gpu_work c = false) l ∧
    r' = set_renderingToScreen (negb (bool_decide (is_Some rt))) r.
Proof.
  intros Hu. eexists _, _. split; [by apply render_unusable|].
  split; [done|]. split; [|done]. by repeat constructor.
Qed.

Lemma render_unusable_context_is_noop_witness :
  context_unusable lost_renderer = true ∧
  ∃ r' l, render (H := inert) 1 None None None false lost_renderer = Ok (tt, r', l) ∧
          Forall (λ c, gpu_work c = false) l.
Proof.
  split; [reflexivity|].
  destruct (render_unusable_context_is_noop (H := inert) lost_renderer 1 None None None false)
    as (r' & l & Hr & _ & Hl & _); [reflexivity|].
  exists r', l. exact (conj Hr Hl).
Defined.

(** C10: in a [render] call on a renderer whose context is lost, the
    "prerender" notification is emitted and [renderingToScreen] is set from
    the [renderTexture] argument, both before the lost-context check, and
    "postrender" is not emitted. *)
Theorem render_lost_context_notifications `{Collaborators} (r : WebGLRenderer)
    (g : WebGLRenderingContext) (d : DisplayObjectRef)
    (rt : option RenderTextureRef) (clear : option bool) (tr : option nat)
    (skip : bool) :
  gl r = Some g → isContextLost g = true →
  ∃ r' l,
    render d rt clear tr skip r = Ok (tt, r', l) ∧
    emit "prerender" ∈ l ∧
    renderingToScreen r' = negb (bool_decide (is_Some rt)) ∧
    emit "postrender" ∉ l.
Proof.
  intros Hg Hlost. eexists _, _. split.
  - apply render_unusable. unfold context_unusable. by rewrite Hg.
  - split; [set_solver|]. split; [done|].
    intros [=]%list_elem_of_singleton.
Qed.

Lemma render_lost_context_notifications_witness :
  gl lost_renderer = Some lost_context ∧ isContextLost lost_context = true ∧
  ∃ r' l, render (H := inert) 1 (Some 9) None None false lost_renderer = Ok (tt, r', l) ∧
          renderingToScreen r' = false ∧ emit "postrender" ∉ l.
Proof.
  split; [reflexivity|]. split; [reflexivity|].
  destruct (render_lost_context_notifications (H := inert)
              lost_renderer lost_context 1 (Some 9) None None false)
    as (r' & l & Hr & _ & Hs & Hp); [reflexivity..|].
  exists r', l. exact (conj Hr (conj Hs Hp)).
Defined.

(** ** JavaScript arrays: reads after writes *)

Lemma array_get_lt_is_lookup {A} (a : list (option A)) i x :
  array_get a i = Some x ↔ a !! i = Some (Some x).
Proof.
  unfold array_get. destruct (a !! i) as [[y|]|]; simpl; naive_solver.
Qed.

Lemma array_get_Some_lt {A} (a : list (option A)) i x :
  array_get a i = Some x → i < length a.
Proof. intros Hx%array_get_lt_is_lookup. by eapply lookup_lt_Some. Qed.

Lemma array_get_set_eq {A} (a : list (option A)) i v :
  array_get (array_set a i v) i = v.
Proof.
  unfold array_get, array_set. case_decide as Hi.
  - by rewrite list_lookup_insert_eq.
  - rewrite lookup_app_r by lia.
    rewrite lookup_app_r by (rewrite length_replicate; lia).
    rewrite length_replicate. by replace (i - length a - (i - length a)) with 0 by lia.
Qed.

Lemma array_get_set_ne {A} (a : list (option A)) i j v :
  i ≠ j → array_get (array_set a i v) j = array_get a j.
Proof.
  intros Hne. unfold array_get, array_set. case_decide as Hi.
  - by rewrite list_lookup_insert_ne.
  - destruct (decide (j < length a)) as [Hj|Hj].
    + by rewrite lookup_app_l.
    + rewrite (lookup_ge_None_2 a j) by lia.
      rewrite lookup_app_r by lia.
      destruct (decide (j - length a < i - length a)) as [Hk|Hk].
      * rewrite lookup_app_l by (rewrite length_replicate; lia).
        by rewrite lookup_replicate_2.
      * rewrite lookup_app_r by (rewrite length_replicate; lia).
        rewrite length_replicate.
        destruct (j - length a - (i - length a)) as [|k] eqn:Hd; [lia|done].
Qed.

Lemma length_array_set {A} (a : list (option A)) i v :
  length (array_set a i v) = length a `max` S i.
Proof.
  unfold array_set. case_decide.
  - rewrite length_insert. lia.
  - rewrite !length_app, length_replicate. simpl. lia.
Qed.

Lemma indexOf_Some t a i :
  indexOf t a = Some i ↔
  array_get a i = Some t ∧ ∀ k, k < i → array_get a k ≠ Some t.
Proof.
  unfold indexOf. split.
  - destruct (list_find _ a) as [[i' x]|] eqn:Hf; [|done].
    intros [= <-]. apply list_find_Some in Hf as (Hi & -> & Hmin).
    split; [by apply array_get_lt_is_lookup|].
    intros k Hk Hget%array_get_lt_is_lookup. by eapply Hmin.
  - intros [Hi%array_get_lt_is_lookup Hmin].
    erewrite (proj2 (list_find_Some _ a i (Some t))); [done|].
    split_and!; [done..|].
    intros j y Hj Hlt ->. eapply Hmin; [done|]. by apply array_get_lt_is_lookup.
Qed.

Lemma indexOf_None t a :
  indexOf t a = None ↔ ∀ i, array_get a i ≠ Some t.
Proof.
  unfold indexOf. split.
  - destruct (list_find _ a) as [[i' x]|] eqn:Hf; [done|]. intros _.
    intros i Hi%array_get_lt_is_lookup.
    eapply list_find_None in Hf. eapply Forall_lookup_1 in Hf; [|done]. done.
  - intros Hno. rewrite (proj2 (list_find_None _ a)); [done|].
    apply Forall_lookup_2. intros i x Hi ->.
    eapply Hno. by apply array_get_lt_is_lookup.
Qed.

(** The first slot holding [t], when some slot holds it. *)
Lemma indexOf_resident t a j :
  array_get a j = Some t →
  ∃ i, indexOf t a = Some i ∧ i ≤ j.
Proof.
  intros Hj. destruct (indexOf t a) as [i|] eqn:Hi.
  - exists i. split; [done|]. apply indexOf_Some in Hi as [_ Hmin].
    destruct (decide (i ≤ j)); [done|]. exfalso. apply (Hmin j); [lia|done].
  - exfalso. by eapply indexOf_None.
Qed.

(** ** [bindTexture]: a resident texture is not bound again *)

Lemma driver_binds_app l1 l2 : driver_binds (l1 ++ l2) = driver_binds l1 + driver_binds l2.
Proof. unfold driver_binds. by rewrite filter_app, length_app. Qed.

Lemma driver_activations_app l1 l2 :
  driver_activations (l1 ++ l2) = driver_activations l1 + driver_activations l2.
Proof. unfold driver_activations. by rewrite filter_app, length_app. Qed.

Section bindTexture_facts.
Context `{Collaborators}.

Lemma touch_lookup b r t :
  textures (touch b r) !!! t =
    if decide (b = t) then with_touched (textureGC_count r) (textures r !!! t)
    else textures r !!! t.
Proof.
  unfold touch. simpl. case_decide as Hb.
  - subst. by rewrite lookup_total_insert_eq.
  - by rewrite lookup_total_insert_ne.
Qed.

Lemma touch_baseTexture b r t :
  baseTexture (textures (touch b r) !!! t) = baseTexture (textures r !!! t).
Proof. rewrite touch_lookup. by case_decide. Qed.

Lemma touch_newTexture b r t :
  _newTexture (textures (touch b r) !!! t) = _newTexture (textures r !!! t).
Proof. rewrite touch_lookup. by case_decide. Qed.

Lemma touch_glTextures b r t :
  _glTextures (textures (touch b r) !!! t) = _glTextures (textures r !!! t).
Proof. rewrite touch_lookup. by case_decide. Qed.

Lemma baseOf_touch b r t : baseOf (touch b r) t = baseOf r t.
Proof. unfold baseOf. by rewrite touch_baseTexture. Qed.

(** The scan finds the texture: the slot is returned, nothing is called. *)
Lemma bindTexture_hit r t location t0 i :
  argument_texture t location r = Some t0 →
  indexOf (baseOf r t0) (boundTextures r) = Some i →
  bindTexture t location false r = Ok (i, touch (baseOf r t0) r, []).
Proof.
  intros Harg Hi. unfold bindTexture. rewrite Harg. simpl.
  change (boundTextures (touch (baseOf r t0) r)) with (boundTextures r).
  by rewrite Hi.
Qed.

Lemma bindTexture_seq_hit r t location t0 i n :
  argument_texture t location r = Some t0 →
  indexOf (baseOf r t0) (boundTextures r) = Some i →
  ∃ rn, bindTexture_seq (replicate n (t, location)) r = Ok (replicate n i, rn, []) ∧
        boundTextures rn = boundTextures r.
Proof.
  revert r. induction n as [|n IH]; intros r Harg Hi; simpl.
  - by exists r.
  - destruct (IH (touch (baseOf r t0) r)) as (rn & Hseq & Htab).
    { done. }
    { by rewrite baseOf_touch. }
    exists rn. split; [|done].
    unfold bind at 1. rewrite (bindTexture_hit _ _ _ _ _ Harg Hi). simpl.
    unfold bind at 1. rewrite Hseq. by simpl.
Qed.

(** What the tail of [bindTexture] can do: at most one driver bind, and if
    it binds, the slot holds the texture afterwards. *)
Lemma bindTexture_at_cases t s r i r1 l :
  bindTexture_at t s r = Ok (i, r1, l) →
  i = s ∧
  ((driver_binds l = 0 ∧ driver_activations l = 0) ∨
   (driver_binds l = 1 ∧ driver_activations l = 1 ∧
    r1 = set_boundTextures (array_set (boundTextures r) s (Some t)) r)).
Proof.
  unfold bindTexture_at.
  destruct (_newTexture _) as [nt|].
  { destruct (newTextureManager r); [|done]. intros [= <- <- <-]. auto. }
  destruct (_glTextures _ !! _) as [g|].
  - case_decide.
    + intros [= <- <- <-]. auto.
    + destruct (gl r); [|done]. intros [= <- <- <-]. auto.
  - intros [= <- <- <-]. auto.
Qed.

(** One call without [forceLocation]: at most one driver bind, and if it
    binds, the texture is resident afterwards. *)
Lemma bindTexture_cases r (t : TexRef) location i r1 l :
  bindTexture (Some t) location false r = Ok (i, r1, l) →
  (driver_binds l = 0 ∧ driver_activations l = 0) ∨
  (driver_binds l = 1 ∧ driver_activations l = 1 ∧
   array_get (boundTextures r1) i = Some (baseOf r1 t)).
Proof.
  unfold bindTexture. simpl.
  change (boundTextures (touch (baseOf r t) r)) with (boundTextures r).
  destruct (indexOf _ _) as [k|].
  { intros [= <- <- <-]. auto. }
  destruct location as [s|].
  - intros (-> & [?|(? & ? & ->)])%bindTexture_at_cases; [auto|]. right.
    split_and!; [done..|]. simpl.
    rewrite array_get_set_eq. f_equal. symmetry.
    exact (baseOf_touch (baseOf r t) r t).
  - case_decide; [done|].
    intros (-> & [?|(? & ? & ->)])%bindTexture_at_cases; [auto|]. right.
    split_and!; [done..|]. simpl.
    rewrite array_get_set_eq. f_equal. symmetry.
    exact (baseOf_touch (baseOf r t) r t).
Qed.

Lemma bindTexture_seq_same_hit (t : TexRef) locations r j slots r1 l :
  array_get (boundTextures r) j = Some (baseOf r t) →
  bindTexture_seq ((λ location, (Some t, location)) <$> locations) r = Ok (slots, r1, l) →
  l = [].
Proof.
  revert r slots l. induction locations as [|loc locs IH]; intros r slots l Hj; simpl.
  - by intros [= <- <- <-].
  - destruct (indexOf_resident _ _ _ Hj) as (i & Hi & _).
    intros (i' & r' & l1 & l2 & Hb & Hrest & ->)%bind_Ok.
    rewrite (bindTexture_hit r (Some t) loc t i eq_refl Hi) in Hb.
    injection Hb as <- <- <-.
    apply bind_Ok in Hrest as (slots' & r2 & l3 & l4 & Hseq & Hret & ->).
    injection Hret as <- <- <-.
    eapply IH in Hseq as ->; [done|].
    by rewrite baseOf_touch.
Qed.

Lemma bindTexture_seq_same_binds (t : TexRef) locations r slots r1 l :
  bindTexture_seq ((λ location, (Some t, location)) <$> locations) r = Ok (slots, r1, l) →
  driver_binds l ≤ 1 ∧ driver_activations l ≤ 1.
Proof.
  revert r slots l. induction locations as [|loc locs IH]; intros r slots l; simpl.
  - intros [= <- <- <-]. unfold driver_binds, driver_activations. simpl. lia.
  - intros (i & r' & l1 & l2 & Hb & Hrest & ->)%bind_Ok.
    apply bind_Ok in Hrest as (slots' & r2 & l3 & l4 & Hseq & Hret & ->).
    injection Hret as <- <- <-.
    rewrite app_nil_r, driver_binds_app, driver_activations_app.
    apply bindTexture_cases in Hb as [[-> ->]|(-> & -> & Hres)].
    + by apply IH in Hseq.
    + eapply bindTexture_seq_same_hit in Hseq as ->; [|done].
      unfold driver_binds, driver_activations. simpl. lia.
Qed.

End bindTexture_facts.

(** Four texture units; A, B, C, A are bound without [forceLocation] and
    without a suggested slot: A, B and C get three different slots, the
    second bind of A returns the slot of the first and adds no driver call. *)
Example bindTexture_A_B_C_A :
  ∃ r',
    bindTexture_seq (H := inert)
      [(Some 100, None); (Some 101, None); (Some 102, None); (Some 100, None)]
      example_renderer =
      Ok ([2; 1; 0; 2], r',
          [gl_activeTexture 2; gl_bindTexture (Some 1);
           gl_activeTexture 1; gl_bindTexture (Some 2);
           gl_activeTexture 0; gl_bindTexture (Some 3)]) ∧
    boundTextures r' = [Some 102; Some 101; Some 100; Some 206].
Proof. eexists. split; vm_compute; reflexivity. Qed.

(** ** [bindTexture] with [forceLocation] *)

(** C2, as stated, fails: with [forceLocation] set and no slot given, on a
    renderer whose slot 0 already holds texture A (uploaded for the current
    context), [bindTexture(A, undefined, true)] returns 0 and makes no driver
    call. *)
Lemma bindTexture_forced_skips_resident_slot :
  array_get (boundTextures forced_A) 0 = Some 100 ∧
  ∃ r', bindTexture (H := inert) (Some 100) None true forced_A = Ok (0, r', []).
Proof.
  split; [vm_compute; reflexivity|].
  eexists. vm_compute. reflexivity.
Qed.

(** C2, amended: with [forceLocation] set the slot is the given one, or 0
    when none is given, and that slot is returned.  For a texture that has a
    GPU-side texture for the current context, the driver-level bind to that
    slot is made whatever other texture occupies the slot, and the slot then
    records the texture; when the slot already holds the texture the call
    returns without any driver call.  A texture without a GPU-side texture
    is handed to [textureManager.updateTexture] with that slot, one with a
    [_newTexture] to [newTextureManager.bindTexture]. *)
Theorem bindTexture_forced `{Collaborators} (r : WebGLRenderer)
    (t : option TexRef) (location : option nat) (t0 : TexRef) :
  argument_texture t location r = Some t0 →
  let b := baseOf r t0 in
  let s := default 0 location in
  let r1 := touch b r in
  (∀ i r' l, bindTexture t location true r = Ok (i, r', l) → i = s) ∧
  (∀ g ctx,
     _newTexture (textures r !!! b) = None →
     _glTextures (textures r !!! b) !! CONTEXT_UID r = Some g →
     gl r = Some ctx →
     (array_get (boundTextures r) s ≠ Some b →
        bindTexture t location true r =
          Ok (s, set_boundTextures (array_set (boundTextures r) s (Some b)) r1,
              [gl_activeTexture s; gl_bindTexture (texture g)])) ∧
     (array_get (boundTextures r) s = Some b →
        bindTexture t location true r = Ok (s, r1, []))) ∧
  (_newTexture (textures r !!! b) = None →
   _glTextures (textures r !!! b) !! CONTEXT_UID r = None →
   bindTexture t location true r =
     Ok (s, updateTexture b s r1, [textureManager_updateTexture (textureManager r) b s])) ∧
  (∀ nt m,
     _newTexture (textures r !!! b) = Some nt → newTextureManager r = Some m →
     bindTexture t location true r =
       Ok (s, newTexture_bindTexture nt s r1, [newTextureManager_bindTexture nt s])).
Proof.
  intros Harg b s r1.
  assert (bindTexture t location true r = bindTexture_at b s r1) as ->.
  { unfold bindTexture. by rewrite Harg. }
  unfold bindTexture_at.
  change (boundTextures r1) with (boundTextures r).
  change (CONTEXT_UID r1) with (CONTEXT_UID r).
  change (gl r1) with (gl r).
  change (newTextureManager r1) with (newTextureManager r).
  change (textureManager r1) with (textureManager r).
  pose proof (touch_newTexture b r b) as Hn. pose proof (touch_glTextures b r b) as Hg.
  fold r1 in Hn, Hg. rewrite Hn, Hg. clear Hn Hg.
  split_and!.
  - intros i r' l.
    repeat (case_match; try done); by intros [= <- _ _].
  - intros g ctx -> -> ->. split; intros Hs.
    + by rewrite decide_False.
    + by rewrite decide_True.
  - by intros -> ->.
  - by intros nt m -> ->.
Qed.

Lemma bindTexture_forced_witness :
  argument_texture (Some 101) (Some 0) forced_A = Some 101 ∧
  bindTexture (H := inert) (Some 101) (Some 0) true forced_A =
    Ok (0, set_boundTextures (array_set (boundTextures forced_A) 0 (Some 101))
             (touch 101 forced_A),
        [gl_activeTexture 0; gl_bindTexture (Some 2)]).
Proof.
  split; [reflexivity|].
  destruct (bindTexture_forced (H := inert) forced_A (Some 101) (Some 0) 101 eq_refl)
    as (_ & Hup & _).
  edestruct (Hup {| texture := Some 2 |}) as [Hbind _];
    [vm_compute; reflexivity..|].
  apply Hbind. vm_compute. discriminate.
Defined.

(** ** [bindTexture]: the round-robin slot *)

Lemma round_robin_lt n c k : 0 < n → round_robin n c k < n.
Proof. unfold round_robin. lia. Qed.

Lemma round_robin_step n c k :
  round_robin n (S c mod n) k = round_robin n c (S k).
Proof.
  unfold round_robin. destruct n as [|n]; [done|].
  rewrite Nat.Div0.add_mod_idemp_l. by replace (S c + k) with (c + S k) by lia.
Qed.

Lemma round_robin_period n c k : round_robin n c (k + n) = round_robin n c k.
Proof.
  unfold round_robin. destruct n as [|n]; [done|].
  replace (c + (k + S n)) with (c + k + 1 * S n) by lia.
  by rewrite Nat.Div0.mod_add.
Qed.

(** Every slot is chosen by one of [n] binds in a row. *)
Lemma round_robin_reaches n c s :
  s < n → ∃ k, k < n ∧ round_robin n c (S k) = s.
Proof.
  intros Hs. set (y := n - 1 - s). set (m := S c mod n).
  assert (m < n) by (apply Nat.mod_upper_bound; lia).
  exists (if decide (m ≤ y) then y - m else y + n - m).
  case_decide; (split; [lia|]).
  - rewrite <-round_robin_step. fold m. unfold round_robin.
    replace (m + (y - m)) with y by lia.
    rewrite Nat.mod_small by lia. lia.
  - rewrite <-round_robin_step. fold m. unfold round_robin.
    replace (m + (y + n - m)) with (y + 1 * n) by lia.
    rewrite Nat.Div0.mod_add, Nat.mod_small by lia. lia.
Qed.

Section round_robin_facts.
Context `{Collaborators}.

Lemma bindTexture_miss_no_location r (t : TexRef) :
  (∀ i, array_get (boundTextures r) i ≠ Some (baseOf r t)) →
  0 < length (boundTextures r) →
  bindTexture (Some t) None false r =
    bindTexture_at (baseOf r t)
      (round_robin (length (boundTextures r)) (_nextTextureLocation r) 1)
      (set_nextTextureLocation (S (_nextTextureLocation r) mod length (boundTextures r))
         (touch (baseOf r t) r)).
Proof.
  intros Hmiss%indexOf_None Hn. unfold bindTexture. simpl.
  change (boundTextures (touch (baseOf r t) r)) with (boundTextures r).
  rewrite Hmiss. rewrite decide_False by lia.
  unfold round_robin. by rewrite Nat.add_1_r.
Qed.

Lemma bindTexture_at_returns t s r i r1 l :
  bindTexture_at t s r = Ok (i, r1, l) → i = s.
Proof. by intros [-> _]%bindTexture_at_cases. Qed.

(** The direct path of [bindTexture_at]. *)
Lemma bindTexture_at_uploaded t s r g ctx :
  _newTexture (textures r !!! t) = None →
  _glTextures (textures r !!! t) !! CONTEXT_UID r = Some g →
  gl r = Some ctx →
  array_get (boundTextures r) s ≠ Some t →
  bindTexture_at t s r =
    Ok (s, set_boundTextures (array_set (boundTextures r) s (Some t)) r,
        [gl_activeTexture s; gl_bindTexture (texture g)]).
Proof.
  intros Hn Hg Hgl Hs. unfold bindTexture_at.
  by rewrite Hn, Hg, Hgl, decide_False.
Qed.

Lemma bindTexture_round_robin_uploaded r (t : TexRef) g ctx :
  (∀ i, array_get (boundTextures r) i ≠ Some (baseOf r t)) →
  0 < length (boundTextures r) →
  _newTexture (textures r !!! baseOf r t) = None →
  _glTextures (textures r !!! baseOf r t) !! CONTEXT_UID r = Some g →
  gl r = Some ctx →
  bindTexture (Some t) None false r =
    Ok (round_robin (length (boundTextures r)) (_nextTextureLocation r) 1,
        set_boundTextures
          (array_set (boundTextures r)
             (round_robin (length (boundTextures r)) (_nextTextureLocation r) 1)
             (Some (baseOf r t)))
          (set_nextTextureLocation (S (_nextTextureLocation r) mod length (boundTextures r))
             (touch (baseOf r t) r)),
        [gl_activeTexture (round_robin (length (boundTextures r)) (_nextTextureLocation r) 1);
         gl_bindTexture (texture g)]).
Proof.
  intros Hmiss Hn Hnew Hg Hgl.
  rewrite bindTexture_miss_no_location by done.
  rewrite (bindTexture_at_uploaded _ _ _ g ctx); [reflexivity|..].
  - change (_newTexture (textures (touch (baseOf r t) r) !!! baseOf r t) = None).
    by rewrite touch_newTexture.
  - change (_glTextures (textures (touch (baseOf r t) r) !!! baseOf r t)
              !! CONTEXT_UID r = Some g).
    by rewrite touch_glTextures.
  - done.
  - apply Hmiss.
Qed.

(** Binds in a row of distinct, uploaded, non-resident textures with no slot
    suggested: the [k]-th of them gets the slot [round_robin n c k]. *)
Lemma bindTexture_seq_round_robin (ts : list TexRef) r ctx :
  gl r = Some ctx →
  0 < length (boundTextures r) →
  NoDup (baseOf r <$> ts) →
  (∀ t, t ∈ ts →
     uploaded_in r (baseOf r t) ∧
     ∀ i, array_get (boundTextures r) i ≠ Some (baseOf r t)) →
  ∃ r' l,
    bindTexture_seq ((λ t, (Some t, None)) <$> ts) r =
      Ok ((λ k, round_robin (length (boundTextures r)) (_nextTextureLocation r) (S k))
            <$> seq 0 (length ts), r', l) ∧
    length (boundTextures r') = length (boundTextures r).
Proof.
  revert r. induction ts as [|t ts IH]; intros r Hgl Hn Hnd Hts.
  - by exists r, [].
  - rewrite fmap_cons in Hnd. apply NoDup_cons in Hnd as [Hnotin Hnd].
    change (length (t :: ts)) with (S (length ts)).
    change (bindTexture_seq ((λ t, (Some t, None)) <$> t :: ts))
      with (do i <- bindTexture (Some t) None false;
            do slots <- bindTexture_seq ((λ t, (Some t, None)) <$> ts);
            ret (i :: slots)).
    destruct (Hts t) as [[Hnew [g Hg]] Hmiss]; [by constructor|].
    pose proof (bindTexture_round_robin_uploaded r t g ctx Hmiss Hn Hnew Hg Hgl) as Hb.
    set (n := length (boundTextures r)) in *.
    set (s := round_robin n (_nextTextureLocation r) 1) in *.
    set (r1 := set_boundTextures _ _) in Hb.
    assert (s < n) as Hs by (by apply round_robin_lt).
    assert (∀ u, baseOf r1 u = baseOf r u) as Hbase.
    { intros u. exact (baseOf_touch (baseOf r t) r u). }
    assert (length (boundTextures r1) = n) as Hlen.
    { unfold r1. simpl. rewrite length_array_set. lia. }
    destruct (IH r1) as (r' & l & Hseq & Hlen').
    + done.
    + lia.
    + by rewrite (list_fmap_ext _ (baseOf r) ts) by (intros; apply Hbase).
    + intros u Hu. rewrite Hbase.
      destruct (Hts u) as [[Hnew' Hg'] Hmiss']; [by constructor|].
      split; [split|].
      * change (_newTexture (textures (touch (baseOf r t) r) !!! baseOf r u) = None).
        by rewrite touch_newTexture.
      * change (is_Some (_glTextures (textures (touch (baseOf r t) r) !!! baseOf r u)
                           !! CONTEXT_UID r)).
        by rewrite touch_glTextures.
      * intros i. unfold r1. simpl.
        destruct (decide (s = i)) as [<-|Hne].
        -- rewrite array_get_set_eq. intros [= Heq].
           apply Hnotin. rewrite Heq. apply list_elem_of_fmap. eauto.
        -- rewrite array_get_set_ne by done. apply Hmiss'.
    + assert (((λ k, round_robin n (_nextTextureLocation r) (S k)) <$> seq 0 (S (length ts))) =
              s :: ((λ k, round_robin (length (boundTextures r1)) (_nextTextureLocation r1) (S k))
                      <$> seq 0 (length ts))) as ->.
      { rewrite Hlen. simpl. f_equal.
        rewrite <-fmap_S_seq, <-list_fmap_compose.
        apply list_fmap_ext. intros _ k _. simpl.
        replace (_nextTextureLocation r1) with (S (_nextTextureLocation r) mod n) by done.
        by rewrite round_robin_step. }
      eexists r', _. split; [|lia].
      apply bind_Ok. eexists _, _, _, _. split; [exact Hb|]. split; [|reflexivity].
      apply bind_Ok. eexists _, _, _, _. split; [exact Hseq|]. split; reflexivity.
Qed.

End round_robin_facts.

(** C7: in a [bindTexture] call without [forceLocation] and without a
    suggested slot, for a texture no slot holds, the slot chosen is
    [length - counter - 1], [counter] being [_nextTextureLocation] after it
    was incremented modulo [length]; the slot is below [length] and is the
    one the call returns.  Such calls in a row take the slots
    [length - (c + k) mod length - 1] for k = 1, 2, ..., which reach every
    slot within [length] calls and then repeat. *)
Theorem bindTexture_round_robin_slot `{Collaborators} (r : WebGLRenderer) (t : TexRef) :
  let n := length (boundTextures r) in
  let c := S (_nextTextureLocation r) mod n in
  0 < n →
  (∀ i, array_get (boundTextures r) i ≠ Some (baseOf r t)) →
  bindTexture (Some t) None false r =
    bindTexture_at (baseOf r t) (n - c - 1)
      (set_nextTextureLocation c (touch (baseOf r t) r)) ∧
  n - c - 1 < n ∧
  (∀ i r' l, bindTexture (Some t) None false r = Ok (i, r', l) → i = n - c - 1) ∧
  (∀ g ctx,
     _newTexture (textures r !!! baseOf r t) = None →
     _glTextures (textures r !!! baseOf r t) !! CONTEXT_UID r = Some g →
     gl r = Some ctx →
     ∃ r', bindTexture (Some t) None false r =
             Ok (n - c - 1, r', [gl_activeTexture (n - c - 1); gl_bindTexture (texture g)]) ∧
           _nextTextureLocation r' = c ∧
           array_get (boundTextures r') (n - c - 1) = Some (baseOf r t) ∧
           length (boundTextures r') = n) ∧
  (∀ (ts : list TexRef) ctx,
     gl r = Some ctx →
     NoDup (baseOf r <$> ts) →
     (∀ u, u ∈ ts →
        uploaded_in r (baseOf r u) ∧
        ∀ i, array_get (boundTextures r) i ≠ Some (baseOf r u)) →
     ∃ r' l,
       bindTexture_seq ((λ u, (Some u, None)) <$> ts) r =
         Ok ((λ k, round_robin n (_nextTextureLocation r) (S k)) <$> seq 0 (length ts),
             r', l)) ∧
  (∀ s, s < n → ∃ k, k < n ∧ round_robin n (_nextTextureLocation r) (S k) = s) ∧
  (∀ k, round_robin n (_nextTextureLocation r) (k + n) =
        round_robin n (_nextTextureLocation r) k).
Proof.
  intros n c Hn Hmiss.
  assert (n - c - 1 = round_robin n (_nextTextureLocation r) 1) as Hslot.
  { unfold round_robin, c. by rewrite Nat.add_1_r. }
  assert (bindTexture (Some t) None false r =
            bindTexture_at (baseOf r t) (n - c - 1)
              (set_nextTextureLocation c (touch (baseOf r t) r))) as Hcall.
  { rewrite Hslot. by apply bindTexture_miss_no_location. }
  split_and!.
  - done.
  - lia.
  - intros i r' l. rewrite Hcall. apply bindTexture_at_returns.
  - intros g ctx Hnew Hg Hgl. rewrite Hslot.
    pose proof (round_robin_lt n (_nextTextureLocation r) 1 Hn).
    eexists. split_and!.
    + by eapply bindTexture_round_robin_uploaded.
    + done.
    + simpl. by rewrite array_get_set_eq.
    + simpl. rewrite length_array_set. fold n. lia.
  - intros ts ctx Hgl Hnd Hts.
    destruct (bindTexture_seq_round_robin ts r ctx Hgl Hn Hnd Hts) as (r' & l & Hseq & _).
    by exists r', l.
  - intros s. by apply round_robin_reaches.
  - intros k. apply round_robin_period.
Qed.

Lemma bindTexture_round_robin_slot_witness :
  0 < length (boundTextures example_renderer) ∧
  indexOf (baseOf example_renderer 100) (boundTextures example_renderer) = None ∧
  ∀ i r' l,
    bindTexture (H := inert) (Some 100) None false example_renderer = Ok (i, r', l) → i = 2.
Proof.
  split; [vm_compute; lia|]. split; [vm_compute; reflexivity|].
  intros i r' l Hb.
  destruct (bindTexture_round_robin_slot (H := inert) example_renderer 100) as (_ & _ & Hret & _).
  - vm_compute; lia.
  - apply indexOf_None. vm_compute. reflexivity.
  - apply Hret in Hb. vm_compute in Hb. exact Hb.
Defined.

(** ** [_initContext]: the slots after initialisation *)

Lemma bind_new_object {B} o (k : TexRef → M B) r :
  bind (new_object o) k r =
    k (nextObject r)
      (set_nextObject (S (nextObject r)) (set_textures (<[nextObject r := o]> (textures r)) r)).
Proof. unfold bind, new_object. apply after_calls_nil. Qed.

Lemma array_set_middle {A} (p q : list (option A)) x v :
  array_set (p ++ x :: q) (length p) v = p ++ v :: q.
Proof.
  unfold array_set. rewrite decide_True by (rewrite length_app; simpl; lia).
  rewrite insert_app_r_alt by lia. by rewrite Nat.sub_diag.
Qed.

Lemma array_get_prefix_hole (first i n k : nat) :
  array_get ((Some <$> seq first i) ++ replicate n None) k =
    if decide (k < i) then Some (first + k) else None.
Proof.
  unfold array_get. case_decide as Hk.
  - rewrite lookup_app_l by (rewrite length_fmap, length_seq; lia).
    rewrite list_lookup_fmap, lookup_seq_lt by lia. done.
  - rewrite lookup_app_r by (rewrite length_fmap, length_seq; lia).
    rewrite length_fmap, length_seq.
    destruct (replicate n None !! (k - i)) as [x|] eqn:Hx; [|done].
    by apply lookup_replicate in Hx as [-> _].
Qed.

Lemma rebind_calls_S name i n :
  rebind_calls name i (S n) =
    [gl_activeTexture i; gl_bindTexture name] ++ rebind_calls name (S i) n.
Proof. done. Qed.

Section init_facts.
Context `{Collaborators}.

(** One pass of the loop of [_initContext] binds the new placeholder itself. *)
Lemma _initContext_bind_placeholder r ctx (i : nat) (e : TexRef) eg :
  gl r = Some ctx →
  array_get (emptyTextures r) i = Some e →
  textures r !!! e = with_glTexture (CONTEXT_UID r) eg new_BaseTexture →
  (∀ k, array_get (boundTextures r) k ≠ Some e) →
  bindTexture None (Some i) false r =
    Ok (i, set_boundTextures (array_set (boundTextures r) i (Some e)) (touch e r),
        [gl_activeTexture i; gl_bindTexture (texture eg)]).
Proof.
  intros Hgl He Hobj Hmiss.
  assert (baseOf r e = e) as Hbase by (unfold baseOf; by rewrite Hobj).
  unfold bindTexture.
  replace (argument_texture None (Some i) r) with (Some e) by done.
  cbv zeta. rewrite Hbase.
  change (boundTextures (touch e r)) with (boundTextures r).
  rewrite (proj2 (indexOf_None _ _) Hmiss).
  rewrite (bindTexture_at_uploaded _ _ _ eg ctx); [done|..].
  - by rewrite touch_newTexture, Hobj.
  - rewrite touch_glTextures, Hobj. simpl. by rewrite lookup_insert_eq.
  - done.
  - apply Hmiss.
Qed.

Lemma _initContext_loop_spec tempObj eg first n : ∀ i r ctx,
  gl r = Some ctx →
  nextObject r = first + i →
  tempObj < first →
  boundTextures r = (Some <$> seq first i) ++ replicate n None →
  emptyTextures r = (Some <$> seq first i) ++ replicate n None →
  (∀ k, k < i →
     _newTexture (textures r !!! (first + k)) = None ∧
     _glTextures (textures r !!! (first + k)) !! CONTEXT_UID r = Some eg) →
  ∃ r',
    _initContext_loop tempObj eg n i r = Ok (tt, r', rebind_calls (texture eg) i n) ∧
    boundTextures r' = Some <$> seq first (i + n) ∧
    emptyTextures r' = Some <$> seq first (i + n) ∧
    (∀ k, k < i + n →
       _newTexture (textures r' !!! (first + k)) = None ∧
       _glTextures (textures r' !!! (first + k)) !! CONTEXT_UID r' = Some eg) ∧
    (∀ x, x < first → textures r' !!! x = textures r !!! x) ∧
    CONTEXT_UID r' = CONTEXT_UID r ∧
    gl r' = gl r ∧
    textureManager r' = textureManager r ∧
    _nextTextureLocation r' = _nextTextureLocation r ∧
    nextObject r' = first + i + n.
Proof.
  induction n as [|n IH]; intros i r ctx Hgl Hnext Htemp Hbound Hempty Hup.
  - exists r. rewrite Nat.add_0_r. simpl in Hbound, Hempty.
    rewrite app_nil_r in Hbound, Hempty. split_and!; try done. lia.
  - cbn [_initContext_loop].
    rewrite bind_get, bind_new_object, !bind_modify.
    set (e := nextObject r).
    set (obj := with_glTexture (CONTEXT_UID r) eg new_BaseTexture).
    set (rc := set_emptyTextures _ _).
    assert (boundTextures rc =
              (Some <$> seq first i) ++ Some tempObj :: replicate n None) as Hbc.
    { unfold rc. simpl. rewrite Hbound. simpl.
      rewrite <-(array_set_middle (Some <$> seq first i) (replicate n None) None (Some tempObj)).
      by rewrite length_fmap, length_seq. }
    assert (emptyTextures rc =
              (Some <$> seq first i) ++ Some e :: replicate n None) as Hec.
    { unfold rc. simpl. rewrite Hempty. simpl.
      rewrite <-(array_set_middle (Some <$> seq first i) (replicate n None) None (Some e)).
      by rewrite length_fmap, length_seq. }
    assert (textures rc !!! e = obj) as Hobj.
    { unfold rc. simpl. by rewrite lookup_total_insert_eq. }
    assert (bindTexture None (Some i) false rc =
              Ok (i, set_boundTextures (array_set (boundTextures rc) i (Some e)) (touch e rc),
                  [gl_activeTexture i; gl_bindTexture (texture eg)])) as Hb.
    { apply _initContext_bind_placeholder with ctx.
      - done.
      - rewrite Hec.
        replace i with (length (Some <$> seq first i)) at 2
          by (by rewrite length_fmap, length_seq).
        unfold array_get. by rewrite list_lookup_middle.
      - done.
      - intros k. rewrite Hbc.
        destruct (decide (k = i)) as [->|Hne].
        + replace i with (length (Some <$> seq first i)) at 2
            by (by rewrite length_fmap, length_seq).
          unfold array_get. rewrite list_lookup_middle by done. simpl.
          intros [= ->]. unfold e in Htemp. lia.
        + change (Some tempObj :: replicate n None)
            with (replicate 1 (Some tempObj) ++ replicate n None).
          intros Hk. apply array_get_lt_is_lookup in Hk.
          apply lookup_app_Some in Hk as [Hk|[Hlen Hk]].
          * rewrite list_lookup_fmap in Hk.
            destruct (seq first i !! k) as [x|] eqn:Hx; [|done].
            apply lookup_seq in Hx as [-> Hlt]. injection Hk as Hk.
            unfold e in Hk. lia.
          * rewrite length_fmap, length_seq in Hlen, Hk.
            destruct (k - i) as [|d] eqn:Hd; [lia|]. simpl in Hk.
            by apply lookup_replicate in Hk as [? _]. }
    set (rd := set_boundTextures _ _) in Hb.
    assert (boundTextures rd = (Some <$> seq first (S i)) ++ replicate n None) as Hbd.
    { change (boundTextures rd) with (array_set (boundTextures rc) i (Some e)).
      rewrite Hbc.
      replace i with (length (Some <$> seq first i)) at 2
        by (by rewrite length_fmap, length_seq).
      rewrite array_set_middle, seq_S, fmap_app. simpl.
      rewrite <-app_assoc. simpl. do 3 f_equal. unfold e. lia. }
    destruct (IH (S i) rd ctx) as (r' & Hloop & Hb' & He' & Hup' & Hold & Huid & Hgl' & Htm & Hnl & Hno).
    + done.
    + unfold rd. simpl. lia.
    + done.
    + done.
    + change (emptyTextures rd) with (emptyTextures rc). rewrite Hec.
      rewrite seq_S, fmap_app. simpl. rewrite <-app_assoc. simpl.
      do 3 f_equal. unfold e. lia.
    + intros k Hk.
      change (CONTEXT_UID rd) with (CONTEXT_UID r).
      change (textures rd) with (textures (touch e rc)).
      rewrite touch_newTexture, touch_glTextures.
      destruct (decide (k = i)) as [->|Hne].
      * replace (first + i) with e by (unfold e; lia).
        change (textures rc) with (<[e := obj]> (textures r)).
        rewrite lookup_total_insert_eq.
        split; [done|]. unfold obj. simpl. by rewrite lookup_insert_eq.
      * change (textures rc) with (<[e := obj]> (textures r)).
        rewrite lookup_total_insert_ne by (unfold e; lia).
        apply Hup. lia.
    + exists r'. split_and!.
      * unfold bind at 1. rewrite Hb. rewrite Hloop. by rewrite rebind_calls_S.
      * rewrite Hb'. do 2 f_equal. lia.
      * rewrite He'. do 2 f_equal. lia.
      * intros k Hk. apply Hup'. lia.
      * intros x Hx. rewrite Hold by done.
        change (textures rd) with (textures (touch e rc)).
        rewrite touch_lookup. rewrite decide_False by (unfold e; lia).
        change (textures rc) with (<[e := obj]> (textures r)).
        by rewrite lookup_total_insert_ne by (unfold e; lia).
      * by rewrite Huid.
      * by rewrite Hgl'.
      * by rewrite Htm.
      * by rewrite Hnl.
      * lia.
Qed.

End init_facts.

Section initContext_facts.
Context `{Collaborators}.

(** [_initContext()] on a renderer that has a context: the calls it makes and
    the renderer it leaves.  The manager created gets the identity [tm], the
    temporary object [tm + 1], the placeholders [tm + 2], [tm + 3], ... *)
Lemma _initContext_spec r g :
  gl r = Some g →
  ∃ r1,
    _initContext r = Ok (tt, r1, _initContext_calls g (nextObject r)) ∧
    CONTEXT_UID r1 = CONTEXT_UID r ∧
    textureManager r1 = nextObject r ∧
    boundTextures r1 = Some <$> seq (nextObject r + 2) (MAX_TEXTURE_IMAGE_UNITS g) ∧
    emptyTextures r1 = Some <$> seq (nextObject r + 2) (MAX_TEXTURE_IMAGE_UNITS g) ∧
    (∀ k, k < MAX_TEXTURE_IMAGE_UNITS g →
       _newTexture (textures r1 !!! (nextObject r + 2 + k)) = None ∧
       _glTextures (textures r1 !!! (nextObject r + 2 + k)) !! CONTEXT_UID r1 =
         Some {| texture := Some (createdTextures g) |}) ∧
    (∀ x, x < nextObject r → textures r1 !!! x = textures r !!! x) ∧
    _nextTextureLocation r1 = _nextTextureLocation r.
Proof.
  intros Hgl. unfold _initContext. rewrite bind_get, Hgl.
  set (restore := if isContextLost g && WEBGL_lose_context g then _ else _).
  assert (∀ B (k : unit → M B) r0,
            bind restore k r0 =
              after_calls (if isContextLost g && WEBGL_lose_context g
                           then [gl_restoreContext] else []) (k tt r0)) as Hrestore.
  { intros B k r0. unfold restore. destruct (_ && _).
    - apply bind_call.
    - by rewrite bind_ret, after_calls_nil. }
  rewrite Hrestore. clear Hrestore restore.
  rewrite !bind_modify, bind_get, bind_call, bind_modify, !bind_call.
  set (ra := set_nextObject _ (set_textureManager _ _)).
  set (r2 := set_textureGC_count _ ra).
  unfold bind at 1. unfold GLTexture_new.
  replace (gl r2) with (Some g) by done.
  rewrite bind_new_object.
  set (eg := {| texture := Some (createdTextures g) |}).
  set (r3 := set_nextObject _ (set_textures _ (set_gl _ r2))).
  destruct (_initContext_loop_spec (S (nextObject r)) eg (nextObject r + 2)
              (MAX_TEXTURE_IMAGE_UNITS g) 0 r3
              {| isContextLost := isContextLost g;
                 WEBGL_lose_context := WEBGL_lose_context g;
                 MAX_TEXTURE_IMAGE_UNITS := MAX_TEXTURE_IMAGE_UNITS g;
                 createdTextures := S (createdTextures g) |})
    as (r' & Hloop & Hb' & He' & Hup' & Hold & Huid & Hgl' & Htm & Hnl & Hno).
  - done.
  - unfold r3. simpl. lia.
  - lia.
  - done.
  - done.
  - intros k Hk. lia.
  - exists r'. split_and!.
    + unfold bind at 1.
      change (nextObject (set_gl _ r2)) with (S (nextObject r)).
      rewrite Hloop. unfold _initContext_calls.
      by destruct (isContextLost g && WEBGL_lose_context g).
    + by rewrite Huid.
    + by rewrite Htm.
    + done.
    + done.
    + intros k Hk. apply Hup'. lia.
    + intros x Hx. rewrite Hold by lia. unfold r3. simpl.
      rewrite lookup_total_insert_ne by lia. done.
    + by rewrite Hnl.
Qed.

End initContext_facts.

(** ** Context restore *)

(** C3, as stated, fails: after a context loss and restore the renderer has
    the [CONTEXT_UID] it had before; the identifier is assigned in the
    constructor only. *)
Lemma handleContextRestored_keeps_CONTEXT_UID :
  ∃ r1 l,
    (do _ <- handleContextLost; handleContextRestored (H := dropping)) example_renderer =
      Ok (tt, r1, l) ∧
    CONTEXT_UID r1 = CONTEXT_UID example_renderer.
Proof.
  eexists _, _. split.
  - vm_compute. reflexivity.
  - vm_compute. reflexivity.
Qed.

(** *** What [bindTexture] and [unbindTexture] read *)

Lemma TextureManager_removeAll_lookup r (x : TexRef) :
  textures (TextureManager_removeAll r) !!! x =
    if decide (Some x ∈ emptyTextures r) then textures r !!! x
    else without_glTexture (CONTEXT_UID r) (textures r !!! x).
Proof.
  unfold TextureManager_removeAll.
  change (textures (set_textures ?m r)) with m.
  rewrite !lookup_total_alt, map_lookup_imap.
  destruct (textures r !! x) as [o|]; [done|].
  case_decide; [done|]. unfold without_glTexture. simpl.
  by rewrite delete_empty.
Qed.

Lemma only_handle_store g r r' :
  textures r' = textures r → CONTEXT_UID r' = CONTEXT_UID r →
  only_handle g r → only_handle g r'.
Proof. intros Ht Hu Hr x h. rewrite Ht, Hu. apply Hr. Qed.

Lemma only_handle_touch g b r : only_handle g r → only_handle g (touch b r).
Proof.
  intros Hr x h. rewrite touch_glTextures.
  change (CONTEXT_UID (touch b r)) with (CONTEXT_UID r). apply Hr.
Qed.

Section restore_facts.
Context `{Collaborators}.

(** The names [bindTexture] hands to [gl.bindTexture] are read from the
    entry of a texture object under the renderer's [CONTEXT_UID]. *)
Lemma bindTexture_at_reads t s r i r' l name :
  bindTexture_at t s r = Ok (i, r', l) →
  gl_bindTexture name ∈ l →
  ∃ h, _glTextures (textures r !!! t) !! CONTEXT_UID r = Some h ∧ name = texture h.
Proof.
  unfold bindTexture_at.
  destruct (_newTexture _) as [nt|].
  { destruct (newTextureManager r); [|done]. intros [= <- <- <-] Hin.
    by apply list_elem_of_singleton in Hin. }
  destruct (_glTextures _ !! _) as [g|].
  - case_decide.
    + intros [= <- <- <-] Hin. by apply elem_of_nil in Hin.
    + destruct (gl r); [|done]. intros [= <- <- <-] Hin.
      apply elem_of_cons in Hin as [Hin|Hin]; [done|].
      apply list_elem_of_singleton in Hin as [= ->]. by exists g.
  - intros [= <- <- <-] Hin. by apply list_elem_of_singleton in Hin.
Qed.

Lemma bindTexture_reads t location force r i r' l name :
  bindTexture t location force r = Ok (i, r', l) →
  gl_bindTexture name ∈ l →
  ∃ (x : TexRef) h,
    _glTextures (textures r !!! x) !! CONTEXT_UID r = Some h ∧ name = texture h.
Proof.
  unfold bindTexture. destruct (argument_texture t location r) as [t0|]; [|done].
  cbv zeta. set (b := baseOf r t0).
  assert (∀ s rs, textures rs = textures (touch b r) →
                  CONTEXT_UID rs = CONTEXT_UID r →
                  bindTexture_at b s rs = Ok (i, r', l) →
                  gl_bindTexture name ∈ l →
                  ∃ (x : TexRef) h,
                    _glTextures (textures r !!! x) !! CONTEXT_UID r = Some h ∧
                    name = texture h) as Hat.
  { intros s rs Ht Hu Hb Hin.
    destruct (bindTexture_at_reads _ _ _ _ _ _ _ Hb Hin) as (h & Hh & ->).
    exists b, h. by rewrite Ht, touch_glTextures, Hu in Hh. }
  destruct force.
  - by apply Hat.
  - change (boundTextures (touch b r)) with (boundTextures r).
    destruct (indexOf _ _) as [k|].
    + intros [= <- <- <-] Hin. by apply elem_of_nil in Hin.
    + destruct location as [s|]; [by apply Hat|].
      case_decide; [done|]. by apply Hat.
Qed.

(** A [bindTexture] call that does not go to a manager changes [touched] of
    one texture object and nothing else in the store. *)
Lemma bindTexture_direct_store t location force r i r' l :
  bindTexture t location force r = Ok (i, r', l) →
  Forall (λ c, is_manager_call c = false) l →
  ∃ b, textures r' = textures (touch b r) ∧ CONTEXT_UID r' = CONTEXT_UID r.
Proof.
  unfold bindTexture. destruct (argument_texture t location r) as [t0|]; [|done].
  cbv zeta. set (b := baseOf r t0). intros Hb Hl. exists b. revert Hb.
  assert (∀ s rs, textures rs = textures (touch b r) →
                  CONTEXT_UID rs = CONTEXT_UID r →
                  bindTexture_at b s rs = Ok (i, r', l) →
                  textures r' = textures (touch b r) ∧
                  CONTEXT_UID r' = CONTEXT_UID r) as Hat.
  { intros s rs Hts Hus. unfold bindTexture_at.
    destruct (_newTexture _) as [nt|].
    { destruct (newTextureManager rs); [|done]. intros [= _ _ <-].
      by apply Forall_cons in Hl as [? _]. }
    destruct (_glTextures _ !! _) as [g|].
    - case_decide.
      + by intros [= _ <- _].
      + destruct (gl rs); [|done]. by intros [= _ <- _].
    - intros [= _ _ <-]. by apply Forall_cons in Hl as [? _]. }
  destruct force.
  - by apply Hat.
  - change (boundTextures (touch b r)) with (boundTextures r).
    destruct (indexOf _ _) as [k|].
    + by intros [= _ <- _].
    + destruct location as [s|]; [by apply Hat|].
      case_decide; [done|]. by apply Hat.
Qed.

(** [unbindTexture] leaves the store alone, and the names it hands to
    [gl.bindTexture] are read from the entries of the placeholders. *)
Lemma unbindTexture_loop_reads b n : ∀ i r r' l,
  unbindTexture_loop b n i r = Ok (tt, r', l) →
  textures r' = textures r ∧
  CONTEXT_UID r' = CONTEXT_UID r ∧
  ∀ name, gl_bindTexture name ∈ l →
    ∃ (x : TexRef) h,
      _glTextures (textures r !!! x) !! CONTEXT_UID r = Some h ∧ name = texture h.
Proof.
  induction n as [|n IH]; intros i r r' l.
  - intros [= <- <-]. split_and!; [done..|]. by intros name Hin%elem_of_nil.
  - cbn [unbindTexture_loop]. rewrite bind_get.
    intros ([] & r1 & l1 & l2 & Hstep & Hrest & ->)%bind_Ok.
    apply IH in Hrest as (Ht & Hu & Hnames).
    assert (textures r1 = textures r ∧ CONTEXT_UID r1 = CONTEXT_UID r ∧
            ∀ name, gl_bindTexture name ∈ l1 →
              ∃ (x : TexRef) h,
                _glTextures (textures r !!! x) !! CONTEXT_UID r = Some h ∧
                name = texture h) as (Ht1 & Hu1 & Hn1).
    { destruct (decide (array_get (boundTextures r) i = Some b)) as [Hd|Hd].
      - rewrite bind_modify in Hstep.
        unfold bind at 1, gl_call in Hstep. rewrite bind_get in Hstep.
        destruct (gl (set_boundTextures _ r)); [|done].
        unfold call at 1 in Hstep. cbn [after_calls] in Hstep.
        apply after_calls_Ok in Hstep as (l3 & Hstep & ->).
        apply bind_Ok in Hstep as (name0 & r2 & l4 & l5 & Hname & Hcall & ->).
        unfold emptyTexture_name in Hname.
        destruct (array_get (emptyTextures _) i) as [e|]; [|done].
        destruct (_glTextures (textures _ !!! e) !! _) as [g|] eqn:Hg; [|done].
        injection Hname as <- <- <-. injection Hcall as <- <-.
        split_and!; [done..|]. intros name Hin.
        apply elem_of_cons in Hin as [Hin|Hin]; [done|].
        apply list_elem_of_singleton in Hin as [= ->]. by exists e, g.
      - injection Hstep as <- <-. split_and!; [done..|].
        by intros name Hin%elem_of_nil. }
    split_and!; [congruence..|]. intros name [Hin|Hin]%elem_of_app.
    + by apply Hn1.
    + destruct (Hnames name Hin) as (x & h & Hh & ->).
      exists x, h. by rewrite Ht1, Hu1 in Hh.
Qed.

Lemma unbindTexture_reads t r r' l :
  unbindTexture t r = Ok (tt, r', l) →
  textures r' = textures r ∧
  CONTEXT_UID r' = CONTEXT_UID r ∧
  ∀ name, gl_bindTexture name ∈ l →
    ∃ (x : TexRef) h,
      _glTextures (textures r !!! x) !! CONTEXT_UID r = Some h ∧ name = texture h.
Proof. unfold unbindTexture. rewrite bind_get. apply unbindTexture_loop_reads. Qed.

End restore_facts.

(** C3, amended: [handleContextLost] changes nothing in the renderer, and
    [handleContextRestored] runs [_initContext()] and then calls
    [removeAll()] on the texture manager.  The renderer that results keeps
    its [CONTEXT_UID].  Every texture slot of it holds a placeholder texture
    created by this initialisation and bound at the driver level by it (the
    calls of [_initContext_calls]), whose GPU-side texture, stored under the
    renderer's [CONTEXT_UID], is the one created by this initialisation.
    With a [removeAll()] that does what the specification says, no texture
    object that existed before the restore has an entry under the
    [CONTEXT_UID] any more, so the only GPU-side texture the renderer can
    look up is the new one: no [bindTexture] and no [unbindTexture] hands
    another one to [gl.bindTexture], and as long as the binds do not go to a
    manager this stays so. *)
Theorem handleContextRestored_reinitialises `{Collaborators} (r : WebGLRenderer)
    (g : WebGLRenderingContext) :
  gl r = Some g →
  (∀ r', removeAll r' = TextureManager_removeAll r') →
  let fresh := {| texture := Some (createdTextures g) |} in
  ∃ r2,
    handleContextLost r = Ok (tt, r, [event_preventDefault]) ∧
    handleContextRestored r =
      Ok (tt, r2,
          _initContext_calls g (nextObject r) ++ [textureManager_removeAll (nextObject r)]) ∧
    CONTEXT_UID r2 = CONTEXT_UID r ∧
    textureManager r2 = nextObject r ∧
    length (boundTextures r2) = MAX_TEXTURE_IMAGE_UNITS g ∧
    (∀ i, i < MAX_TEXTURE_IMAGE_UNITS g →
       ∃ e : TexRef,
         array_get (boundTextures r2) i = Some e ∧
         array_get (emptyTextures r2) i = Some e ∧
         nextObject r ≤ e ∧
         _glTextures (textures r2 !!! e) !! CONTEXT_UID r2 = Some fresh) ∧
    (∀ x : TexRef, x < nextObject r →
       textures r2 !!! x = without_glTexture (CONTEXT_UID r) (textures r !!! x) ∧
       _glTextures (textures r2 !!! x) !! CONTEXT_UID r2 = None) ∧
    only_handle fresh r2 ∧
    (∀ r', only_handle fresh r' →
       (∀ t location force i r'' l,
          bindTexture t location force r' = Ok (i, r'', l) →
          (∀ name, gl_bindTexture name ∈ l → name = texture fresh) ∧
          (Forall (λ c, is_manager_call c = false) l → only_handle fresh r'')) ∧
       (∀ t r'' l,
          unbindTexture t r' = Ok (tt, r'', l) →
          (∀ name, gl_bindTexture name ∈ l → name = texture fresh) ∧
          only_handle fresh r'')).
Proof.
  intros Hgl Hra fresh.
  destruct (_initContext_spec r g Hgl)
    as (r1 & Hinit & Huid & Htm & Hb & He & Hup & Hold & _).
  assert (∀ x : TexRef, Some x ∈ emptyTextures r1 →
            ∃ k, k < MAX_TEXTURE_IMAGE_UNITS g ∧ x = nextObject r + 2 + k) as Hph.
  { intros x. rewrite He. intros (y & [= ->] & Hy)%list_elem_of_fmap.
    apply elem_of_seq in Hy. exists (y - (nextObject r + 2)). lia. }
  exists (TextureManager_removeAll r1). split_and!.
  - done.
  - unfold handleContextRestored. unfold bind at 1. rewrite Hinit.
    rewrite bind_get, bind_call. unfold modify. simpl. by rewrite Htm, Hra.
  - done.
  - done.
  - change (boundTextures (TextureManager_removeAll r1)) with (boundTextures r1).
    by rewrite Hb, length_fmap, length_seq.
  - intros i Hi. exists (nextObject r + 2 + i).
    change (boundTextures (TextureManager_removeAll r1)) with (boundTextures r1).
    change (emptyTextures (TextureManager_removeAll r1)) with (emptyTextures r1).
    change (CONTEXT_UID (TextureManager_removeAll r1)) with (CONTEXT_UID r1).
    split_and!.
    + rewrite Hb. unfold array_get.
      by rewrite list_lookup_fmap, lookup_seq_lt.
    + rewrite He. unfold array_get.
      by rewrite list_lookup_fmap, lookup_seq_lt.
    + lia.
    + rewrite TextureManager_removeAll_lookup, decide_True.
      * by apply Hup.
      * rewrite He. apply list_elem_of_fmap. exists (nextObject r + 2 + i).
        split; [done|]. apply elem_of_seq. lia.
  - intros x Hx.
    assert (textures (TextureManager_removeAll r1) !!! x =
              without_glTexture (CONTEXT_UID r) (textures r !!! x)) as Hdrop.
    { rewrite TextureManager_removeAll_lookup, decide_False.
      - by rewrite Hold, Huid.
      - intros (k & _ & ->)%Hph. lia. }
    split; [done|]. rewrite Hdrop.
    change (CONTEXT_UID (TextureManager_removeAll r1)) with (CONTEXT_UID r1).
    rewrite Huid. apply lookup_delete_eq.
  - intros x h.
    change (CONTEXT_UID (TextureManager_removeAll r1)) with (CONTEXT_UID r1).
    rewrite TextureManager_removeAll_lookup. case_decide as Hin.
    + destruct (Hph x Hin) as (k & Hk & ->).
      destruct (Hup k Hk) as [_ Hk']. intros Hh.
      assert (Some h = Some fresh) as [= ->]; [|done].
      etrans; [symmetry; exact Hh|exact Hk'].
    + unfold without_glTexture. simpl. by rewrite lookup_delete_eq.
  - intros r' Hr'. split.
    + intros t location force i r'' l Hbind. split.
      * intros name Hin.
        destruct (bindTexture_reads _ _ _ _ _ _ _ _ Hbind Hin) as (x & h & Hh & ->).
        by rewrite (Hr' x h Hh).
      * intros Hl.
        destruct (bindTexture_direct_store _ _ _ _ _ _ _ Hbind Hl) as (b & Ht & Hu).
        apply (only_handle_store fresh (touch b r')); [done|done|].
        by apply only_handle_touch.
    + intros t r'' l Hunbind.
      destruct (unbindTexture_reads _ _ _ _ Hunbind) as (Ht & Hu & Hnames). split.
      * intros name Hin. destruct (Hnames name Hin) as (x & h & Hh & ->).
        by rewrite (Hr' x h Hh).
      * by apply (only_handle_store fresh r').
Qed.

Lemma handleContextRestored_reinitialises_witness :
  gl example_renderer = Some (example_context_after 11) ∧
  ∃ r2, handleContextRestored (H := dropping) example_renderer =
          Ok (tt, r2, _initContext_calls (example_context_after 11) 207
                        ++ [textureManager_removeAll 207]) ∧
        CONTEXT_UID r2 = 0 ∧
        _glTextures (textures r2 !!! (100 : TexRef)) !! CONTEXT_UID r2 = None ∧
        only_handle {| texture := Some 11 |} r2.
Proof.
  split; [vm_compute; reflexivity|].
  destruct (handleContextRestored_reinitialises (H := dropping) example_renderer
              (example_context_after 11))
    as (r2 & _ & Hr & Huid & _ & _ & _ & Hold & Honly & _);
    [vm_compute; reflexivity|intros r'; reflexivity|].
  exists r2. split; [exact Hr|]. split; [exact Huid|]. split; [|exact Honly].
  apply (Hold 100). vm_compute. lia.
Defined.

(** After a restore with such a [removeAll()], texture A, uploaded before
    the restore, has no GPU-side texture any more: [bindTexture] hands it to
    the texture manager that the initialisation created. *)
Example bindTexture_after_restore_goes_to_manager :
  ∃ r1 l r2,
    handleContextRestored (H := dropping) example_renderer = Ok (tt, r1, l) ∧
    bindTexture (H := dropping) (Some 100) None false r1 =
      Ok (2, r2, [textureManager_updateTexture 207 100 2]).
Proof. eexists _, _, _. split; vm_compute; reflexivity. Qed.

(** With a [removeAll()] that drops nothing, texture A, uploaded before the
    restore under the name 1, is bound after the restore under that name:
    the renderer looks it up under the same [CONTEXT_UID]. *)
Example bindTexture_after_restore_reads_old_entry :
  ∃ r1 l r2,
    handleContextRestored (H := inert) example_renderer = Ok (tt, r1, l) ∧
    bindTexture (H := inert) (Some 100) None false r1 =
      Ok (2, r2, [gl_activeTexture 2; gl_bindTexture (Some 1)]).
Proof. eexists _, _, _. split; vm_compute; reflexivity. Qed.

(** ** Slot exclusivity *)

Lemma array_set_exclusive (a : list (option TexRef)) s t :
  exclusive a → (∀ i, array_get a i ≠ Some t) →
  exclusive (array_set a s (Some t)).
Proof.
  intros Hex Hmiss i j u Hi Hj.
  destruct (decide (s = i)) as [<-|Hsi], (decide (s = j)) as [<-|Hsj]; [done|..].
  - rewrite array_get_set_eq in Hi. injection Hi as <-.
    rewrite array_get_set_ne in Hj by done. by destruct (Hmiss j).
  - rewrite array_get_set_eq in Hj. injection Hj as <-.
    rewrite array_get_set_ne in Hi by done. by destruct (Hmiss i).
  - rewrite array_get_set_ne in Hi, Hj by done. by eapply Hex.
Qed.

Lemma exclusive_fresh_placeholders first n : exclusive (Some <$> seq first n).
Proof.
  intros i j t Hi%array_get_lt_is_lookup Hj%array_get_lt_is_lookup.
  rewrite list_lookup_fmap in Hi, Hj.
  destruct (seq first n !! i) as [x|] eqn:Hx; [|done].
  destruct (seq first n !! j) as [y|] eqn:Hy; [|done].
  apply lookup_seq in Hx as [-> _]. apply lookup_seq in Hy as [-> _].
  simpl in Hi, Hj. simplify_eq. lia.
Qed.

Lemma inert_respects_exclusive : respects_exclusive inert.
Proof. by split. Qed.

Lemma uploading_respects_exclusive : respects_exclusive uploading.
Proof.
  split; [|done]. intros t location r Hex Hmiss. simpl. unfold upload.
  destruct (gl r); [|done]. simpl. by apply array_set_exclusive.
Qed.

Section exclusive_facts.
Context `{C : Collaborators}.
Hypothesis Hrespect : respects_exclusive C.

Lemma bindTexture_at_exclusive t s r i r1 l :
  exclusive (boundTextures r) →
  (∀ k, array_get (boundTextures r) k ≠ Some t) →
  bindTexture_at t s r = Ok (i, r1, l) →
  exclusive (boundTextures r1).
Proof using Hrespect.
  intros Hex Hmiss. destruct Hrespect as [Hupdate Hnew]. unfold bindTexture_at.
  destruct (_newTexture _) as [nt|].
  { destruct (newTextureManager r); [|done]. intros [= _ <- _]. by apply Hnew. }
  destruct (_glTextures _ !! _) as [g|].
  - case_decide.
    + by intros [= _ <- _].
    + destruct (gl r); [|done]. intros [= _ <- _]. simpl.
      by apply array_set_exclusive.
  - intros [= _ <- _]. by apply Hupdate.
Qed.

(** One call without [forceLocation] keeps the table exclusive. *)
Lemma bindTexture_exclusive t location r i r1 l :
  exclusive (boundTextures r) →
  bindTexture t location false r = Ok (i, r1, l) →
  exclusive (boundTextures r1).
Proof using Hrespect.
  intros Hex. unfold bindTexture.
  destruct (argument_texture t location r) as [t0|]; [|done]. cbv zeta.
  change (boundTextures (touch (baseOf r t0) r)) with (boundTextures r).
  destruct (indexOf _ _) as [k|] eqn:Hk.
  { by intros [= _ <- _]. }
  pose proof (proj1 (indexOf_None _ _) Hk) as Hmiss.
  destruct location as [s|].
  - by apply bindTexture_at_exclusive.
  - case_decide; [done|]. by apply bindTexture_at_exclusive.
Qed.

Lemma bindTexture_seq_exclusive calls r slots r1 l :
  exclusive (boundTextures r) →
  bindTexture_seq calls r = Ok (slots, r1, l) →
  exclusive (boundTextures r1).
Proof using Hrespect.
  revert r slots l. induction calls as [|[t location] calls IH]; intros r slots l Hex.
  - by intros [= _ <- _].
  - cbn [bindTexture_seq].
    intros (i & r' & l1 & l2 & Hb & Hrest & _)%bind_Ok.
    apply bind_Ok in Hrest as (slots' & r2 & l3 & l4 & Hseq & Hret & _).
    injection Hret as _ <- _.
    eapply IH; [|done]. by eapply bindTexture_exclusive.
Qed.

Lemma _initContext_exclusive r r0 l0 :
  _initContext r = Ok (tt, r0, l0) → exclusive (boundTextures r0).
Proof.
  destruct (gl r) as [g|] eqn:Hgl.
  - destruct (_initContext_spec r g Hgl) as (r1 & Hinit & _ & _ & Hb & _).
    rewrite Hinit. intros [= <- _]. rewrite Hb. apply exclusive_fresh_placeholders.
  - unfold _initContext. by rewrite bind_get, Hgl.
Qed.

End exclusive_facts.

(** C6: starting from the slot table that [_initContext] leaves, after any
    run of [bindTexture] calls without [forceLocation] no two slots hold the
    same texture.  The texture managers take part in the binds of textures
    that are not uploaded yet; the theorem holds for all managers that, handed
    a texture no slot holds, leave the table exclusive. *)
Theorem bindTexture_slot_exclusivity `{C : Collaborators} (r r0 : WebGLRenderer)
    (l0 : list Call) (calls : list (option TexRef * option nat))
    (slots : list nat) (r' : WebGLRenderer) (l : list Call) :
  respects_exclusive C →
  _initContext r = Ok (tt, r0, l0) →
  bindTexture_seq calls r0 = Ok (slots, r', l) →
  exclusive (boundTextures r0) ∧ exclusive (boundTextures r').
Proof.
  intros Hrespect Hinit Hseq.
  pose proof (_initContext_exclusive r r0 l0 Hinit) as Hex.
  split; [done|]. by eapply bindTexture_seq_exclusive.
Qed.

Lemma bindTexture_slot_exclusivity_witness :
  respects_exclusive uploading ∧
  _initContext (H := uploading) example_renderer =
    Ok (tt, reinitialised, calls_of (_initContext (H := uploading) example_renderer)) ∧
  bindTexture_seq (H := uploading) example_calls reinitialised =
    Ok ([2; 1; 1; 0; 0],
        renderer_of (bindTexture_seq (H := uploading) example_calls reinitialised),
        calls_of (bindTexture_seq (H := uploading) example_calls reinitialised)) ∧
  exclusive (boundTextures
               (renderer_of (bindTexture_seq (H := uploading) example_calls reinitialised))).
Proof.
  split; [exact uploading_respects_exclusive|].
  split; [vm_compute; reflexivity|].
  split; [vm_compute; reflexivity|].
  refine (proj2 (bindTexture_slot_exclusivity (C := uploading) example_renderer reinitialised
            (calls_of (_initContext (H := uploading) example_renderer)) example_calls
            [2; 1; 1; 0; 0]
            (renderer_of (bindTexture_seq (H := uploading) example_calls reinitialised))
            (calls_of (bindTexture_seq (H := uploading) example_calls reinitialised))
            uploading_respects_exclusive _ _)).
  - vm_compute; reflexivity.
  - vm_compute; reflexivity.
Defined.

(** ** [unbindTexture] *)

Lemma unbind_calls_S r b i n :
  unbind_calls r b i (S n) =
    (if decide (array_get (boundTextures r) i = Some b)
     then [gl_activeTexture i; gl_bindTexture (placeholder_glTexture r i ≫= texture)]
     else []) ++ unbind_calls r b (S i) n.
Proof. done. Qed.

Lemma unbind_calls_frame r T b i n :
  (∀ k, i ≤ k → array_get T k = array_get (boundTextures r) k) →
  unbind_calls (set_boundTextures T r) b i n = unbind_calls r b i n.
Proof.
  revert i. induction n as [|n IH]; intros i HT; [done|].
  rewrite !unbind_calls_S. rewrite IH by (intros k Hk; apply HT; lia).
  change (boundTextures (set_boundTextures T r)) with T.
  rewrite HT by lia. done.
Qed.

(** The body of the loop of [unbindTexture] for a slot that holds the
    texture. *)
Lemma unbindTexture_slot r ctx i g :
  gl r = Some ctx →
  placeholder_glTexture r i = Some g →
  (do _ <- modify (set_boundTextures
                     (array_set (boundTextures r) i (array_get (emptyTextures r) i)));
   do _ <- gl_call (gl_activeTexture i);
   do name <- emptyTexture_name i;
   call (gl_bindTexture name)) r =
    Ok (tt, set_boundTextures (array_set (boundTextures r) i (array_get (emptyTextures r) i)) r,
        [gl_activeTexture i; gl_bindTexture (texture g)]).
Proof.
  intros Hgl Hg.
  rewrite bind_modify. unfold bind at 1, gl_call. rewrite bind_get.
  replace (gl (set_boundTextures _ r)) with (gl r) by done. rewrite Hgl.
  unfold call at 1. cbn [after_calls].
  unfold bind at 1, emptyTexture_name.
  replace (emptyTextures (set_boundTextures _ r)) with (emptyTextures r) by done.
  replace (textures (set_boundTextures _ r)) with (textures r) by done.
  replace (CONTEXT_UID (set_boundTextures _ r)) with (CONTEXT_UID r) by done.
  unfold placeholder_glTexture in Hg.
  destruct (array_get (emptyTextures r) i) as [e|]; [|done]. simpl in Hg.
  rewrite Hg. done.
Qed.

Lemma unbindTexture_loop_spec b n : ∀ i r ctx,
  gl r = Some ctx →
  i + n = length (boundTextures r) →
  (∀ k, i ≤ k → array_get (boundTextures r) k = Some b →
        is_Some (placeholder_glTexture r k)) →
  ∃ T',
    unbindTexture_loop b n i r = Ok (tt, set_boundTextures T' r, unbind_calls r b i n) ∧
    length T' = length (boundTextures r) ∧
    (∀ k, k < i → array_get T' k = array_get (boundTextures r) k) ∧
    (∀ k, i ≤ k → array_get (boundTextures r) k = Some b →
          array_get T' k = array_get (emptyTextures r) k) ∧
    (∀ k, i ≤ k → array_get (boundTextures r) k ≠ Some b →
          array_get T' k = array_get (boundTextures r) k).
Proof.
  induction n as [|n IH]; intros i r ctx Hgl Hlen Hph.
  - exists (boundTextures r). split_and!; try done.
    + simpl. unfold ret. by destruct r.
    + intros k Hk Hkb%array_get_Some_lt. lia.
  - cbn [unbindTexture_loop]. rewrite bind_get, unbind_calls_S.
    destruct (decide (array_get (boundTextures r) i = Some b)) as [Hi|Hi].
    + destruct (Hph i) as [g Hg]; [lia|done|].
      pose proof (unbindTexture_slot r ctx i g Hgl Hg) as Hslot.
      set (T1 := array_set (boundTextures r) i (array_get (emptyTextures r) i)) in *.
      assert (length T1 = length (boundTextures r)) as Hlen1.
      { unfold T1. rewrite length_array_set. lia. }
      destruct (IH (S i) (set_boundTextures T1 r) ctx) as (T' & Hloop & HlenT & Hlt & Hb & Hnb).
      * done.
      * simpl. lia.
      * intros k Hk. simpl. unfold T1. rewrite array_get_set_ne by lia. apply Hph. lia.
      * exists T'. split_and!.
        -- unfold bind at 1. rewrite Hslot, Hloop. cbn [after_calls].
           rewrite unbind_calls_frame.
           ++ rewrite Hg. done.
           ++ intros k Hk. unfold T1. by rewrite array_get_set_ne by lia.
        -- by rewrite HlenT.
        -- intros k Hk. rewrite Hlt by lia. simpl. unfold T1.
           by rewrite array_get_set_ne by lia.
        -- intros k Hk Hkb. destruct (decide (k = i)) as [->|Hne].
           ++ rewrite Hlt by lia. simpl. unfold T1. by rewrite array_get_set_eq.
           ++ rewrite Hb; [done|lia|]. simpl. unfold T1.
              by rewrite array_get_set_ne by lia.
        -- intros k Hk Hkb. destruct (decide (k = i)) as [->|Hne]; [done|].
           rewrite Hnb; simpl; unfold T1; rewrite ?array_get_set_ne by lia; [done|lia|done].
    + destruct (IH (S i) r ctx) as (T' & Hloop & HlenT & Hlt & Hb & Hnb).
      * done.
      * lia.
      * intros k Hk. apply Hph. lia.
      * exists T'. split_and!.
        -- rewrite bind_ret. by rewrite Hloop.
        -- done.
        -- intros k Hk. apply Hlt. lia.
        -- intros k Hk Hkb. destruct (decide (k = i)) as [->|Hne]; [done|].
           apply Hb; [lia|done].
        -- intros k Hk Hkb. destruct (decide (k = i)) as [->|Hne].
           ++ apply Hlt. lia.
           ++ apply Hnb; [lia|done].
Qed.

(** C8, as stated, fails: unbinding the placeholder of slot 0 while slot 0
    holds it leaves slot 0 holding that very texture. *)
Lemma unbindTexture_keeps_own_placeholder :
  array_get (emptyTextures example_renderer) 0 = Some 203 ∧
  ∃ r' l,
    unbindTexture 203 example_renderer = Ok (tt, r', l) ∧
    array_get (boundTextures r') 0 = Some (baseOf example_renderer 203).
Proof.
  split; [vm_compute; reflexivity|].
  eexists _, _. split; vm_compute; reflexivity.
Qed.

(** C8, amended: [unbindTexture(t)] resets every slot that holds the
    resolved base texture of [t] to that slot's placeholder texture and
    rebinds the placeholder at the driver level, in slot order; the slots
    that did not hold it are unchanged, and so is the rest of the renderer.
    After the call a slot holds the texture only if the texture is that
    slot's own placeholder; in particular no slot holds it when it is not a
    placeholder.  (The call needs [gl] and, for each slot it resets, the
    slot's placeholder with its GPU-side texture.) *)
Theorem unbindTexture_resets_slots (r : WebGLRenderer) (t : TexRef)
    (ctx : WebGLRenderingContext) :
  gl r = Some ctx →
  (∀ i, array_get (boundTextures r) i = Some (baseOf r t) →
        is_Some (placeholder_glTexture r i)) →
  ∃ T',
    unbindTexture t r =
      Ok (tt, set_boundTextures T' r,
          unbind_calls r (baseOf r t) 0 (length (boundTextures r))) ∧
    length T' = length (boundTextures r) ∧
    (∀ i, array_get (boundTextures r) i = Some (baseOf r t) →
          array_get T' i = array_get (emptyTextures r) i) ∧
    (∀ i, array_get (boundTextures r) i ≠ Some (baseOf r t) →
          array_get T' i = array_get (boundTextures r) i) ∧
    (∀ i, array_get T' i = Some (baseOf r t) →
          array_get (boundTextures r) i = Some (baseOf r t) ∧
          array_get (emptyTextures r) i = Some (baseOf r t)) ∧
    ((∀ i, array_get (emptyTextures r) i ≠ Some (baseOf r t)) →
     ∀ i, array_get T' i ≠ Some (baseOf r t)).
Proof.
  intros Hgl Hph.
  destruct (unbindTexture_loop_spec (baseOf r t) (length (boundTextures r)) 0 r ctx)
    as (T' & Hloop & Hlen & _ & Hb & Hnb); [done|done|intros k _; apply Hph|].
  assert (∀ i, array_get T' i = Some (baseOf r t) →
               array_get (boundTextures r) i = Some (baseOf r t) ∧
               array_get (emptyTextures r) i = Some (baseOf r t)) as Hback.
  { intros i Hi.
    destruct (decide (array_get (boundTextures r) i = Some (baseOf r t))) as [Hh|Hh].
    - split; [done|]. rewrite <-(Hb i); [done|lia|done].
    - rewrite Hnb in Hi; [done|lia|done]. }
  exists T'. split_and!.
  - unfold unbindTexture. by rewrite bind_get.
  - done.
  - intros i. apply Hb. lia.
  - intros i. apply Hnb. lia.
  - done.
  - intros Hnot i Hi. apply Hback in Hi as [_ Hi]. by eapply Hnot.
Qed.

Lemma unbindTexture_resets_slots_witness :
  gl bound_A = Some (example_context_after 11) ∧
  ∃ T', unbindTexture 104 bound_A =
          Ok (tt, set_boundTextures T' bound_A,
              unbind_calls bound_A (baseOf bound_A 104) 0 (length (boundTextures bound_A))) ∧
        ∀ i, array_get T' i ≠ Some (baseOf bound_A 104).
Proof.
  split; [vm_compute; reflexivity|].
  destruct (unbindTexture_resets_slots bound_A 104 (example_context_after 11))
    as (T' & Hu & _ & _ & _ & _ & Hnone).
  - vm_compute; reflexivity.
  - intros i Hi.
    assert (i = 2) as ->.
    { destruct i as [|[|[|[|i]]]]; vm_compute in Hi; congruence. }
    vm_compute. eauto.
  - exists T'. split; [exact Hu|]. apply Hnone.
    intros i. destruct i as [|[|[|[|i]]]]; vm_compute; congruence.
Defined.

(** A slot beyond the texture units has no placeholder: after
    [bindTexture(A, 6)] the table has grown to seven entries, and
    [unbindTexture(A)] raises when it reaches slot 6. *)
Example unbindTexture_without_placeholder :
  ∃ r1 l,
    bindTexture (H := inert) (Some 100) (Some 6) false example_renderer = Ok (6, r1, l) ∧
    length (boundTextures r1) = 7 ∧
    unbindTexture 100 r1 = TypeError.
Proof. eexists _, _. split_and!; vm_compute; reflexivity. Qed.

(** * Further properties *)

(** ** [_initContext]: the fields it leaves alone *)

Lemma same_outside_slots_refl r : same_outside_slots r r.
Proof. by repeat split. Qed.

Lemma same_outside_slots_trans r1 r2 r3 :
  same_outside_slots r1 r2 → same_outside_slots r2 r3 → same_outside_slots r1 r3.
Proof.
  unfold same_outside_slots. intros H12 H23. destruct_and!.
  split_and!; congruence.
Qed.

Section init_frame.
Context `{Collaborators}.

(** One pass of the loop of [_initContext]. *)
Lemma _initContext_loop_step tempObj eg first n i r :
  filling first tempObj eg i (S n) r →
  ∃ rd,
    _initContext_loop tempObj eg (S n) i r =
      after_calls [gl_activeTexture i; gl_bindTexture (texture eg)]
        (_initContext_loop tempObj eg n (S i) rd) ∧
    filling first tempObj eg (S i) n rd ∧
    same_outside_slots r rd ∧
    (∀ x : TexRef, x < first → textures rd !!! x = textures r !!! x).
Proof.
  intros ([ctx Hgl] & Hnext & Htemp & Hbound & Hempty & Hup).
  cbn [_initContext_loop].
  rewrite bind_get, bind_new_object, !bind_modify.
  set (e := nextObject r).
  set (obj := with_glTexture (CONTEXT_UID r) eg new_BaseTexture).
  set (rc := set_emptyTextures _ _).
  assert (boundTextures rc =
            (Some <$> seq first i) ++ Some tempObj :: replicate n None) as Hbc.
  { unfold rc. simpl. rewrite Hbound. simpl.
    rewrite <-(array_set_middle (Some <$> seq first i) (replicate n None) None (Some tempObj)).
    by rewrite length_fmap, length_seq. }
  assert (emptyTextures rc =
            (Some <$> seq first i) ++ Some e :: replicate n None) as Hec.
  { unfold rc. simpl. rewrite Hempty. simpl.
    rewrite <-(array_set_middle (Some <$> seq first i) (replicate n None) None (Some e)).
    by rewrite length_fmap, length_seq. }
  assert (textures rc !!! (e : TexRef) = obj) as Hobj.
  { unfold rc. simpl. by rewrite lookup_total_insert_eq. }
  assert (bindTexture None (Some i) false rc =
            Ok (i, set_boundTextures (array_set (boundTextures rc) i (Some e)) (touch e rc),
                [gl_activeTexture i; gl_bindTexture (texture eg)])) as Hb.
  { apply _initContext_bind_placeholder with ctx.
    - done.
    - rewrite Hec.
      replace i with (length (Some <$> seq first i)) at 2
        by (by rewrite length_fmap, length_seq).
      unfold array_get. by rewrite list_lookup_middle.
    - done.
    - intros k. rewrite Hbc.
      destruct (decide (k = i)) as [->|Hne].
      + replace i with (length (Some <$> seq first i)) at 2
          by (by rewrite length_fmap, length_seq).
        unfold array_get. rewrite list_lookup_middle by done. simpl.
        intros [= ->]. unfold e in Htemp. lia.
      + change (Some tempObj :: replicate n None)
          with (replicate 1 (Some tempObj) ++ replicate n None).
        intros Hk. apply array_get_lt_is_lookup in Hk.
        apply lookup_app_Some in Hk as [Hk|[Hlen Hk]].
        * rewrite list_lookup_fmap in Hk.
          destruct (seq first i !! k) as [x|] eqn:Hx; [|done].
          apply lookup_seq in Hx as [-> Hlt]. injection Hk as Hk.
          unfold e in Hk. lia.
        * rewrite length_fmap, length_seq in Hlen, Hk.
          destruct (k - i) as [|d] eqn:Hd; [lia|]. simpl in Hk.
          by apply lookup_replicate in Hk as [? _]. }
  set (rd := set_boundTextures _ _) in Hb.
  exists rd. split_and!.
  - unfold bind at 1. by rewrite Hb.
  - split_and!.
    + by exists ctx.
    + unfold rd. simpl. lia.
    + done.
    + change (boundTextures rd) with (array_set (boundTextures rc) i (Some e)).
      rewrite Hbc.
      replace i with (length (Some <$> seq first i)) at 2
        by (by rewrite length_fmap, length_seq).
      rewrite array_set_middle, seq_S, fmap_app. simpl.
      rewrite <-app_assoc. simpl. do 3 f_equal. unfold e. lia.
    + change (emptyTextures rd) with (emptyTextures rc). rewrite Hec.
      rewrite seq_S, fmap_app. simpl. rewrite <-app_assoc. simpl.
      do 3 f_equal. unfold e. lia.
    + intros k Hk. unfold is_placeholder.
      change (CONTEXT_UID rd) with (CONTEXT_UID r).
      change (textures rd) with (textures (touch e rc)).
      rewrite touch_baseTexture, touch_newTexture, touch_glTextures.
      destruct (decide (k = i)) as [->|Hne].
      * replace (first + i) with e by (unfold e; lia).
        change (textures rc) with (<[e := obj]> (textures r)).
        rewrite lookup_total_insert_eq.
        split_and!; [done..|]. unfold obj. simpl. by rewrite lookup_insert_eq.
      * change (textures rc) with (<[e := obj]> (textures r)).
        rewrite lookup_total_insert_ne by (unfold e; lia).
        apply Hup. lia.
  - by repeat split.
  - intros x Hx.
    change (textures rd) with (textures (touch e rc)).
    rewrite touch_lookup. rewrite decide_False by (unfold e; lia).
    change (textures rc) with (<[e := obj]> (textures r)).
    by rewrite lookup_total_insert_ne by (unfold e; lia).
Qed.

Lemma _initContext_loop_frame tempObj eg first n : ∀ i r,
  filling first tempObj eg i n r →
  ∃ r',
    _initContext_loop tempObj eg n i r = Ok (tt, r', rebind_calls (texture eg) i n) ∧
    filling first tempObj eg (i + n) 0 r' ∧
    same_outside_slots r r' ∧
    (∀ x : TexRef, x < first → textures r' !!! x = textures r !!! x).
Proof.
  induction n as [|n IH]; intros i r Hfill.
  - exists r. rewrite Nat.add_0_r. split_and!; [done..|apply same_outside_slots_refl|done].
  - destruct (_initContext_loop_step _ _ _ _ _ _ Hfill) as (rd & Hstep & Hfill' & Hsame & Hold).
    destruct (IH (S i) rd Hfill') as (r' & Hloop & Hfill'' & Hsame' & Hold').
    exists r'. split_and!.
    + rewrite Hstep, Hloop. by rewrite rebind_calls_S.
    + by replace (i + S n) with (S i + n) by lia.
    + by eapply same_outside_slots_trans.
    + intros x Hx. by rewrite Hold', Hold.
Qed.

(** [_initContext()] in full: besides the slot tables it writes
    [textureManager], [textureGC] and the context's count of textures; every
    other field of the renderer is as before. *)
Lemma _initContext_frame r g :
  gl r = Some g →
  ∃ r1,
    _initContext r = Ok (tt, r1, _initContext_calls g (nextObject r)) ∧
    filling (nextObject r + 2) (S (nextObject r))
      {| texture := Some (createdTextures g) |} (MAX_TEXTURE_IMAGE_UNITS g) 0 r1 ∧
    gl r1 = Some {| isContextLost := isContextLost g;
                    WEBGL_lose_context := WEBGL_lose_context g;
                    MAX_TEXTURE_IMAGE_UNITS := MAX_TEXTURE_IMAGE_UNITS g;
                    createdTextures := S (createdTextures g) |} ∧
    CONTEXT_UID r1 = CONTEXT_UID r ∧
    _nextTextureLocation r1 = _nextTextureLocation r ∧
    textureGC_count r1 = TextureGarbageCollector_count ∧
    textureManager r1 = nextObject r ∧
    newTextureManager r1 = newTextureManager r ∧
    emptyRenderer r1 = emptyRenderer r ∧
    currentRenderer r1 = currentRenderer r ∧
    renderingToScreen r1 = renderingToScreen r ∧
    _lastObjectRendered r1 = _lastObjectRendered r ∧
    clearBeforeRender r1 = clearBeforeRender r.
Proof.
  intros Hgl. unfold _initContext. rewrite bind_get, Hgl.
  set (restore := if isContextLost g && WEBGL_lose_context g then _ else _).
  assert (∀ B (k : unit → M B) r0,
            bind restore k r0 =
              after_calls (if isContextLost g && WEBGL_lose_context g
                           then [gl_restoreContext] else []) (k tt r0)) as Hrestore.
  { intros B k r0. unfold restore. destruct (_ && _).
    - apply bind_call.
    - by rewrite bind_ret, after_calls_nil. }
  rewrite Hrestore. clear Hrestore restore.
  rewrite !bind_modify, bind_get, bind_call, bind_modify, !bind_call.
  set (ra := set_nextObject _ (set_textureManager _ _)).
  set (r2 := set_textureGC_count _ ra).
  unfold bind at 1. unfold GLTexture_new.
  replace (gl r2) with (Some g) by done.
  rewrite bind_new_object.
  set (eg := {| texture := Some (createdTextures g) |}).
  set (r3 := set_nextObject _ (set_textures _ (set_gl _ r2))).
  destruct (_initContext_loop_frame (S (nextObject r)) eg (nextObject r + 2)
              (MAX_TEXTURE_IMAGE_UNITS g) 0 r3)
    as (r' & Hloop & Hfill & Hsame & _).
  { split_and!; try done.
    - unfold r3. simpl. lia.
    - lia.
    - intros k Hk. lia. }
  unfold same_outside_slots in Hsame. destruct_and!.
  exists r'. split_and!; try done; try (etrans; [eassumption|done]).
  unfold bind at 1.
  change (nextObject (set_gl _ r2)) with (S (nextObject r)).
  rewrite Hloop. unfold _initContext_calls.
  by destruct (isContextLost g && WEBGL_lose_context g).
Qed.

End init_frame.

(** ** The slot table stays well-formed *)

Lemma array_ext {A} (a b : list (option A)) :
  length a = length b → (∀ i, array_get a i = array_get b i) → a = b.
Proof.
  intros Hlen Hget. apply list_eq. intros i. specialize (Hget i).
  unfold array_get in Hget.
  destruct (a !! i) as [x|] eqn:Ha, (b !! i) as [y|] eqn:Hb; simpl in Hget.
  - by subst.
  - apply lookup_lt_Some in Ha. apply lookup_ge_None in Hb. lia.
  - apply lookup_lt_Some in Hb. apply lookup_ge_None in Ha. lia.
  - done.
Qed.

Lemma same_texture_fields_refl r : same_texture_fields r r.
Proof. by split. Qed.

Lemma same_texture_fields_trans r1 r2 r3 :
  same_texture_fields r1 r2 → same_texture_fields r2 r3 → same_texture_fields r1 r3.
Proof.
  intros [Hu1 H1] [Hu2 H2]. split; [congruence|]. intros x.
  destruct (H1 x) as (? & ? & ?), (H2 x) as (? & ? & ?). split_and!; congruence.
Qed.

Lemma same_texture_fields_touch b r r' :
  CONTEXT_UID r' = CONTEXT_UID r → textures r' = textures (touch b r) →
  same_texture_fields r r'.
Proof.
  intros Hu Ht. split; [done|]. intros x. rewrite Ht.
  by rewrite touch_baseTexture, touch_newTexture, touch_glTextures.
Qed.

Lemma baseOf_same_fields r r' t : same_texture_fields r r' → baseOf r' t = baseOf r t.
Proof. intros [_ Hx]. unfold baseOf. by destruct (Hx t) as (-> & _). Qed.

Lemma uploaded_in_same_fields r r' b :
  same_texture_fields r r' → uploaded_in r b → uploaded_in r' b.
Proof.
  intros [Hu Hx] [Hn Hg]. destruct (Hx b) as (_ & Hn' & Hg').
  split; [congruence|]. by rewrite Hg', Hu.
Qed.

Lemma is_placeholder_same_fields r r' g e :
  same_texture_fields r r' → is_placeholder r g e → is_placeholder r' g e.
Proof.
  intros [Hu Hx] (Hb & Hn & Hg). destruct (Hx e) as (Hb' & Hn' & Hg').
  split_and!; [congruence..|]. by rewrite Hg', Hu.
Qed.

(** A renderer that differs from a well-formed one in the bound-texture table
    and in [touched] fields only is well-formed if its table is. *)
Lemma slots_ok_update r r' :
  slots_ok r →
  gl r' = gl r →
  emptyTextures r' = emptyTextures r →
  same_texture_fields r r' →
  length (boundTextures r') = length (boundTextures r) →
  no_holes (boundTextures r') →
  exclusive (boundTextures r') →
  own_slot (boundTextures r') (emptyTextures r) →
  slots_ok r'.
Proof.
  intros (Hgl & Hpos & Hlen & Hph & Hexe & _ & _ & _) Hgl' He' Hsame Hlen' Hnh Hex Hown.
  unfold slots_ok. rewrite Hgl', He', Hlen'. split_and!; try done.
  intros i Hi. destruct (Hph i Hi) as (e & g & He & Hp).
  exists e, g. split; [done|]. by eapply is_placeholder_same_fields.
Qed.

Lemma array_set_no_holes {A} (a : list (option A)) s v :
  no_holes a → s < length a → no_holes (array_set a s (Some v)).
Proof.
  intros Hnh Hs i Hi. rewrite length_array_set in Hi.
  destruct (decide (s = i)) as [<-|Hne].
  - rewrite array_get_set_eq. eauto.
  - rewrite array_get_set_ne by done. apply Hnh. lia.
Qed.

Section slot_facts.
Context `{Collaborators}.

(** An unforced bind of an uploaded texture on a renderer with a context
    and at least one slot: either the texture is resident and the table
    stays, or no slot held it and one slot now does; nothing else changes
    but [touched] and the round-robin counter. *)
Lemma bindTexture_uploaded_cases r t location t0 ctx :
  argument_texture t location r = Some t0 →
  uploaded_in r (baseOf r t0) →
  gl r = Some ctx →
  0 < length (boundTextures r) →
  ∃ i r' l,
    bindTexture t location false r = Ok (i, r', l) ∧
    gl r' = gl r ∧
    emptyTextures r' = emptyTextures r ∧
    CONTEXT_UID r' = CONTEXT_UID r ∧
    textures r' = textures (touch (baseOf r t0) r) ∧
    ((l = [] ∧ boundTextures r' = boundTextures r ∧
      array_get (boundTextures r) i = Some (baseOf r t0)) ∨
     ((∀ k, array_get (boundTextures r) k ≠ Some (baseOf r t0)) ∧
      driver_binds l = 1 ∧
      boundTextures r' = array_set (boundTextures r) i (Some (baseOf r t0)) ∧
      i = match location with
          | Some s => s
          | None => round_robin (length (boundTextures r)) (_nextTextureLocation r) 1
          end)).
Proof.
  intros Harg [Hnew [g Hg]] Hgl Hn.
  destruct (indexOf (baseOf r t0) (boundTextures r)) as [i|] eqn:Hi.
  - exists i, (touch (baseOf r t0) r), [].
    rewrite (bindTexture_hit _ _ _ _ _ Harg Hi).
    split_and!; try done. left. split_and!; try done.
    by apply indexOf_Some in Hi as [? _].
  - pose proof (proj1 (indexOf_None _ _) Hi) as Hmiss.
    unfold bindTexture. rewrite Harg. cbv zeta.
    change (boundTextures (touch (baseOf r t0) r)) with (boundTextures r).
    rewrite Hi. destruct location as [s|].
    + rewrite (bindTexture_at_uploaded _ _ _ g ctx);
        [|by rewrite touch_newTexture|by rewrite touch_glTextures|done|apply Hmiss].
      eexists _, _, _. split; [done|]. split_and!; try done.
      right. split_and!; done.
    + rewrite decide_False by lia.
      rewrite (bindTexture_at_uploaded _ _ _ g ctx); [|..|done|apply Hmiss].
      * eexists _, _, _. split; [done|]. split_and!; try done.
        right. split_and!; try done.
        unfold round_robin. by rewrite Nat.add_1_r.
      * change (_newTexture (textures (touch (baseOf r t0) r) !!! baseOf r t0) = None).
        by rewrite touch_newTexture.
      * change (_glTextures (textures (touch (baseOf r t0) r) !!! baseOf r t0)
                  !! CONTEXT_UID r = Some g).
        by rewrite touch_glTextures.
Qed.

End slot_facts.


Section slot_calls.
Context `{Collaborators}.

Lemma bindTexture_keeps_slots_ok r t location t0 :
  slots_ok r →
  argument_texture t location r = Some t0 →
  uploaded_in r (baseOf r t0) →
  (∀ s, location = Some s → s < length (boundTextures r)) →
  (∀ i, array_get (emptyTextures r) i = Some (baseOf r t0) →
        location = Some i ∧ t = None) →
  ∃ i r' l,
    bindTexture t location false r = Ok (i, r', l) ∧
    slots_ok r' ∧
    emptyTextures r' = emptyTextures r ∧
    length (boundTextures r') = length (boundTextures r) ∧
    same_texture_fields r r' ∧
    i < length (boundTextures r) ∧
    array_get (boundTextures r') i = Some (baseOf r t0) ∧
    driver_binds l ≤ 1.
Proof.
  intros Hok Harg Hup Hloc Hph.
  pose proof Hok as ([ctx Hgl] & Hpos & Hlen & Hphs & Hexe & Hnh & Hex & Hown).
  destruct (bindTexture_uploaded_cases r t location t0 ctx Harg Hup Hgl Hpos)
    as (i & r' & l & Hb & Hgl' & He' & Hu' & Ht' & Hcase).
  assert (same_texture_fields r r') as Hsame by (by eapply same_texture_fields_touch).
  exists i, r', l. split; [done|].
  destruct Hcase as [(-> & HT & Hi)|(Hmiss & Hl & HT & Hi)].
  - split_and!; try done.
    + apply (slots_ok_update r r'); try done; by rewrite HT.
    + by rewrite HT.
    + by apply array_get_Some_lt in Hi.
    + by rewrite HT.
    + unfold driver_binds. simpl. lia.
  - assert (i < length (boundTextures r)) as Hin.
    { rewrite Hi. destruct location as [s|]; [by apply Hloc|by apply round_robin_lt]. }
    assert (length (boundTextures r') = length (boundTextures r)) as Hlen'.
    { rewrite HT, length_array_set. lia. }
    split_and!; try done.
    + apply (slots_ok_update r r'); try done; rewrite HT.
      * by apply array_set_no_holes.
      * by apply array_set_exclusive.
      * intros k j e Hk Hj. destruct (decide (i = j)) as [<-|Hne].
        -- rewrite array_get_set_eq in Hj. injection Hj as <-.
           destruct (Hph k Hk) as [-> ->]. by rewrite Hi.
        -- rewrite array_get_set_ne in Hj by done. by eapply Hown.
    + rewrite HT. by rewrite array_get_set_eq.
    + lia.
Qed.

Lemma unbindTexture_keeps_slots_ok r t :
  slots_ok r →
  ∃ r' l,
    unbindTexture t r = Ok (tt, r', l) ∧
    slots_ok r' ∧
    emptyTextures r' = emptyTextures r ∧
    length (boundTextures r') = length (boundTextures r) ∧
    same_texture_fields r r' ∧
    ((∀ i, array_get (emptyTextures r) i ≠ Some (baseOf r t)) →
     ∀ i, array_get (boundTextures r') i ≠ Some (baseOf r t)).
Proof.
  intros Hok.
  pose proof Hok as ([ctx Hgl] & Hpos & Hlen & Hphs & Hexe & Hnh & Hex & Hown).
  destruct (unbindTexture_loop_spec (baseOf r t) (length (boundTextures r)) 0 r ctx)
    as (T' & Hloop & HlenT & _ & Hb & Hnb); [done|done|..].
  { intros k _ Hk. apply array_get_Some_lt in Hk.
    destruct (Hphs k Hk) as (e & g & He & _ & _ & Hg).
    unfold placeholder_glTexture. rewrite He. simpl. by rewrite Hg. }
  exists (set_boundTextures T' r), (unbind_calls r (baseOf r t) 0 (length (boundTextures r))).
  assert (∀ j, array_get T' j =
               if decide (array_get (boundTextures r) j = Some (baseOf r t))
               then array_get (emptyTextures r) j else array_get (boundTextures r) j) as HT.
  { intros j. case_decide; [apply Hb|apply Hnb]; (lia || done). }
  split_and!.
  - unfold unbindTexture. by rewrite bind_get.
  - apply (slots_ok_update r); try done.
    + intros j Hj. simpl in Hj. rewrite HlenT in Hj. simpl. rewrite HT.
      case_decide; [|by apply Hnh].
      destruct (Hphs j Hj) as (e & g & -> & _). eauto.
    + intros i j x. simpl. rewrite !HT. intros Hi Hj.
      repeat case_decide;
        first [by eapply Hexe|by eapply Hown|by symmetry; eapply Hown|by eapply Hex].
    + intros i j e Hi. simpl. rewrite HT. intros Hj. case_decide.
      * by eapply Hexe.
      * by eapply Hown.
  - done.
  - done.
  - by split.
  - intros Hnot i. simpl. rewrite HT. case_decide; [apply Hnot|done].
Qed.

Lemma run_call_keeps_slots_ok r c :
  slots_ok r → within_slots r c →
  ∃ r' l,
    run_call c r = Ok (tt, r', l) ∧
    slots_ok r' ∧
    emptyTextures r' = emptyTextures r ∧
    length (boundTextures r') = length (boundTextures r) ∧
    same_texture_fields r r'.
Proof.
  intros Hok Hc. destruct c as [t location|i|t]; simpl in Hc.
  - destruct Hc as [[Hup Hnot] Hloc].
    destruct (bindTexture_keeps_slots_ok r (Some t) location t Hok eq_refl Hup Hloc)
      as (i & r' & l & Hb & Hok' & He & Hlen & Hsame & _).
    { intros i Hi. by destruct (Hnot i). }
    exists r', l. split_and!; try done.
    simpl. unfold bind. rewrite Hb. simpl. by rewrite app_nil_r.
  - pose proof Hok as (_ & _ & _ & Hphs & _).
    destruct (Hphs i Hc) as (e & g & He & Hbase & Hnew & Hg).
    assert (baseOf r e = e) as Hbe by (unfold baseOf; by rewrite Hbase).
    destruct (bindTexture_keeps_slots_ok r None (Some i) e Hok)
      as (i' & r' & l & Hb & Hok' & He' & Hlen & Hsame & _).
    + done.
    + rewrite Hbe. split; [done|]. by rewrite Hg.
    + by intros s [= <-].
    + rewrite Hbe. intros k Hk. split; [|done]. f_equal.
      destruct Hok as (_ & _ & _ & _ & Hexe & _). by eapply Hexe.
    + exists r', l. split_and!; try done.
      simpl. unfold bind. rewrite Hb. simpl. by rewrite app_nil_r.
  - destruct (unbindTexture_keeps_slots_ok r t Hok)
      as (r' & l & Hu & Hok' & He & Hlen & Hsame & _).
    by exists r', l.
Qed.

Lemma within_slots_stable r r' c :
  emptyTextures r' = emptyTextures r →
  length (boundTextures r') = length (boundTextures r) →
  same_texture_fields r r' →
  within_slots r c → within_slots r' c.
Proof.
  intros He Hlen Hsame. destruct c as [t location|i|t]; simpl; [|congruence|done].
  unfold user_texture. rewrite He, Hlen, (baseOf_same_fields r r' t Hsame).
  intros [[Hup Hnot] Hloc]. split_and!; try done.
  by eapply uploaded_in_same_fields.
Qed.

Lemma run_calls_keep_slots_ok cs : ∀ r,
  slots_ok r → Forall (within_slots r) cs →
  ∃ r' l,
    run_calls cs r = Ok (tt, r', l) ∧
    slots_ok r' ∧
    emptyTextures r' = emptyTextures r ∧
    length (boundTextures r') = length (boundTextures r) ∧
    same_texture_fields r r'.
Proof.
  induction cs as [|c cs IH]; intros r Hok Hcs.
  - exists r, []. by split_and!.
  - apply Forall_cons in Hcs as [Hc Hcs].
    destruct (run_call_keeps_slots_ok r c Hok Hc) as (r1 & l1 & Hrun & Hok1 & He1 & Hlen1 & Hs1).
    destruct (IH r1 Hok1) as (r' & l & Hruns & Hok' & He' & Hlen' & Hs').
    { eapply Forall_impl; [done|]. intros c'. by apply within_slots_stable. }
    exists r', (l1 ++ l). split_and!.
    + cbn [run_calls]. unfold bind. by rewrite Hrun, Hruns.
    + done.
    + congruence.
    + congruence.
    + by eapply same_texture_fields_trans.
Qed.

(** What [_initContext] leaves is a well-formed slot table in which every
    slot holds its own placeholder. *)
Lemma filling_slots_ok first tempObj eg n r :
  0 < n → filling first tempObj eg n 0 r →
  slots_ok r ∧ boundTextures r = emptyTextures r ∧ length (boundTextures r) = n.
Proof.
  intros Hn (Hgl & _ & _ & Hb & He & Hph).
  simpl in Hb, He. rewrite app_nil_r in Hb, He.
  assert (length (boundTextures r) = n) as Hlen by (by rewrite Hb, length_fmap, length_seq).
  assert (∀ i e, array_get (Some <$> seq first n) i = Some e → e = first + i ∧ i < n) as Hseq.
  { intros i e Hi%array_get_lt_is_lookup. rewrite list_lookup_fmap in Hi.
    destruct (seq first n !! i) as [x|] eqn:Hx; [|done].
    apply lookup_seq in Hx as [-> ?]. by injection Hi as <-. }
  split_and!; try done; [|by rewrite Hb, He].
  unfold slots_ok. rewrite He, Hb. split_and!; try done.
  - by rewrite length_fmap, length_seq.
  - rewrite length_fmap, length_seq. intros i Hi. exists (first + i), eg. split.
    + unfold array_get. by rewrite list_lookup_fmap, lookup_seq_lt.
    + by apply Hph.
  - apply exclusive_fresh_placeholders.
  - rewrite <-Hb. intros i Hi. rewrite Hlen in Hi. rewrite Hb.
    unfold array_get. rewrite list_lookup_fmap, lookup_seq_lt by done. eauto.
  - apply exclusive_fresh_placeholders.
  - intros i j e Hi Hj. apply Hseq in Hi as [-> _]. apply Hseq in Hj as [? _]. lia.
Qed.

End slot_calls.

(** ** Helpers for the further properties *)

Lemma unbindTexture_loop_not_resident b n : ∀ i r,
  (∀ k, array_get (boundTextures r) k ≠ Some b) →
  unbindTexture_loop b n i r = Ok (tt, r, []).
Proof.
  induction n as [|n IH]; intros i r Hmiss; [done|].
  cbn [unbindTexture_loop]. rewrite bind_get.
  rewrite decide_False by apply Hmiss. rewrite bind_ret. by apply IH.
Qed.

Lemma unbind_calls_none r b n : ∀ lo,
  (∀ k, lo ≤ k → array_get (boundTextures r) k ≠ Some b) →
  unbind_calls r b lo n = [].
Proof.
  induction n as [|n IH]; intros lo Hmiss; [done|].
  rewrite unbind_calls_S, decide_False by (apply Hmiss; lia).
  apply IH. intros k Hk. apply Hmiss. lia.
Qed.

Lemma unbind_calls_single r b i n : ∀ lo,
  lo ≤ i → i < lo + n →
  (∀ k, array_get (boundTextures r) k = Some b ↔ k = i) →
  unbind_calls r b lo n =
    [gl_activeTexture i; gl_bindTexture (placeholder_glTexture r i ≫= texture)].
Proof.
  induction n as [|n IH]; intros lo Hlo Hhi Honly; [lia|].
  rewrite unbind_calls_S. destruct (decide (lo = i)) as [->|Hne].
  - rewrite decide_True by (by apply Honly).
    rewrite unbind_calls_none; [done|].
    intros k Hk Hkb%Honly. lia.
  - rewrite decide_False by (intros Hk%Honly; lia).
    apply IH; [lia|lia|done].
Qed.

Section constructor_facts.
Context `{Collaborators}.

(** The constructor: it cannot raise, hands the module counter on
    incremented, and leaves the empty renderer current. *)
Lemma constructor_frame uid ctx r :
  ∃ r1,
    constructor_with uid ctx r = Ok (S uid, r1, _initContext_calls ctx (S (nextObject r))) ∧
    filling (nextObject r + 3) (S (S (nextObject r)))
      {| texture := Some (createdTextures ctx) |} (MAX_TEXTURE_IMAGE_UNITS ctx) 0 r1 ∧
    CONTEXT_UID r1 = uid ∧
    emptyRenderer r1 = nextObject r ∧
    currentRenderer r1 = Some (nextObject r) ∧
    _nextTextureLocation r1 = 0 ∧
    renderingToScreen r1 = true ∧
    textureManager r1 = S (nextObject r) ∧
    newTextureManager r1 = newTextureManager r ∧
    clearBeforeRender r1 = clearBeforeRender r ∧
    _lastObjectRendered r1 = _lastObjectRendered r.
Proof.
  unfold constructor_with. rewrite bind_get, !bind_modify.
  set (r0 := set_boundTextures [] _).
  destruct (_initContext_frame r0 ctx eq_refl)
    as (r1 & Hinit & Hfill & Hgl & Hu & Hn & Hc & Htm & Hntm & Her & Hcr & Hrs & Hl & Hcl).
  exists (set_nextTextureLocation 0 r1). split_and!; try done.
  - unfold bind at 1. rewrite Hinit, bind_modify. unfold ret. cbn [after_calls].
    by rewrite app_nil_r.
  - replace (nextObject r + 3) with (nextObject r0 + 2) by (simpl; lia).
    exact Hfill.
Qed.

End constructor_facts.

Lemma example_renderer_slots_ok : slots_ok example_renderer.
Proof.
  destruct (constructor_frame (H := inert) 0 example_context blank)
    as (r1 & Hc & Hfill & _).
  unfold example_renderer. rewrite Hc. simpl.
  by apply filling_slots_ok in Hfill as [? _]; [|vm_compute; lia].
Qed.

Lemma example_user_texture (t : TexRef) :
  t = 100 ∨ t = 101 ∨ t = 102 ∨ t = 104 → user_texture example_renderer t.
Proof.
  intros Ht.
  assert (baseOf example_renderer t = 100 ∨ baseOf example_renderer t = 101 ∨
          baseOf example_renderer t = 102) as Hb.
  { destruct Ht as [->|[->|[->| ->]]]; vm_compute; auto. }
  split; [split|].
  - destruct Hb as [->|[->| ->]]; vm_compute; reflexivity.
  - destruct Hb as [->|[->| ->]]; vm_compute; eauto.
  - intros i. destruct Hb as [->|[->| ->]];
      destruct i as [|[|[|[|i]]]]; vm_compute; congruence.
Qed.

(** ** Mixed runs of binds *)

Lemma indexOf_set_other (b : TexRef) a s (u : TexRef) i :
  indexOf b a = Some i → s ≠ i → u ≠ b →
  indexOf b (array_set a s (Some u)) = Some i.
Proof.
  intros [Hi Hmin]%indexOf_Some Hs Hu. apply indexOf_Some. split.
  - by rewrite array_get_set_ne.
  - intros k Hk. destruct (decide (s = k)) as [<-|Hne].
    + rewrite array_get_set_eq. congruence.
    + rewrite array_get_set_ne by done. by apply Hmin.
Qed.

Lemma indexOf_set_fresh (b : TexRef) a s :
  indexOf b a = None → indexOf b (array_set a s (Some b)) = Some s.
Proof.
  intros Hnone. pose proof (proj1 (indexOf_None _ _) Hnone) as Hmiss.
  apply indexOf_Some. split.
  - by rewrite array_get_set_eq.
  - intros k Hk. rewrite array_get_set_ne by lia. apply Hmiss.
Qed.

Lemma binds_for_cons r b (u : TexRef) (s : nat) (l : list Call) tr :
  binds_for r b ((u, s, l) :: tr) =
    (if decide (baseOf r u = b) then driver_binds l else 0) + binds_for r b tr.
Proof. done. Qed.

Section mixed_runs.
Context `{Collaborators}.

(** An unforced bind of an uploaded texture: a hit, which leaves the table
    alone, or a miss, which binds at the driver level and writes the slot
    returned and no other.  Texture objects change in [touched] only. *)
Lemma bindTexture_uploaded_frame r (u : TexRef) location s r1 l :
  uploaded_in r (baseOf r u) →
  bindTexture (Some u) location false r = Ok (s, r1, l) →
  same_texture_fields r r1 ∧
  ((l = [] ∧ boundTextures r1 = boundTextures r ∧
    indexOf (baseOf r u) (boundTextures r) = Some s) ∨
   (l ≠ [] ∧ driver_binds l = 1 ∧
    indexOf (baseOf r u) (boundTextures r) = None ∧
    boundTextures r1 = array_set (boundTextures r) s (Some (baseOf r u)))).
Proof.
  intros [Hn [g Hg]]. set (b := baseOf r u) in *.
  assert (∀ s' rs,
            textures rs = textures (touch b r) →
            CONTEXT_UID rs = CONTEXT_UID r →
            boundTextures rs = boundTextures r →
            indexOf b (boundTextures r) = None →
            bindTexture_at b s' rs = Ok (s, r1, l) →
            same_texture_fields r r1 ∧
            l ≠ [] ∧ driver_binds l = 1 ∧
            boundTextures r1 = array_set (boundTextures r) s (Some b)) as Hat.
  { intros s' rs Ht Hu Hbt Hmiss. unfold bindTexture_at.
    rewrite Ht, touch_newTexture, Hn, touch_glTextures, Hu, Hg, Hbt.
    rewrite decide_False by (by apply indexOf_None).
    destruct (gl rs); [|done]. intros [= <- <- <-]. split_and!.
    - by apply (same_texture_fields_touch b).
    - done.
    - done.
    - done. }
  unfold bindTexture. simpl. fold b.
  change (boundTextures (touch b r)) with (boundTextures r).
  destruct (indexOf b (boundTextures r)) as [k|] eqn:Hi.
  - intros [= <- <- <-]. split; [by apply (same_texture_fields_touch b)|].
    left. done.
  - destruct location as [s'|].
    + intros Hb. apply Hat in Hb as (? & ? & ? & ?); [|done..].
      split; [done|]. right. done.
    + case_decide; [done|]. intros Hb.
      apply Hat in Hb as (? & ? & ? & ?); [|done..].
      split; [done|]. right. done.
Qed.

(** While no other texture is bound to its slot, a resident texture stays in
    its slot, and every request for it is answered from the table. *)
Lemma bindTexture_trace_resident r0 (b : TexRef) i : ∀ calls r tr r1,
  same_texture_fields r0 r →
  indexOf b (boundTextures r) = Some i →
  others_uploaded r0 b calls →
  bindTexture_trace calls r = Ok (tr, r1) →
  keeps_slot r0 b i tr →
  served_from r0 b i tr ∧
  binds_for r0 b tr = 0 ∧
  indexOf b (boundTextures r1) = Some i ∧
  same_texture_fields r0 r1.
Proof.
  induction calls as [|[u location] calls IH]; intros r tr r1 Hsame Hi Hup Htr Hkeep.
  - simpl in Htr. injection Htr as <- <-. split_and!; [constructor|done..].
  - simpl in Htr.
    destruct (bindTexture (Some u) location false r) as [[[s ra] la]| |] eqn:Hb; [|done..].
    destruct (bindTexture_trace calls ra) as [[tr' rb]| |] eqn:Hrest; [|done..].
    injection Htr as <- <-.
    apply Forall_cons in Hup as [Hu Hup]. apply Forall_cons in Hkeep as [Hk Hkeep].
    simpl in Hu, Hk.
    pose proof (baseOf_same_fields _ _ u Hsame) as Hbase.
    destruct (decide (baseOf r0 u = b)) as [Heq|Hne].
    + rewrite (bindTexture_hit r (Some u) location u i eq_refl) in Hb
        by (by rewrite Hbase, Heq).
      injection Hb as <- <- <-.
      destruct (IH (touch (baseOf r u) r) tr' rb) as (Hs & Hn & Hi' & Hsame'); try done.
      { eapply same_texture_fields_trans; [done|].
        by apply (same_texture_fields_touch (baseOf r u)). }
      split_and!; try done.
      * apply Forall_cons. split; [done|done].
      * rewrite binds_for_cons, Hn. by case_decide.
    + destruct (bindTexture_uploaded_frame r u location s ra la) as [Hsame1 Hcase].
      { rewrite Hbase. eapply uploaded_in_same_fields; [done|]. by apply Hu. }
      { done. }
      assert (indexOf b (boundTextures ra) = Some i) as Hi'.
      { destruct Hcase as [(_ & -> & _)|(Hl & _ & _ & ->)]; [done|].
        apply indexOf_set_other; [done| |by rewrite Hbase].
        intros ->. by apply Hk. }
      destruct (IH ra tr' rb) as (Hs & Hn & Hi'' & Hsame'); try done.
      { by eapply same_texture_fields_trans. }
      split_and!; try done.
      * apply Forall_cons. split; [done|done].
      * rewrite binds_for_cons, Hn. by rewrite decide_False.
Qed.

(** The run call by call is the run of [bindTexture_seq]. *)
Lemma bindTexture_trace_seq : ∀ calls r tr r1,
  bindTexture_trace calls r = Ok (tr, r1) →
  bindTexture_seq ((λ c, (Some c.1, c.2)) <$> calls) r =
    Ok ((λ e, e.1.2) <$> tr, r1, concat ((λ e, e.2) <$> tr)).
Proof.
  induction calls as [|[u location] calls IH]; intros r tr r1 Htr.
  - simpl in Htr. by injection Htr as <- <-.
  - simpl in Htr.
    destruct (bindTexture (Some u) location false r) as [[[s ra] la]| |] eqn:Hb; [|done..].
    destruct (bindTexture_trace calls ra) as [[tr' rb]| |] eqn:Hrest; [|done..].
    injection Htr as <- <-.
    cbn [fmap list_fmap fst snd bindTexture_seq concat].
    unfold bind at 1. rewrite Hb. unfold bind at 1. rewrite (IH _ _ _ Hrest).
    unfold ret. cbn [after_calls]. by rewrite app_nil_r.
Qed.

End mixed_runs.

(** C1: a [bindTexture] call without [forceLocation] whose resolved base
    texture is held by some slot returns the first such slot, makes no call
    at all (no [gl.activeTexture], no [gl.bindTexture], no call to a
    manager) and leaves the bound-texture table as it was.  Consequently,
    repeating the request any number of times calls nothing, and in any run
    of calls without [forceLocation] for one texture, whatever the suggested
    slots and from whatever renderer, the driver bind is issued at most
    once.  The same holds when binds of other textures come in between: a
    bind of another uploaded texture writes the slot it returns and no
    other, so as long as no such bind goes to the slot of the texture, the
    texture stays in its slot, every request for it returns that slot
    without a call, and over the whole run, from its first request on, the
    driver bind is issued for it at most once. *)
Theorem bindTexture_resident_no_rebind `{Collaborators} (r : WebGLRenderer)
    (t : option TexRef) (location : option nat) (t0 : TexRef) (j : nat) :
  argument_texture t location r = Some t0 →
  array_get (boundTextures r) j = Some (baseOf r t0) →
  ∃ i r',
    bindTexture t location false r = Ok (i, r', []) ∧
    i ≤ j ∧
    array_get (boundTextures r) i = Some (baseOf r t0) ∧
    (∀ k, k < i → array_get (boundTextures r) k ≠ Some (baseOf r t0)) ∧
    boundTextures r' = boundTextures r ∧
    (∀ n, ∃ rn,
       bindTexture_seq (replicate n (t, location)) r = Ok (replicate n i, rn, []) ∧
       boundTextures rn = boundTextures r) ∧
    (∀ (u : TexRef) (locations : list (option nat)) r0 slots r1 l,
       bindTexture_seq ((λ loc, (Some u, loc)) <$> locations) r0 = Ok (slots, r1, l) →
       driver_binds l ≤ 1 ∧ driver_activations l ≤ 1) ∧
    (∀ (u : TexRef) loc s r1 l,
       uploaded_in r (baseOf r u) →
       baseOf r u ≠ baseOf r t0 →
       bindTexture (Some u) loc false r = Ok (s, r1, l) →
       ∀ k, k ≠ s → array_get (boundTextures r1) k = array_get (boundTextures r) k) ∧
    (∀ calls tr r1,
       others_uploaded r (baseOf r t0) calls →
       bindTexture_trace calls r = Ok (tr, r1) →
       keeps_slot r (baseOf r t0) i tr →
       served_from r (baseOf r t0) i tr ∧
       binds_for r (baseOf r t0) tr = 0 ∧
       array_get (boundTextures r1) i = Some (baseOf r t0) ∧
       bindTexture_seq ((λ c, (Some c.1, c.2)) <$> calls) r =
         Ok ((λ e, e.1.2) <$> tr, r1, concat ((λ e, e.2) <$> tr))) ∧
    (∀ (u : TexRef) loc r0 i0 ra la calls tr rb,
       uploaded_in r0 (baseOf r0 u) →
       bindTexture (Some u) loc false r0 = Ok (i0, ra, la) →
       others_uploaded r0 (baseOf r0 u) calls →
       bindTexture_trace calls ra = Ok (tr, rb) →
       keeps_slot r0 (baseOf r0 u) i0 tr →
       served_from r0 (baseOf r0 u) i0 tr ∧
       driver_binds la + binds_for r0 (baseOf r0 u) tr ≤ 1 ∧
       array_get (boundTextures rb) i0 = Some (baseOf r0 u)).
Proof.
  intros Harg Hj.
  destruct (indexOf_resident _ _ _ Hj) as (i & Hi & Hle).
  exists i, (touch (baseOf r t0) r).
  split; [by apply bindTexture_hit|]. split; [done|].
  pose proof (proj1 (indexOf_Some _ _ _) Hi) as [Hget Hmin].
  split; [done|]. split; [done|]. split; [done|]. split; [|split; [|split; [|split]]].
  - intros n. by apply bindTexture_seq_hit with t0.
  - intros u locations r0 slots r1 l. apply bindTexture_seq_same_binds.
  - intros u loc s r1 l Hup Hne Hb k Hk.
    destruct (bindTexture_uploaded_frame r u loc s r1 l Hup Hb)
      as [_ [(_ & -> & _)|(_ & _ & _ & ->)]]; [done|].
    by rewrite array_get_set_ne.
  - intros calls tr r1 Hup Htr Hkeep.
    destruct (bindTexture_trace_resident r (baseOf r t0) i calls r tr r1)
      as (Hs & Hn & Hi' & _); try done.
    split_and!; try done.
    + by apply indexOf_Some in Hi' as [? _].
    + by apply bindTexture_trace_seq.
  - intros u loc r0 i0 ra la calls tr rb Hup Hb Hothers Htr Hkeep.
    destruct (bindTexture_uploaded_frame r0 u loc i0 ra la Hup Hb) as [Hsame Hcase].
    assert (indexOf (baseOf r0 u) (boundTextures ra) = Some i0 ∧ driver_binds la ≤ 1)
      as [Hi0 Hla].
    { destruct Hcase as [(-> & -> & ?)|(_ & -> & Hmiss & ->)].
      - split; [done|]. unfold driver_binds. simpl. lia.
      - split; [by apply indexOf_set_fresh|lia]. }
    destruct (bindTexture_trace_resident r0 (baseOf r0 u) i0 calls ra tr rb)
      as (Hs & Hn & Hi' & _); try done.
    split_and!; [done|lia|].
    by apply indexOf_Some in Hi' as [? _].
Qed.

Lemma bindTexture_resident_no_rebind_witness :
  argument_texture (Some 104) (Some 0) bound_A = Some 104 ∧
  array_get (boundTextures bound_A) 2 = Some (baseOf bound_A 104) ∧
  (∃ i r', bindTexture (H := inert) (Some 104) (Some 0) false bound_A = Ok (i, r', []) ∧
           i ≤ 2) ∧
  ∃ ra la tr rb,
    bindTexture (H := inert) (Some 100) None false example_renderer = Ok (2, ra, la) ∧
    bindTexture_trace (H := inert)
      [(101, None); (102, None); (104, Some 3); (100, None)] ra = Ok (tr, rb) ∧
    (λ e, e.1.2) <$> tr = [1; 0; 2; 2] ∧
    served_from example_renderer (baseOf example_renderer 100) 2 tr ∧
    driver_binds la + binds_for example_renderer (baseOf example_renderer 100) tr ≤ 1 ∧
    array_get (boundTextures rb) 2 = Some (baseOf example_renderer 100).
Proof.
  split; [reflexivity|]. split; [vm_compute; reflexivity|].
  destruct (bindTexture_resident_no_rebind (H := inert) bound_A (Some 104) (Some 0) 104 2)
    as (i & r' & Hb & Hle & _ & _ & _ & _ & _ & _ & _ & Hmixed);
    [reflexivity|vm_compute; reflexivity|].
  split; [exists i, r'; exact (conj Hb Hle)|].
  eassert (bindTexture (H := inert) (Some 100) None false example_renderer =
             Ok (2, _, _)) as Hfirst by (vm_compute; reflexivity).
  match type of Hfirst with
  | _ = Ok (_, ?ra, _) =>
      eassert (bindTexture_trace (H := inert)
                 [(101, None); (102, None); (104, Some 3); (100, None)] ra =
               Ok (_, _)) as Htr by (vm_compute; reflexivity)
  end.
  edestruct (Hmixed 100 None example_renderer 2) as (Hs & Hcount & Hslot);
    [|exact Hfirst| |exact Htr| |].
  - apply (example_user_texture 100). auto.
  - apply Forall_cons. split; [intros _; apply (example_user_texture 101); auto|].
    apply Forall_cons. split; [intros _; apply (example_user_texture 102); auto|].
    apply Forall_cons. split; [intros _; apply (example_user_texture 104); auto|].
    apply Forall_cons. split; [intros _; apply (example_user_texture 100); auto|].
    constructor.
  - apply Forall_cons. split; [intros _ _ Heq; discriminate Heq|].
    apply Forall_cons. split; [intros _ _ Heq; discriminate Heq|].
    apply Forall_cons. split; [intros _ Hne; by destruct Hne|].
    apply Forall_cons. split; [intros _ Hne; by destruct Hne|].
    constructor.
  - eexists _, _, _, _.
    exact (conj Hfirst (conj Htr (conj eq_refl (conj Hs (conj Hcount Hslot))))).
Defined.

(** ** Initialisation and the slot table *)

(** X1: on a renderer that has a context with at least one texture unit,
    [_initContext()] does not raise; afterwards the bound-texture table is
    the table of placeholders, one slot per texture unit, well-formed, and
    the current renderer, the empty renderer, the round-robin counter,
    [CONTEXT_UID], [renderingToScreen] and [_lastObjectRendered] are what
    they were. *)
Theorem _initContext_slots_well_formed `{Collaborators} (r : WebGLRenderer)
    (g : WebGLRenderingContext) :
  gl r = Some g →
  0 < MAX_TEXTURE_IMAGE_UNITS g →
  ∃ r0,
    _initContext r = Ok (tt, r0, _initContext_calls g (nextObject r)) ∧
    slots_ok r0 ∧
    boundTextures r0 = emptyTextures r0 ∧
    length (boundTextures r0) = MAX_TEXTURE_IMAGE_UNITS g ∧
    currentRenderer r0 = currentRenderer r ∧
    emptyRenderer r0 = emptyRenderer r ∧
    _nextTextureLocation r0 = _nextTextureLocation r ∧
    CONTEXT_UID r0 = CONTEXT_UID r ∧
    renderingToScreen r0 = renderingToScreen r ∧
    _lastObjectRendered r0 = _lastObjectRendered r.
Proof.
  intros Hgl Hmax.
  destruct (_initContext_frame r g Hgl)
    as (r1 & Hinit & Hfill & _ & Hu & Hn & _ & _ & _ & Her & Hcr & Hrs & Hl & _).
  apply filling_slots_ok in Hfill as (Hok & Heq & Hlen); [|done].
  exists r1. by split_and!.
Qed.

Lemma _initContext_slots_well_formed_witness :
  gl example_renderer = Some (example_context_after 11) ∧
  0 < MAX_TEXTURE_IMAGE_UNITS (example_context_after 11) ∧
  ∃ r0, _initContext (H := inert) example_renderer =
          Ok (tt, r0, _initContext_calls (example_context_after 11) 207) ∧
        slots_ok r0 ∧ length (boundTextures r0) = 4.
Proof.
  split; [vm_compute; reflexivity|]. split; [vm_compute; lia|].
  destruct (_initContext_slots_well_formed (H := inert) example_renderer
              (example_context_after 11))
    as (r0 & Hinit & Hok & _ & Hlen & _); [vm_compute; reflexivity|vm_compute; lia|].
  exists r0. exact (conj Hinit (conj Hok Hlen)).
Defined.

(** X2: on a well-formed slot table, any run of [bindTexture] calls without
    [forceLocation] for uploaded textures of the application (a suggested
    slot being one of the slots), of [bindTexture(null, i)] calls for slots
    [i], and of [unbindTexture] calls returns without raising; the table
    stays well-formed (same length, no hole, no texture in two slots, a
    placeholder only in its own slot), the placeholders stay, and no field
    of a texture object other than [touched] changes. *)
Theorem slot_calls_keep_table_well_formed `{Collaborators} (r : WebGLRenderer)
    (cs : list SlotCall) :
  slots_ok r →
  Forall (within_slots r) cs →
  ∃ r' l,
    run_calls cs r = Ok (tt, r', l) ∧
    slots_ok r' ∧
    emptyTextures r' = emptyTextures r ∧
    length (boundTextures r') = length (boundTextures r) ∧
    same_texture_fields r r'.
Proof. intros Hok Hcs. by apply run_calls_keep_slots_ok. Qed.

Lemma slot_calls_keep_table_well_formed_witness :
  slots_ok example_renderer ∧
  ∃ r' l,
    run_calls (H := inert)
      [bind_texture 100 None; bind_texture 101 (Some 2); bind_placeholder 1;
       unbind_texture 104]
      example_renderer = Ok (tt, r', l) ∧
    slots_ok r'.
Proof.
  split; [exact example_renderer_slots_ok|].
  destruct (slot_calls_keep_table_well_formed (H := inert) example_renderer
              [bind_texture 100 None; bind_texture 101 (Some 2); bind_placeholder 1;
               unbind_texture 104])
    as (r' & l & Hrun & Hok & _).
  - exact example_renderer_slots_ok.
  - apply Forall_cons. split.
    { split; [apply example_user_texture; auto|]. intros s Hs. discriminate. }
    apply Forall_cons. split.
    { split; [apply example_user_texture; auto|]. intros s [= <-]. vm_compute. lia. }
    apply Forall_cons. split.
    { change (1 < length (boundTextures example_renderer)). vm_compute. lia. }
    apply Forall_cons. split; [exact I|]. constructor.
  - exists r', l. exact (conj Hrun Hok).
Defined.

(** X3: after [_initContext()], [bindTexture(null, i)] returns [i] for every
    texture unit [i] without any call and without changing the table (the
    placeholder is there already); for an [i] beyond the units it raises, and
    [bindTexture(null)] without a slot raises on every renderer, forced or
    not. *)
Theorem bindTexture_null_after_init `{Collaborators} (r r0 : WebGLRenderer)
    (g : WebGLRenderingContext) (l0 : list Call) :
  gl r = Some g →
  _initContext r = Ok (tt, r0, l0) →
  (∀ i, i < MAX_TEXTURE_IMAGE_UNITS g →
     ∃ r', bindTexture None (Some i) false r0 = Ok (i, r', []) ∧
           boundTextures r' = boundTextures r0) ∧
  (∀ i force, MAX_TEXTURE_IMAGE_UNITS g ≤ i →
     bindTexture None (Some i) force r0 = TypeError) ∧
  (∀ force r', bindTexture None None force r' = TypeError).
Proof.
  intros Hgl Hinit.
  destruct (_initContext_frame r g Hgl) as (r1 & Hinit' & Hfill & _).
  rewrite Hinit' in Hinit. injection Hinit as <- _.
  destruct Hfill as (_ & _ & _ & Hb & He & Hph).
  simpl in Hb, He. rewrite app_nil_r in Hb, He.
  split_and!.
  - intros i Hi. destruct (Hph i Hi) as (Hbase & _).
    set (e := nextObject r + 2 + i) in *.
    assert (array_get (emptyTextures r1) i = Some e) as Hei.
    { rewrite He. unfold array_get. by rewrite list_lookup_fmap, lookup_seq_lt. }
    assert (baseOf r1 e = e) as Hbe by (unfold baseOf; by rewrite Hbase).
    exists (touch e r1). split; [|done].
    assert (indexOf (baseOf r1 e) (boundTextures r1) = Some i) as Hidx.
    { rewrite Hbe. apply indexOf_Some. split; [by rewrite Hb, <-He|].
      intros k Hk. rewrite Hb. intros Hke%array_get_lt_is_lookup.
      rewrite list_lookup_fmap, lookup_seq_lt in Hke by lia.
      injection Hke as Hke. unfold e in Hke. lia. }
    pose proof (bindTexture_hit r1 None (Some i) e i Hei Hidx) as Hhit.
    by rewrite Hbe in Hhit.
  - intros i force Hi. unfold bindTexture.
    replace (argument_texture None (Some i) r1) with (@None TexRef); [done|].
    simpl. rewrite He. unfold array_get.
    by rewrite lookup_ge_None_2 by (rewrite length_fmap, length_seq; lia).
  - done.
Qed.

Lemma bindTexture_null_after_init_witness :
  gl example_renderer = Some (example_context_after 11) ∧
  _initContext (H := uploading) example_renderer =
    Ok (tt, reinitialised, calls_of (_initContext (H := uploading) example_renderer)) ∧
  bindTexture (H := uploading) None (Some 4) true reinitialised = TypeError.
Proof.
  split; [vm_compute; reflexivity|]. split; [vm_compute; reflexivity|].
  destruct (bindTexture_null_after_init (H := uploading) example_renderer reinitialised
              (example_context_after 11)
              (calls_of (_initContext (H := uploading) example_renderer)))
    as (_ & Hout & _); [vm_compute; reflexivity..|].
  apply Hout. vm_compute. lia.
Defined.

(** X4: a texture and its base texture are the same to [bindTexture] and
    [unbindTexture]: called with a texture whose [baseTexture] is [b] (which
    has none itself), they do what they do when called with [b]. *)
Theorem bindTexture_view_is_base `{Collaborators} (r : WebGLRenderer) (v b : TexRef) :
  baseTexture (textures r !!! v) = Some b →
  baseTexture (textures r !!! b) = None →
  (∀ location force,
     bindTexture (Some v) location force r = bindTexture (Some b) location force r) ∧
  unbindTexture v r = unbindTexture b r.
Proof.
  intros Hv Hb.
  assert (baseOf r v = b) as Hbv by (unfold baseOf; by rewrite Hv).
  assert (baseOf r b = b) as Hbb by (unfold baseOf; by rewrite Hb).
  split.
  - intros location force. unfold bindTexture. simpl. by rewrite Hbv, Hbb.
  - unfold unbindTexture. by rewrite !bind_get, Hbv, Hbb.
Qed.

Lemma bindTexture_view_is_base_witness :
  baseTexture (textures example_renderer !!! (104 : TexRef)) = Some 100 ∧
  baseTexture (textures example_renderer !!! (100 : TexRef)) = None ∧
  bindTexture (H := inert) (Some 104) None false example_renderer =
    bindTexture (H := inert) (Some 100) None false example_renderer.
Proof.
  split; [vm_compute; reflexivity|]. split; [vm_compute; reflexivity|].
  apply (bindTexture_view_is_base (H := inert) example_renderer 104 100);
    vm_compute; reflexivity.
Defined.

(** ** Binding and unbinding *)

(** [unbindTexture] on a renderer with a context, when every slot that holds
    the texture has its placeholder with a GPU-side texture. *)
Lemma unbindTexture_spec r t ctx :
  gl r = Some ctx →
  (∀ i, array_get (boundTextures r) i = Some (baseOf r t) →
        is_Some (placeholder_glTexture r i)) →
  ∃ T',
    unbindTexture t r =
      Ok (tt, set_boundTextures T' r,
          unbind_calls r (baseOf r t) 0 (length (boundTextures r))) ∧
    length T' = length (boundTextures r) ∧
    ∀ j, array_get T' j =
         if decide (array_get (boundTextures r) j = Some (baseOf r t))
         then array_get (emptyTextures r) j else array_get (boundTextures r) j.
Proof.
  intros Hgl Hph.
  destruct (unbindTexture_loop_spec (baseOf r t) (length (boundTextures r)) 0 r ctx)
    as (T' & Hloop & HlenT & _ & Hb & Hnb); [done|done|intros k _; apply Hph|].
  exists T'. split_and!.
  - unfold unbindTexture. by rewrite bind_get.
  - done.
  - intros j. case_decide; [apply Hb|apply Hnb]; (lia || done).
Qed.

(** X5: a [bindTexture] call without [forceLocation] that suggests slot [s]
    for an uploaded texture no slot holds binds it to [s] at the driver
    level and returns [s]: slot [s] then holds the texture, whatever it held
    before, every other slot is as before, and the round-robin counter and
    the placeholders are untouched.  A slot beyond the end of the table is
    taken as well: the table grows to [s + 1] entries, those between the old
    end and [s] being holes. *)
Theorem bindTexture_suggested_slot `{Collaborators} (r : WebGLRenderer) (t : TexRef)
    (s : nat) (g : GLTexture) (ctx : WebGLRenderingContext) :
  gl r = Some ctx →
  _newTexture (textures r !!! baseOf r t) = None →
  _glTextures (textures r !!! baseOf r t) !! CONTEXT_UID r = Some g →
  (∀ k, array_get (boundTextures r) k ≠ Some (baseOf r t)) →
  ∃ r',
    bindTexture (Some t) (Some s) false r =
      Ok (s, r', [gl_activeTexture s; gl_bindTexture (texture g)]) ∧
    array_get (boundTextures r') s = Some (baseOf r t) ∧
    (∀ j, j ≠ s → array_get (boundTextures r') j = array_get (boundTextures r) j) ∧
    length (boundTextures r') = length (boundTextures r) `max` S s ∧
    (∀ j, length (boundTextures r) ≤ j → j < s → (boundTextures r') !! j = Some None) ∧
    _nextTextureLocation r' = _nextTextureLocation r ∧
    emptyTextures r' = emptyTextures r.
Proof.
  intros Hgl Hnew Hg Hmiss.
  exists (set_boundTextures (array_set (boundTextures r) s (Some (baseOf r t)))
            (touch (baseOf r t) r)).
  split_and!; try done.
  - unfold bindTexture. simpl.
    change (boundTextures (touch (baseOf r t) r)) with (boundTextures r).
    rewrite (proj2 (indexOf_None _ _) Hmiss).
    rewrite (bindTexture_at_uploaded _ _ _ g ctx);
      [done|by rewrite touch_newTexture|by rewrite touch_glTextures|done|apply Hmiss].
  - simpl. by rewrite array_get_set_eq.
  - intros j Hj. simpl. by rewrite array_get_set_ne.
  - simpl. by rewrite length_array_set.
  - intros j Hlo Hhi. simpl. unfold array_set. rewrite decide_False by lia.
    rewrite lookup_app_r by lia.
    rewrite lookup_app_l by (rewrite length_replicate; lia).
    apply lookup_replicate_2. lia.
Qed.

Lemma bindTexture_suggested_slot_witness :
  gl example_renderer = Some (example_context_after 11) ∧
  ∃ r', bindTexture (H := inert) (Some 100) (Some 6) false example_renderer =
          Ok (6, r', [gl_activeTexture 6; gl_bindTexture (Some 1)]) ∧
        length (boundTextures r') = 7 ∧
        boundTextures r' !! 5 = Some None.
Proof.
  split; [vm_compute; reflexivity|].
  destruct (bindTexture_suggested_slot (H := inert) example_renderer 100 6
              {| texture := Some 1 |} (example_context_after 11))
    as (r' & Hb & _ & _ & Hlen & Hholes & _).
  - vm_compute; reflexivity.
  - vm_compute; reflexivity.
  - vm_compute; reflexivity.
  - apply indexOf_None. vm_compute. reflexivity.
  - exists r'. split; [exact Hb|]. split.
    + rewrite Hlen. vm_compute. reflexivity.
    + apply Hholes; vm_compute; lia.
Defined.

(** X6: binding an uploaded texture of the application that no slot holds
    and then unbinding it puts the placeholder of the slot it got back into
    that slot, with one driver rebind of that placeholder, and leaves all
    other slots as they were before the bind; if the slot held its
    placeholder before, the bound-texture table is exactly what it was. *)
Theorem bind_then_unbind_restores_table `{Collaborators} (r : WebGLRenderer)
    (t : TexRef) (location : option nat) :
  slots_ok r →
  user_texture r t →
  (∀ s, location = Some s → s < length (boundTextures r)) →
  (∀ k, array_get (boundTextures r) k ≠ Some (baseOf r t)) →
  ∃ i r1 l1 r2,
    bindTexture (Some t) location false r = Ok (i, r1, l1) ∧
    driver_binds l1 = 1 ∧
    unbindTexture t r1 =
      Ok (tt, r2, [gl_activeTexture i;
                   gl_bindTexture (placeholder_glTexture r i ≫= texture)]) ∧
    array_get (boundTextures r2) i = array_get (emptyTextures r) i ∧
    (∀ j, j ≠ i → array_get (boundTextures r2) j = array_get (boundTextures r) j) ∧
    (array_get (boundTextures r) i = array_get (emptyTextures r) i →
     boundTextures r2 = boundTextures r).
Proof.
  intros Hok [Hup Hnot] Hloc Hmiss.
  pose proof Hok as ([ctx Hgl] & Hpos & Hlen & Hphs & _).
  destruct (bindTexture_uploaded_cases r (Some t) location t ctx eq_refl Hup Hgl Hpos)
    as (i & r1 & l1 & Hb & Hgl1 & He1 & Hu1 & Ht1 & Hcase).
  destruct Hcase as [(_ & _ & Hi)|(_ & Hl1 & HT1 & Hi)]; [by destruct (Hmiss i)|].
  assert (i < length (boundTextures r)) as Hin.
  { rewrite Hi. destruct location as [s|]; [by apply Hloc|by apply round_robin_lt]. }
  assert (same_texture_fields r r1) as Hsame by (by eapply same_texture_fields_touch).
  assert (baseOf r1 t = baseOf r t) as Hbase by (by apply baseOf_same_fields).
  assert (∀ k, placeholder_glTexture r1 k = placeholder_glTexture r k) as Hpg.
  { intros k. unfold placeholder_glTexture. rewrite He1, Hu1.
    destruct (array_get (emptyTextures r) k) as [e|]; [simpl|done].
    destruct Hsame as [_ Hx]. by destruct (Hx e) as (_ & _ & ->). }
  assert (∀ k, array_get (boundTextures r1) k = Some (baseOf r t) ↔ k = i) as Honly.
  { intros k. rewrite HT1. destruct (decide (i = k)) as [<-|Hne].
    - by rewrite array_get_set_eq.
    - rewrite array_get_set_ne by done. split; [by intros ?%Hmiss|congruence]. }
  destruct (unbindTexture_spec r1 t ctx) as (T' & Hun & HlenT & HT').
  { congruence. }
  { rewrite Hbase. intros k ->%Honly. rewrite Hpg.
    destruct (Hphs i Hin) as (e & g & He & _ & _ & Hg).
    unfold placeholder_glTexture. rewrite He. simpl. by rewrite Hg. }
  rewrite Hbase in Hun, HT'.
  rewrite (unbind_calls_single r1 (baseOf r t) i) in Hun;
    [|lia|rewrite HT1, length_array_set; lia|done].
  rewrite Hpg in Hun.
  assert (array_get T' i = array_get (emptyTextures r) i) as Hti.
  { rewrite HT', decide_True by (by apply Honly). by rewrite He1. }
  assert (∀ j, j ≠ i → array_get T' j = array_get (boundTextures r) j) as Htj.
  { intros j Hj. rewrite HT', decide_False by (by intros ?%Honly).
    rewrite HT1. by rewrite array_get_set_ne. }
  exists i, r1, l1, (set_boundTextures T' r1). split_and!; try done.
  intros Hheld. simpl. apply array_ext.
  - rewrite HlenT, HT1, length_array_set. lia.
  - intros j. destruct (decide (j = i)) as [->|Hne]; [congruence|by apply Htj].
Qed.

Lemma bind_then_unbind_restores_table_witness :
  slots_ok example_renderer ∧
  ∃ i r1 l1 r2,
    bindTexture (H := inert) (Some 100) None false example_renderer = Ok (i, r1, l1) ∧
    unbindTexture 100 r1 =
      Ok (tt, r2, [gl_activeTexture i;
                   gl_bindTexture (placeholder_glTexture example_renderer i ≫= texture)]).
Proof.
  split; [exact example_renderer_slots_ok|].
  destruct (bind_then_unbind_restores_table (H := inert) example_renderer 100 None)
    as (i & r1 & l1 & r2 & Hb & _ & Hu & _).
  - exact example_renderer_slots_ok.
  - apply example_user_texture. auto.
  - intros s Hs. discriminate.
  - apply indexOf_None. vm_compute. reflexivity.
  - exists i, r1, l1, r2. exact (conj Hb Hu).
Defined.

(** X7: [unbindTexture] of a texture that no slot holds calls nothing and
    leaves the renderer exactly as it is; it does not use [gl], so this
    also holds on a renderer without a context. *)
Theorem unbindTexture_not_resident_is_noop (r : WebGLRenderer) (t : TexRef) :
  (∀ i, array_get (boundTextures r) i ≠ Some (baseOf r t)) →
  unbindTexture t r = Ok (tt, r, []).
Proof.
  intros Hmiss. unfold unbindTexture. rewrite bind_get.
  by apply unbindTexture_loop_not_resident.
Qed.

Lemma unbindTexture_not_resident_is_noop_witness :
  gl (set_gl None example_renderer) = None ∧
  unbindTexture 100 (set_gl None example_renderer) =
    Ok (tt, set_gl None example_renderer, []).
Proof.
  split; [reflexivity|].
  apply (unbindTexture_not_resident_is_noop (set_gl None example_renderer) 100).
  apply indexOf_None. vm_compute. reflexivity.
Defined.

(** X8: on a well-formed slot table, [unbindTexture] of a texture that is
    not a placeholder makes at most one driver rebind (no texture is in two
    slots), after it no slot holds the texture, and a second [unbindTexture]
    of the same texture calls nothing and changes nothing. *)
Theorem unbindTexture_twice (r : WebGLRenderer) (t : TexRef) :
  slots_ok r →
  (∀ i, array_get (emptyTextures r) i ≠ Some (baseOf r t)) →
  ∃ r1 l,
    unbindTexture t r = Ok (tt, r1, l) ∧
    driver_binds l ≤ 1 ∧
    (∀ i, array_get (boundTextures r1) i ≠ Some (baseOf r t)) ∧
    unbindTexture t r1 = Ok (tt, r1, []).
Proof.
  intros Hok Hnot.
  pose proof Hok as ([ctx Hgl] & Hpos & Hlen & Hphs & _ & _ & Hex & _).
  destruct (unbindTexture_spec r t ctx Hgl) as (T' & Hun & HlenT & HT').
  { intros k Hk%array_get_Some_lt.
    destruct (Hphs k Hk) as (e & g & He & _ & _ & Hg).
    unfold placeholder_glTexture. rewrite He. simpl. by rewrite Hg. }
  assert (∀ i, array_get T' i ≠ Some (baseOf r t)) as Hgone.
  { intros i. rewrite HT'. case_decide; [apply Hnot|done]. }
  exists (set_boundTextures T' r), (unbind_calls r (baseOf r t) 0 (length (boundTextures r))).
  split_and!; [done| |done|].
  - destruct (indexOf (baseOf r t) (boundTextures r)) as [i|] eqn:Hi.
    + apply indexOf_Some in Hi as [Hi _].
      rewrite (unbind_calls_single r (baseOf r t) i); [done|lia| |].
      * by apply array_get_Some_lt in Hi.
      * intros k. split; [|by intros ->]. intros Hk. by eapply Hex.
    + rewrite unbind_calls_none; [unfold driver_binds; simpl; lia|].
      intros k _. by apply (proj1 (indexOf_None _ _) Hi).
  - unfold unbindTexture. rewrite bind_get.
    by apply unbindTexture_loop_not_resident.
Qed.

Lemma bound_A_slots_ok : slots_ok bound_A.
Proof.
  destruct (bindTexture_keeps_slots_ok (H := inert) example_renderer (Some 100) None 100)
    as (i & r' & l & Hb & Hok & _).
  - exact example_renderer_slots_ok.
  - reflexivity.
  - apply (example_user_texture 100). auto.
  - by intros s.
  - intros i Hi. by destruct (proj2 (example_user_texture 100 (or_introl eq_refl)) i).
  - unfold bound_A. rewrite Hb. exact Hok.
Qed.

Lemma unbindTexture_twice_witness :
  slots_ok bound_A ∧
  array_get (boundTextures bound_A) 2 = Some (baseOf bound_A 100) ∧
  ∃ r1,
    unbindTexture 100 bound_A =
      Ok (tt, r1, [gl_activeTexture 2; gl_bindTexture (Some 10)]) ∧
    (∀ i, array_get (boundTextures r1) i ≠ Some (baseOf bound_A 100)) ∧
    unbindTexture 100 r1 = Ok (tt, r1, []).
Proof.
  split; [exact bound_A_slots_ok|]. split; [vm_compute; reflexivity|].
  destruct (unbindTexture_twice bound_A 100) as (r1 & l & Hu & _ & Hgone & Hu2).
  - exact bound_A_slots_ok.
  - intros i. destruct i as [|[|[|[|i]]]]; vm_compute; congruence.
  - assert (calls_of (unbindTexture 100 bound_A) =
              [gl_activeTexture 2; gl_bindTexture (Some 10)]) as Hl
      by (vm_compute; reflexivity).
    rewrite Hu in Hl. cbn [calls_of] in Hl. subst l.
    exists r1. exact (conj Hu (conj Hgone Hu2)).
Defined.

(** X9: [forceLocation] can put one texture into two slots.  When an
    uploaded texture is resident, first in slot [i], a forced bind to another
    slot [s] that does not hold it binds it there at the driver level and
    leaves it in slot [i] as well, so the table is no longer exclusive; every
    later call without [forceLocation] for that texture returns the lower of
    the two slots and calls nothing. *)
Theorem bindTexture_forced_can_duplicate `{Collaborators} (r : WebGLRenderer)
    (t : TexRef) (i s : nat) (g : GLTexture) (ctx : WebGLRenderingContext) :
  gl r = Some ctx →
  _newTexture (textures r !!! baseOf r t) = None →
  _glTextures (textures r !!! baseOf r t) !! CONTEXT_UID r = Some g →
  indexOf (baseOf r t) (boundTextures r) = Some i →
  array_get (boundTextures r) s ≠ Some (baseOf r t) →
  ∃ r1,
    bindTexture (Some t) (Some s) true r =
      Ok (s, r1, [gl_activeTexture s; gl_bindTexture (texture g)]) ∧
    array_get (boundTextures r1) i = Some (baseOf r t) ∧
    array_get (boundTextures r1) s = Some (baseOf r t) ∧
    i ≠ s ∧
    ¬ exclusive (boundTextures r1) ∧
    ∀ location, ∃ r2,
      bindTexture (Some t) location false r1 = Ok (i `min` s, r2, []).
Proof.
  intros Hgl Hnew Hg Hi Hs.
  pose proof (proj1 (indexOf_Some _ _ _) Hi) as [Hget Hmin].
  assert (i ≠ s) as Hne by congruence.
  set (b := baseOf r t) in *.
  set (r1 := set_boundTextures (array_set (boundTextures r) s (Some b)) (touch b r)).
  assert (array_get (boundTextures r1) i = Some b) as H1i.
  { unfold r1. simpl. by rewrite array_get_set_ne. }
  assert (array_get (boundTextures r1) s = Some b) as H1s.
  { unfold r1. simpl. by rewrite array_get_set_eq. }
  assert (baseOf r1 t = b) as Hbase by exact (baseOf_touch b r t).
  exists r1. split_and!; try done.
  - unfold bindTexture. simpl. fold b.
    rewrite (bindTexture_at_uploaded _ _ _ g ctx);
      [done|by rewrite touch_newTexture|by rewrite touch_glTextures|done|done].
  - intros Hex. apply Hne. by eapply Hex.
  - intros location. exists (touch b r1).
    assert (indexOf (baseOf r1 t) (boundTextures r1) = Some (i `min` s)) as Hidx.
    { rewrite Hbase. apply indexOf_Some. split.
      - destruct (Nat.min_spec i s) as [[_ ->]|[_ ->]]; done.
      - intros k Hk. unfold r1. simpl.
        rewrite array_get_set_ne by lia. apply Hmin. lia. }
    pose proof (bindTexture_hit r1 (Some t) location t _ eq_refl Hidx) as Hhit.
    by rewrite Hbase in Hhit.
Qed.

Lemma bindTexture_forced_can_duplicate_witness :
  gl bound_A = Some (example_context_after 11) ∧
  indexOf (baseOf bound_A 100) (boundTextures bound_A) = Some 2 ∧
  ∃ r1, bindTexture (H := inert) (Some 100) (Some 0) true bound_A =
          Ok (0, r1, [gl_activeTexture 0; gl_bindTexture (Some 1)]) ∧
        ¬ exclusive (boundTextures r1).
Proof.
  split; [vm_compute; reflexivity|]. split; [vm_compute; reflexivity|].
  destruct (bindTexture_forced_can_duplicate (H := inert) bound_A 100 2 0
              {| texture := Some 1 |} (example_context_after 11))
    as (r1 & Hb & _ & _ & _ & Hex & _).
  - vm_compute; reflexivity.
  - vm_compute; reflexivity.
  - vm_compute; reflexivity.
  - vm_compute; reflexivity.
  - vm_compute. discriminate.
  - exists r1. exact (conj Hb Hex).
Defined.

(** X10: a [bindTexture] call that returns without handing the bind to a
    texture manager has set [touched] of the resolved base texture to the
    garbage collector's count, also when the texture was found resident and
    nothing was bound; no other texture object changes, and of the base
    texture nothing but [touched]. *)
Theorem bindTexture_marks_touched `{Collaborators} (r : WebGLRenderer) (t : TexRef)
    (location : option nat) (force : bool) (i : nat) (r' : WebGLRenderer)
    (l : list Call) :
  bindTexture (Some t) location force r = Ok (i, r', l) →
  Forall (λ c, is_manager_call c = false) l →
  touched (textures r' !!! baseOf r t) = textureGC_count r ∧
  (∀ x : TexRef, x ≠ baseOf r t → textures r' !!! x = textures r !!! x) ∧
  same_texture_fields r r'.
Proof.
  intros Hb Hl.
  assert (textures r' = textures (touch (baseOf r t) r) ∧
          CONTEXT_UID r' = CONTEXT_UID r) as [Ht Hu].
  { assert (∀ s rs, textures rs = textures (touch (baseOf r t) r) →
                    CONTEXT_UID rs = CONTEXT_UID r →
                    bindTexture_at (baseOf r t) s rs = Ok (i, r', l) →
                    textures r' = textures (touch (baseOf r t) r) ∧
                    CONTEXT_UID r' = CONTEXT_UID r) as Hat.
    { intros s rs Hts Hus. unfold bindTexture_at.
      destruct (_newTexture _) as [nt|].
      { destruct (newTextureManager rs); [|done]. intros [= _ _ <-].
        by apply Forall_cons in Hl as [? _]. }
      destruct (_glTextures _ !! _) as [g|].
      - case_decide.
        + by intros [= _ <- _].
        + destruct (gl rs); [|done]. by intros [= _ <- _].
      - intros [= _ _ <-]. by apply Forall_cons in Hl as [? _]. }
    revert Hb. unfold bindTexture. simpl.
    destruct force.
    - by apply Hat.
    - change (boundTextures (touch (baseOf r t) r)) with (boundTextures r).
      destruct (indexOf _ _) as [k|].
      + by intros [= _ <- _].
      + destruct location as [s|]; [by apply Hat|].
        case_decide; [done|]. by apply Hat. }
  split_and!.
  - rewrite Ht, touch_lookup. by rewrite decide_True.
  - intros x Hx. rewrite Ht, touch_lookup. by rewrite decide_False.
  - by eapply same_texture_fields_touch.
Qed.

Lemma bindTexture_marks_touched_witness :
  let r := set_textureGC_count 5 example_renderer in
  textureGC_count r = 5 ∧
  touched (textures r !!! baseOf r 101) = 0 ∧
  ∃ r' : WebGLRenderer,
    bindTexture (H := inert) (Some 101) None false r =
      Ok (2, r', [gl_activeTexture 2; gl_bindTexture (Some 2)]) ∧
    touched (textures r' !!! baseOf r 101) = textureGC_count r.
Proof.
  intros r. split; [reflexivity|]. split; [vm_compute; reflexivity|].
  exists (renderer_of (bindTexture (H := inert) (Some 101) None false r)).
  assert (bindTexture (H := inert) (Some 101) None false r =
            Ok (2, renderer_of (bindTexture (H := inert) (Some 101) None false r),
                [gl_activeTexture 2; gl_bindTexture (Some 2)])) as Hb
    by (vm_compute; reflexivity).
  split; [exact Hb|].
  destruct (bindTexture_marks_touched (H := inert) r 101 None false 2 _ _ Hb)
    as (Ht & _).
  - apply Forall_cons. split; [reflexivity|].
    apply Forall_cons. split; [reflexivity|]. constructor.
  - exact Ht.
Defined.

(** ** Runs of renderer switches, the constructor, a frame *)

Lemma set_currentRenderer_same r c :
  currentRenderer r = Some c → set_currentRenderer (Some c) r = r.
Proof. intros <-. by destruct r. Qed.

Lemma default_last_cons {A} (c x : A) (xs : list A) :
  default c (last (x :: xs)) = default x (last xs).
Proof. rewrite last_cons. by destruct (last xs). Qed.

Lemma starts_cons c l : starts (c :: l) = (if is_start c then 1 else 0) + starts l.
Proof.
  unfold starts. rewrite filter_cons. destruct (is_start c); by case_decide.
Qed.

Lemma stops_cons c l : stops (c :: l) = (if is_stop c then 1 else 0) + stops l.
Proof.
  unfold stops. rewrite filter_cons. destruct (is_stop c); by case_decide.
Qed.

Lemma setObjectRenderer_seq_spec xs : ∀ r c,
  currentRenderer r = Some c →
  ∃ l,
    setObjectRenderer_seq xs r =
      Ok (tt, set_currentRenderer (Some (default c (last xs))) r, l) ∧
    handoff c l (default c (last xs)) ∧
    starts l = stops l ∧
    starts l ≤ length xs.
Proof.
  induction xs as [|x xs IH]; intros r c Hc.
  - exists []. simpl. rewrite (set_currentRenderer_same r c Hc).
    split_and!; [done|constructor|done|done].
  - cbn [setObjectRenderer_seq]. rewrite default_last_cons.
    destruct (decide (c = x)) as [->|Hne].
    + destruct (IH r x Hc) as (l & Hseq & Hh & Hs & Hle).
      exists l. split_and!; [|done|done|cbn [length]; lia].
      unfold bind. by rewrite (setObjectRenderer_same r x Hc), Hseq.
    + destruct (IH (set_currentRenderer (Some x) r) x eq_refl) as (l & Hseq & Hh & Hs & Hle).
      exists (objectRenderer_stop c :: state_setState x :: objectRenderer_start x :: l).
      split_and!.
      * unfold bind. by rewrite (setObjectRenderer_other r c x Hc Hne), Hseq.
      * by constructor.
      * rewrite !starts_cons, !stops_cons. simpl. lia.
      * rewrite !starts_cons. simpl. lia.
Qed.

(** X11: a run of [setObjectRenderer] calls on a renderer that has a current
    renderer does not raise; its log is a chain of hand-overs, each one
    stopping the renderer that is current at that point, applying the state
    of the next and starting it, so every [start()] is preceded by the
    [stop()] of the renderer started before; the calls whose argument is
    current already add nothing.  Afterwards the last argument is current
    and no other field of the renderer has changed. *)
Theorem setObjectRenderer_seq_handoff (r : WebGLRenderer) (c : ObjectRendererRef)
    (xs : list ObjectRendererRef) :
  currentRenderer r = Some c →
  ∃ l,
    setObjectRenderer_seq xs r =
      Ok (tt, set_currentRenderer (Some (default c (last xs))) r, l) ∧
    handoff c l (default c (last xs)) ∧
    starts l = stops l ∧
    starts l ≤ length xs.
Proof. apply setObjectRenderer_seq_spec. Qed.

Lemma setObjectRenderer_seq_handoff_witness :
  currentRenderer example_renderer = Some 200 ∧
  setObjectRenderer_seq [7; 7; 200; 200; 8] example_renderer =
    Ok (tt, set_currentRenderer (Some 8) example_renderer,
        [objectRenderer_stop 200; state_setState 7; objectRenderer_start 7;
         objectRenderer_stop 7; state_setState 200; objectRenderer_start 200;
         objectRenderer_stop 200; state_setState 8; objectRenderer_start 8]).
Proof.
  split; [vm_compute; reflexivity|].
  destruct (setObjectRenderer_seq_handoff example_renderer 200 [7; 7; 200; 200; 8])
    as (l & Hseq & _); [vm_compute; reflexivity|].
  vm_compute. reflexivity.
Defined.

(** X12: the constructor.  When the context it is given does not pass
    [validateContext], or when none is given and [createContext] throws,
    the constructor throws and there is no renderer.  On a context that
    passes the validation, or on the one [createContext] returns, the body
    runs to its end.  Two renderers constructed one after the other from the
    module counter then get the [CONTEXT_UID]s [uid] and [uid + 1], so they
    never share one.  The new renderer has its empty renderer current, so
    [flush()] on it does nothing; its round-robin counter is 0,
    [renderingToScreen] is set, and every slot holds its placeholder. *)
Theorem constructor_fresh_renderer `{Collaborators} `{ContextSource} (uid : nat)
    (options options' : option WebGLRenderingContext)
    (ctx ctx' : WebGLRenderingContext) (r r' : WebGLRenderer) :
  (options = Some ctx ∧ validateContext ctx = true) ∨
    (options = None ∧ createContext = Some ctx) →
  (options' = Some ctx' ∧ validateContext ctx' = true) ∨
    (options' = None ∧ createContext = Some ctx') →
  (∃ r1 r2 l1 l2,
     constructor uid options r = constructed (Ok (S uid, r1, l1)) ∧
     constructor (S uid) options' r' = constructed (Ok (S (S uid), r2, l2)) ∧
     gl r1 ≠ None ∧
     CONTEXT_UID r1 = uid ∧
     CONTEXT_UID r2 = S uid ∧
     currentRenderer r1 = Some (emptyRenderer r1) ∧
     flush r1 = Ok (tt, r1, []) ∧
     _nextTextureLocation r1 = 0 ∧
     renderingToScreen r1 = true ∧
     boundTextures r1 = emptyTextures r1 ∧
     length (boundTextures r1) = MAX_TEXTURE_IMAGE_UNITS ctx ∧
     exclusive (boundTextures r1)) ∧
  (∀ c uid0 r0, validateContext c = false →
     constructor uid0 (Some c) r0 = validateContext_throws) ∧
  (createContext = None →
   ∀ uid0 r0, constructor uid0 None r0 = createContext_throws).
Proof.
  intros Hctx Hctx'.
  assert (constructor uid options r = constructed (constructor_with uid ctx r)) as Hc.
  { unfold constructor. by destruct Hctx as [[-> ->]|[-> ->]]. }
  assert (constructor (S uid) options' r' =
            constructed (constructor_with (S uid) ctx' r')) as Hc'.
  { unfold constructor. by destruct Hctx' as [[-> ->]|[-> ->]]. }
  split; [|split].
  - destruct (constructor_frame uid ctx r)
      as (r1 & Hc1 & Hfill & Hu1 & Her & Hcr & Hn & Hrs & _).
    destruct (constructor_frame (S uid) ctx' r') as (r2 & Hc2 & _ & Hu2 & _).
    destruct Hfill as ([g Hgl] & _ & _ & Hb & He & _).
    simpl in Hb, He. rewrite app_nil_r in Hb, He.
    eexists r1, r2, _, _. rewrite Hc, Hc', Hc1, Hc2. split_and!; try done.
    + by rewrite Hgl.
    + by rewrite Her.
    + unfold flush. rewrite bind_get. apply setObjectRenderer_same. by rewrite Her.
    + by rewrite Hb, He.
    + by rewrite Hb, length_fmap, length_seq.
    + rewrite Hb. apply exclusive_fresh_placeholders.
  - intros c uid0 r0 Hv. unfold constructor. by rewrite Hv.
  - intros Hnone uid0 r0. unfold constructor. by rewrite Hnone.
Qed.

Lemma constructor_fresh_renderer_witness :
  validateContext (ContextSource := no_webgl) example_context = true ∧
  validateContext (ContextSource := no_webgl) lost_context = false ∧
  (∃ r1 r2 l1 l2,
     constructor (H := inert) (H0 := no_webgl) 0 (Some example_context) blank =
       constructed (Ok (1, r1, l1)) ∧
     constructor (H := inert) (H0 := no_webgl) 1 (Some example_context) blank =
       constructed (Ok (2, r2, l2)) ∧
     CONTEXT_UID r1 = 0 ∧
     CONTEXT_UID r2 = 1 ∧
     length (boundTextures r1) = 4) ∧
  constructor (H := inert) (H0 := no_webgl) 0 (Some lost_context) blank =
    validateContext_throws ∧
  constructor (H := inert) (H0 := no_webgl) 0 None blank = createContext_throws.
Proof.
  destruct (constructor_fresh_renderer (H := inert) (H0 := no_webgl) 0
              (Some example_context) (Some example_context)
              example_context example_context blank blank)
    as ((r1 & r2 & l1 & l2 & Hc1 & Hc2 & _ & Hu1 & Hu2 & _ & _ & _ & _ & _ & Hlen & _)
        & Hv & Hn).
  { left. split; reflexivity. }
  { left. split; reflexivity. }
  split; [reflexivity|]. split; [reflexivity|]. split.
  - exists r1, r2, l1, l2.
    exact (conj Hc1 (conj Hc2 (conj Hu1 (conj Hu2 Hlen)))).
  - split.
    + apply Hv. reflexivity.
    + apply Hn. reflexivity.
Defined.

(** X13: [render] on a usable context.  The scene is traversed on a
    renderer whose round-robin counter is 0, whose [renderingToScreen] tells
    whether a render texture was given and whose [_lastObjectRendered] is
    the display object only when none was given; the slot tables are not
    touched before the traversal.  The calls come in this order:
    "prerender", [updateTransform] unless skipped, the render-texture bind,
    [start()] of the current renderer, a clear when [clear] asks for it (or,
    when [clear] is undefined, when [clearBeforeRender] does), the
    traversal, [flush()] of the renderer that is current after the
    traversal, the garbage collector's tick, [gl.flush()], "postrender".
    If the traversal leaves the renderer without a current renderer or
    without [gl], the call raises. *)
Theorem render_usable_context `{Collaborators} (r : WebGLRenderer)
    (g : WebGLRenderingContext) (o : ObjectRendererRef) (d : DisplayObjectRef)
    (rt : option RenderTextureRef) (clear : option bool) (tr : option nat)
    (skip : bool) :
  gl r = Some g →
  isContextLost g = false →
  currentRenderer r = Some o →
  ∃ r_in,
    _nextTextureLocation r_in = 0 ∧
    renderingToScreen r_in = negb (bool_decide (is_Some rt)) ∧
    _lastObjectRendered r_in = (if rt is None then Some d else _lastObjectRendered r) ∧
    boundTextures r_in = boundTextures r ∧
    emptyTextures r_in = emptyTextures r ∧
    textures r_in = textures r ∧
    currentRenderer r_in = Some o ∧
    (∀ o' g',
       currentRenderer (renderWebGL d r_in) = Some o' →
       gl (renderWebGL d r_in) = Some g' →
       render d rt clear tr skip r =
         Ok (tt, renderWebGL d r_in,
             [emit "prerender"] ++
             (if skip then [] else [displayObject_updateTransform d]) ++
             [renderTexture_bind rt; objectRenderer_start o] ++
             (if default (clearBeforeRender r) clear then [renderTexture_clear] else []) ++
             [displayObject_renderWebGL d; objectRenderer_flush o'; textureGC_update;
              gl_flush; emit "postrender"])) ∧
    (currentRenderer (renderWebGL d r_in) = None ∨ gl (renderWebGL d r_in) = None →
     render d rt clear tr skip r = TypeError).
Proof.
  intros Hgl Hlost Hcur.
  set (r0 := set_nextTextureLocation 0
               (set_renderingToScreen (negb (bool_decide (is_Some rt))) r)).
  set (r_in := if rt is None then set_lastObjectRendered (Some d) r0 else r0).
  assert (currentRenderer r_in = Some o ∧ clearBeforeRender r_in = clearBeforeRender r)
    as [Hcur_in Hclear] by (unfold r_in; by destruct rt).
  assert (render d rt clear tr skip r =
              after_calls
                ([emit "prerender"] ++
                 (if skip then [] else [displayObject_updateTransform d]) ++
                 [renderTexture_bind rt; objectRenderer_start o] ++
                 (if default (clearBeforeRender r) clear then [renderTexture_clear] else []) ++
                 [displayObject_renderWebGL d])
                ((do _ <- currentRenderer_call objectRenderer_flush;
                  do _ <- call textureGC_update;
                  do _ <- gl_call gl_flush;
                  call (emit "postrender")) (renderWebGL d r_in))) as Hrender.
  { unfold render.
    rewrite bind_modify, bind_call, bind_get.
    replace (context_unusable _) with false by (unfold context_unusable; simpl; by rewrite Hgl, Hlost).
    rewrite bind_modify. fold r0.
    assert (∀ B (k : unit → M B),
              bind (if rt is None then modify (set_lastObjectRendered (Some d)) else ret tt) k r0
              = k tt r_in) as ->.
    { intros B k. unfold r_in. destruct rt; [apply bind_ret|apply bind_modify]. }
    assert (∀ B (k : unit → M B) x,
              bind (if skip then ret tt else call (displayObject_updateTransform d)) k x
              = after_calls (if skip then [] else [displayObject_updateTransform d]) (k tt x))
      as ->.
    { intros B k x. destruct skip; [by rewrite bind_ret, after_calls_nil|apply bind_call]. }
    rewrite bind_call. unfold bind at 1.
    rewrite (currentRenderer_call_Some _ _ o Hcur_in), bind_get, Hclear.
    assert (∀ B (k : unit → M B) x,
              bind (if default (clearBeforeRender r) clear
                    then call renderTexture_clear else ret tt) k x
              = after_calls (if default (clearBeforeRender r) clear
                             then [renderTexture_clear] else []) (k tt x)) as ->.
    { intros B k x. destruct (default _ clear);
        [apply bind_call|by rewrite bind_ret, after_calls_nil]. }
    rewrite bind_call, bind_modify.
    rewrite !after_calls_app. f_equal.
    destruct skip, (default (clearBeforeRender r) clear); reflexivity. }
  exists r_in. split_and!; try done; try (unfold r_in; by destruct rt).
  - intros o' g' Ho' Hg'. rewrite Hrender.
    unfold bind at 1. rewrite (currentRenderer_call_Some _ _ o' Ho').
    rewrite bind_call. unfold bind at 1, gl_call. rewrite bind_get, Hg'.
    cbn [after_calls call].
    by destruct skip, (default (clearBeforeRender r) clear).
  - intros Hnone. rewrite Hrender.
    destruct (currentRenderer (renderWebGL d r_in)) as [o'|] eqn:Ho'.
    + destruct Hnone as [?|Hg']; [done|].
      unfold bind at 1. rewrite (currentRenderer_call_Some _ _ o' Ho').
      rewrite bind_call. unfold bind at 1, gl_call. by rewrite bind_get, Hg'.
    + unfold bind at 1, currentRenderer_call. by rewrite bind_get, Ho'.
Qed.

Lemma render_usable_context_witness :
  gl example_renderer = Some (example_context_after 11) ∧
  isContextLost (example_context_after 11) = false ∧
  currentRenderer example_renderer = Some 200 ∧
  render (H := inert) 5 None (Some false) None true example_renderer =
    Ok (tt, set_lastObjectRendered (Some 5)
              (set_nextTextureLocation 0 (set_renderingToScreen true example_renderer)),
        [emit "prerender"; renderTexture_bind None; objectRenderer_start 200;
         displayObject_renderWebGL 5; objectRenderer_flush 200; textureGC_update;
         gl_flush; emit "postrender"]).
Proof.
  split; [vm_compute; reflexivity|]. split; [reflexivity|].
  split; [vm_compute; reflexivity|].
  destruct (render_usable_context (H := inert) example_renderer (example_context_after 11)
              200 5 None (Some false) None true)
    as (r_in & _); [vm_compute; reflexivity|reflexivity|vm_compute; reflexivity|].
  vm_compute. reflexivity.
Defined.

(** X14: a renderer without [gl] and without a current renderer, which is
    how [destroy()] leaves those two fields.  [render] emits "prerender" and
    returns; [setObjectRenderer], [flush] and [handleContextRestored] raise;
    [bindTexture] still answers for a resident texture (the table is not
    cleared) but raises when it has to bind an uploaded texture; and
    [unbindTexture] raises as soon as some slot holds the texture. *)
Theorem renderer_without_context `{Collaborators} (r : WebGLRenderer) :
  gl r = None →
  currentRenderer r = None →
  (∀ d rt clear tr skip,
     render d rt clear tr skip r =
       Ok (tt, set_renderingToScreen (negb (bool_decide (is_Some rt))) r,
           [emit "prerender"])) ∧
  (∀ x, setObjectRenderer x r = TypeError) ∧
  flush r = TypeError ∧
  handleContextRestored r = TypeError ∧
  (∀ (t : TexRef) location i,
     indexOf (baseOf r t) (boundTextures r) = Some i →
     bindTexture (Some t) location false r = Ok (i, touch (baseOf r t) r, [])) ∧
  (∀ (t : TexRef) s force,
     uploaded_in r (baseOf r t) →
     (∀ k, array_get (boundTextures r) k ≠ Some (baseOf r t)) →
     bindTexture (Some t) (Some s) force r = TypeError) ∧
  (∀ (t : TexRef) i,
     array_get (boundTextures r) i = Some (baseOf r t) →
     unbindTexture t r = TypeError).
Proof.
  intros Hgl Hcur. split_and!.
  - intros. apply render_unusable. unfold context_unusable. by rewrite Hgl.
  - intros x. by apply setObjectRenderer_null.
  - unfold flush. rewrite bind_get. by apply setObjectRenderer_null.
  - unfold handleContextRestored, bind at 1, _initContext. by rewrite bind_get, Hgl.
  - intros t location i Hi. by apply bindTexture_hit.
  - intros t s force [Hnew [g Hg]] Hmiss.
    assert (bindTexture_at (baseOf r t) s (touch (baseOf r t) r) = TypeError) as Hat.
    { unfold bindTexture_at. rewrite touch_newTexture, Hnew.
      change (CONTEXT_UID (touch (baseOf r t) r)) with (CONTEXT_UID r).
      rewrite touch_glTextures, Hg.
      change (boundTextures (touch (baseOf r t) r)) with (boundTextures r).
      rewrite decide_False by apply Hmiss.
      change (gl (touch (baseOf r t) r)) with (gl r). by rewrite Hgl. }
    unfold bindTexture. simpl. destruct force; [done|].
    change (boundTextures (touch (baseOf r t) r)) with (boundTextures r).
    by rewrite (proj2 (indexOf_None _ _) Hmiss).
  - intros t i Hi. unfold unbindTexture. rewrite bind_get.
    assert (∀ n lo r0,
              gl r0 = None → lo ≤ i → i < lo + n →
              array_get (boundTextures r0) i = Some (baseOf r t) →
              unbindTexture_loop (baseOf r t) n lo r0 = TypeError) as Hloop.
    { induction n as [|n IH]; intros lo r0 Hg0 Hlo Hhi Hr0; [lia|].
      cbn [unbindTexture_loop]. rewrite bind_get.
      destruct (decide (array_get (boundTextures r0) lo = Some (baseOf r t))) as [Hh|Hh].
      - unfold bind at 1. rewrite bind_modify. unfold bind at 1, gl_call.
        rewrite bind_get. simpl. by rewrite Hg0.
      - rewrite bind_ret. apply IH; [done|..|done].
        + destruct (decide (lo = i)) as [->|]; [done|lia].
        + lia. }
    apply Hloop; [done|lia| |done]. by apply array_get_Some_lt in Hi.
Qed.

Lemma renderer_without_context_witness :
  gl (set_gl None (set_currentRenderer None bound_A)) = None ∧
  currentRenderer (set_gl None (set_currentRenderer None bound_A)) = None ∧
  unbindTexture 100 (set_gl None (set_currentRenderer None bound_A)) = TypeError.
Proof.
  split; [reflexivity|]. split; [reflexivity|].
  destruct (renderer_without_context (H := inert)
              (set_gl None (set_currentRenderer None bound_A)) eq_refl eq_refl)
    as (_ & _ & _ & _ & _ & _ & Hun).
  apply (Hun 100 2). vm_compute. reflexivity.
Defined.

(** X15: switching to a renderer and flushing is a round trip: on a renderer
    whose empty renderer is current, [setObjectRenderer(x)] followed by
    [flush()] leaves the renderer exactly as it was; for another [x] the two
    calls stop and start each of the two renderers once, for the empty
    renderer itself they call nothing. *)
Theorem setObjectRenderer_then_flush (r : WebGLRenderer) (x : ObjectRendererRef) :
  currentRenderer r = Some (emptyRenderer r) →
  (do _ <- setObjectRenderer x; flush) r =
    Ok (tt, r,
        if decide (emptyRenderer r = x) then []
        else [objectRenderer_stop (emptyRenderer r); state_setState x;
              objectRenderer_start x;
              objectRenderer_stop x; state_setState (emptyRenderer r);
              objectRenderer_start (emptyRenderer r)]).
Proof.
  intros Hcur. unfold bind at 1. case_decide as Hx.
  - subst x. rewrite (setObjectRenderer_same r _ Hcur). cbn [after_calls].
    unfold flush. rewrite bind_get. by rewrite (setObjectRenderer_same r _ Hcur).
  - rewrite (setObjectRenderer_other r _ x Hcur Hx). cbn [after_calls].
    unfold flush. rewrite bind_get.
    rewrite (setObjectRenderer_other _ x (emptyRenderer r)); [|done|congruence].
    simpl. do 2 f_equal. by destruct r; simpl in *; subst.
Qed.

Lemma setObjectRenderer_then_flush_witness :
  currentRenderer example_renderer = Some (emptyRenderer example_renderer) ∧
  (do _ <- setObjectRenderer 7; flush) example_renderer =
    Ok (tt, example_renderer,
        [objectRenderer_stop 200; state_setState 7; objectRenderer_start 7;
         objectRenderer_stop 7; state_setState 200; objectRenderer_start 200]).
Proof.
  split; [vm_compute; reflexivity|].
  rewrite (setObjectRenderer_then_flush example_renderer 7); [|vm_compute; reflexivity].
  vm_compute. reflexivity.
Defined.

(** ** [bindVao] *)

Lemma bindVao_active vao a : (bindVao vao a).1 = vao.
Proof. unfold bindVao. by case_decide. Qed.

Lemma bindVao_same vao : bindVao vao vao = (vao, []).
Proof. unfold bindVao. by rewrite decide_True. Qed.

Lemma bindVao_seq_app xs ys a :
  bindVao_seq (xs ++ ys) a =
    ((bindVao_seq ys (bindVao_seq xs a).1).1,
     (bindVao_seq xs a).2 ++ (bindVao_seq ys (bindVao_seq xs a).1).2).
Proof.
  revert a. induction xs as [|x xs IH]; intros a.
  - simpl. by destruct (bindVao_seq ys a).
  - simpl. rewrite IH. simpl. by rewrite app_assoc.
Qed.

Lemma bindVao_seq_active vaos a : (bindVao_seq vaos a).1 = default a (last vaos).
Proof.
  revert a. induction vaos as [|v vs IH]; intros a; [done|].
  simpl. rewrite IH, bindVao_active. symmetry. apply default_last_cons.
Qed.

(** X16: [bindVao] keeps the last vertex-array object it was given:
    afterwards [_activeVao] is the argument, whatever was active.  Asking
    again for the active one calls nothing, so in a run of [bindVao] calls a
    call that repeats the argument of the call before it can be dropped
    without changing the calls made or the final state. *)
Theorem bindVao_repeats_are_free (xs ys : list (option VaoRef))
    (vao a : option VaoRef) :
  (bindVao vao a).1 = vao ∧
  bindVao vao (bindVao vao a).1 = (vao, []) ∧
  (bindVao_seq xs a).1 = default a (last xs) ∧
  bindVao_seq (a :: xs) a = bindVao_seq xs a ∧
  bindVao_seq (xs ++ vao :: vao :: ys) a = bindVao_seq (xs ++ vao :: ys) a.
Proof.
  split_and!.
  - apply bindVao_active.
  - rewrite bindVao_active. apply bindVao_same.
  - apply bindVao_seq_active.
  - simpl. rewrite bindVao_same. simpl. by destruct (bindVao_seq xs a).
  - rewrite !bindVao_seq_app. simpl.
    rewrite !bindVao_active, bindVao_same. simpl.
    by destruct (bindVao_seq ys vao).
Qed.

(** X17: what [bindVao] calls.  Each call of a run makes at most one call
    on a vertex-array object.  [bind()] is only called on an argument of the
    run.  [unbind()] is only called when the argument is [null], and then on
    the object that was active: changing from one vertex-array object to
    another binds the new one and never unbinds the old one. *)
Theorem bindVao_calls (vaos : list (option VaoRef)) (a : option VaoRef) :
  length (bindVao_seq vaos a).2 ≤ length vaos ∧
  (∀ v, vao_bind v ∈ (bindVao_seq vaos a).2 → Some v ∈ vaos) ∧
  (∀ x, vao_unbind x ∈ (bindVao_seq vaos a).2 →
        None ∈ vaos ∧ (a = Some x ∨ Some x ∈ vaos)) ∧
  (∀ v w, v ≠ w → bindVao (Some w) (Some v) = (Some w, [vao_bind w])) ∧
  (∀ v, bindVao None (Some v) = (None, [vao_unbind v])).
Proof.
  split_and!.
  - revert a. induction vaos as [|v vs IH]; intros a; [done|].
    simpl. rewrite length_app. specialize (IH (bindVao v a).1).
    assert (length (bindVao v a).2 ≤ 1); [|lia].
    unfold bindVao. case_decide; [simpl; lia|]. destruct v, a; simpl; lia.
  - revert a. induction vaos as [|v vs IH]; intros a w; simpl.
    + by intros ?%elem_of_nil.
    + intros [Hw|Hw]%elem_of_app.
      * unfold bindVao in Hw. case_decide; [by apply elem_of_nil in Hw|].
        destruct v as [v|]; simpl in Hw.
        -- apply list_elem_of_singleton in Hw as [= ->]. by constructor.
        -- destruct a; simpl in Hw;
             [by apply list_elem_of_singleton in Hw|by apply elem_of_nil in Hw].
      * constructor. by eapply IH.
  - revert a. induction vaos as [|v vs IH]; intros a x; simpl.
    + by intros ?%elem_of_nil.
    + intros [Hx|Hx]%elem_of_app.
      * unfold bindVao in Hx. case_decide; [by apply elem_of_nil in Hx|].
        destruct v as [v|]; simpl in Hx.
        -- by apply list_elem_of_singleton in Hx.
        -- destruct a as [a|]; simpl in Hx; [|by apply elem_of_nil in Hx].
           apply list_elem_of_singleton in Hx as [= ->].
           split; [by constructor|by left].
      * apply IH in Hx as [Hnone Hsome]. split; [by constructor|].
        rewrite bindVao_active in Hsome. destruct Hsome as [->|?].
        -- right. by constructor.
        -- right. by constructor.
  - intros v w Hne. unfold bindVao. rewrite decide_False by congruence. done.
  - intros v. unfold bindVao. by rewrite decide_False.
Qed.

(** ** [generateSampleSrc] *)

Lemma string_app_cons c (s1 s2 : string) : String c s1 +:+ s2 = String c (s1 +:+ s2).
Proof. reflexivity. Qed.

Lemma string_app_assoc (s1 s2 s3 : string) :
  (s1 +:+ s2) +:+ s3 = s1 +:+ s2 +:+ s3.
Proof. induction s1 as [|c s1 IH]; [done|]. rewrite !string_app_cons. by f_equal. Qed.

Lemma string_app_nil_r (s : string) : s +:+ "" = s.
Proof. induction s as [|c s IH]; [done|]. rewrite string_app_cons. by f_equal. Qed.

Lemma count_char_app c s1 s2 :
  count_char c (s1 +:+ s2) = count_char c s1 + count_char c s2.
Proof.
  induction s1 as [|c' s1 IH]; [done|].
  rewrite string_app_cons. simpl. rewrite IH. lia.
Qed.

Lemma count_char_pretty_N_go c x s :
  is_digit c = false → count_char c (pretty_N_go x s) = count_char c s.
Proof.
  intros Hc. revert s. induction (N.lt_wf_0 x) as [x _ IH]; intros s.
  assert (x = 0 ∨ 0 < x)%N as [->|?] by lia; [by rewrite pretty_N_go_0|].
  rewrite pretty_N_go_step by done. rewrite IH by (by apply N.div_lt).
  simpl. rewrite decide_False; [done|].
  intros <-. unfold pretty_N_char in Hc. by repeat case_match.
Qed.

Lemma count_char_pretty c (i : nat) :
  is_digit c = false → count_char c (pretty i) = 0.
Proof.
  intros Hc. unfold pretty, pretty_nat, pretty, pretty_N. case_decide.
  - simpl. rewrite decide_False; [done|]. by intros <-.
  - by rewrite count_char_pretty_N_go.
Qed.

Lemma generateSampleSrc_body_app maxTextures i src :
  generateSampleSrc_body maxTextures i src =
    src +:+ (if decide (0 < i) then newline +:+ "else " else "")
        +:+ (if decide (i < maxTextures - 1) then sample_condition i else "")
        +:+ sample_block i.
Proof.
  unfold generateSampleSrc_body, sample_condition, sample_block.
  repeat case_decide; simpl; rewrite ?string_app_assoc; simpl;
    rewrite ?string_app_assoc; done.
Qed.

Lemma generateSampleSrc_loop_app maxTextures n : ∀ i src,
  generateSampleSrc_loop maxTextures n i src =
    src +:+ generateSampleSrc_loop maxTextures n i "".
Proof.
  induction n as [|n IH]; intros i src; simpl.
  - by rewrite string_app_nil_r.
  - rewrite IH, (IH _ (generateSampleSrc_body _ _ "")).
    rewrite !generateSampleSrc_body_app. simpl.
    by rewrite !string_app_assoc.
Qed.

Lemma generateSampleSrc_loop_snoc maxTextures n : ∀ i src,
  generateSampleSrc_loop maxTextures (S n) i src =
    generateSampleSrc_body maxTextures (i + n)
      (generateSampleSrc_loop maxTextures n i src).
Proof.
  induction n as [|n IH]; intros i src.
  - simpl. by rewrite Nat.add_0_r.
  - change (generateSampleSrc_loop maxTextures (S (S n)) i src)
      with (generateSampleSrc_loop maxTextures (S n) (S i)
              (generateSampleSrc_body maxTextures i src)).
    rewrite IH. simpl. by replace (i + S n) with (S (i + n)) by lia.
Qed.

Lemma count_char_sample_block c i :
  c ∈ ["{"; "}"; "["; "]"; "("; ")"]%char →
  count_char c (sample_block i) = 1.
Proof.
  intros Hc. unfold sample_block.
  rewrite !count_char_app, count_char_pretty.
  - set_unfold. by destruct Hc as [->|[->|[->|[->|[->|[->|[]]]]]]].
  - set_unfold. by destruct Hc as [->|[->|[->|[->|[->|[->|[]]]]]]].
Qed.

Lemma count_char_sample_condition c i :
  c ∈ ["{"; "}"; "["; "]"; "("; ")"]%char →
  count_char c (sample_condition i) = if bool_decide (c ∈ ["("; ")"]%char) then 1 else 0.
Proof.
  intros Hc. unfold sample_condition.
  rewrite !count_char_app, count_char_pretty.
  - set_unfold. by destruct Hc as [->|[->|[->|[->|[->|[->|[]]]]]]].
  - set_unfold. by destruct Hc as [->|[->|[->|[->|[->|[->|[]]]]]]].
Qed.

Lemma count_char_generateSampleSrc_loop c maxTextures n : ∀ i src,
  c ∈ ["{"; "}"; "["; "]"; "("; ")"]%char →
  count_char c (generateSampleSrc_loop maxTextures n i src)
    + (if bool_decide (c ∈ ["("; ")"]%char) then i `min` (maxTextures - 1) else 0) =
  count_char c src + n
    + (if bool_decide (c ∈ ["("; ")"]%char) then (i + n) `min` (maxTextures - 1) else 0).
Proof.
  induction n as [|n IH]; intros i src Hc.
  - simpl. rewrite !Nat.add_0_r. lia.
  - cbn [generateSampleSrc_loop].
    specialize (IH (S i) (generateSampleSrc_body maxTextures i src) Hc).
    rewrite generateSampleSrc_body_app in *.
    rewrite !count_char_app, count_char_sample_block in IH by done.
    assert (count_char c (newline +:+ "else ") = 0) as Helse.
    { set_unfold. by destruct Hc as [->|[->|[->|[->|[->|[->|[]]]]]]]. }
    pose proof (count_char_sample_condition c i Hc) as Hcond.
    assert (count_char c "" = 0) as Hnil by done.
    replace (i + S n) with (S i + n) by lia.
    destruct (decide (0 < i)), (decide (i < maxTextures - 1));
      rewrite ?Helse, ?Hcond, ?Hnil in IH;
      case_bool_decide; lia.
Qed.

Lemma generateSampleSrc_loop_occurs maxTextures n : ∀ i src j,
  i ≤ j < i + n →
  ∃ pre post,
    generateSampleSrc_loop maxTextures n i src =
      pre +:+ (if decide (j < maxTextures - 1) then sample_condition j else "")
          +:+ sample_block j +:+ post.
Proof.
  induction n as [|n IH]; intros i src j Hj; [lia|].
  destruct (decide (j = i)) as [->|Hne].
  - simpl. rewrite generateSampleSrc_loop_app, generateSampleSrc_body_app.
    exists (src +:+ (if decide (0 < i) then newline +:+ "else " else "")),
      (generateSampleSrc_loop maxTextures n (S i) "").
    by rewrite !string_app_assoc.
  - simpl. apply IH. lia.
Qed.

(** X18: the source that [generateSampleSrc] writes is a chain of
    [maxTextures] blocks.  It has [maxTextures] opening and as many closing
    braces, and [maxTextures] sampler reads [uSamplers[..]]; of its
    [2 * maxTextures - 1] pairs of parentheses one per block is the
    [texture2D] call and the others are the conditions.  For every [i] below
    [maxTextures - 1] the condition [textureId == i.0] stands right before
    the block that reads sampler [i].  The last block reads sampler
    [maxTextures - 1], has no condition ([else] alone, or nothing before it
    when it is the only block) and ends the source but for two line feeds.
    With [maxTextures = 0] the source is four line feeds. *)
Theorem generateSampleSrc_chain (maxTextures : nat) :
  let src := generateSampleSrc maxTextures in
  (∀ c, c ∈ ["{"; "}"; "["; "]"]%char → count_char c src = maxTextures) ∧
  (∀ c, c ∈ ["("; ")"]%char → count_char c src = 2 * maxTextures - 1) ∧
  (∀ i, i < maxTextures - 1 →
     ∃ pre post, src = pre +:+ sample_condition i +:+ sample_block i +:+ post) ∧
  (0 < maxTextures →
     ∃ pre, src = pre +:+ sample_block (maxTextures - 1) +:+ newline +:+ newline ∧
            (maxTextures = 1 ∧ pre = newline +:+ newline ∨
             ∃ pre', pre = pre' +:+ newline +:+ "else ")) ∧
  (maxTextures = 0 → src = newline +:+ newline +:+ newline +:+ newline).
Proof.
  unfold generateSampleSrc. cbv zeta. split_and!.
  - intros c Hc. rewrite !count_char_app.
    assert (c ∈ ["{"; "}"; "["; "]"; "("; ")"]%char) as Hc' by set_solver.
    pose proof (count_char_generateSampleSrc_loop c maxTextures maxTextures 0
                  (("" +:+ newline) +:+ newline) Hc') as H.
    assert (count_char c (("" +:+ newline) +:+ newline) = 0 ∧ count_char c newline = 0)
      as [H1 H2].
    { set_unfold. by destruct Hc as [->|[->|[->|[->|[]]]]]. }
    assert (bool_decide (c ∈ ["("; ")"]%char) = false) as Hb.
    { apply bool_decide_eq_false_2.
      set_unfold. by destruct Hc as [->|[->|[->|[->|[]]]]]; intros [|[|[]]]. }
    rewrite Hb, H1 in H. rewrite H2. lia.
  - intros c Hc. rewrite !count_char_app.
    assert (c ∈ ["{"; "}"; "["; "]"; "("; ")"]%char) as Hc' by set_solver.
    pose proof (count_char_generateSampleSrc_loop c maxTextures maxTextures 0
                  (("" +:+ newline) +:+ newline) Hc') as H.
    assert (count_char c (("" +:+ newline) +:+ newline) = 0 ∧ count_char c newline = 0)
      as [H1 H2].
    { set_unfold. by destruct Hc as [->|[->|[]]]. }
    assert (bool_decide (c ∈ ["("; ")"]%char) = true) as Hb
      by by apply bool_decide_eq_true_2.
    rewrite Hb, H1 in H. rewrite H2.
    change (0 + maxTextures) with maxTextures in H. lia.
  - intros i Hi.
    destruct (generateSampleSrc_loop_occurs maxTextures maxTextures 0
                (("" +:+ newline) +:+ newline) i) as (pre & post & ->); [lia|].
    rewrite decide_True by done.
    exists pre, (post +:+ newline +:+ newline).
    by rewrite !string_app_assoc.
  - intros Hpos. destruct maxTextures as [|k]; [lia|].
    rewrite generateSampleSrc_loop_snoc, generateSampleSrc_body_app.
    change (0 + k) with k. replace (S k - 1) with k by lia.
    rewrite (decide_False (P := k < k)) by lia.
    exists (generateSampleSrc_loop (S k) k 0 (("" +:+ newline) +:+ newline)
              +:+ (if decide (0 < k) then newline +:+ "else " else "")).
    split; [by rewrite !string_app_assoc|].
    destruct (decide (0 < k)) as [?|?].
    + right. by exists (generateSampleSrc_loop (S k) k 0 (("" +:+ newline) +:+ newline)).
    + left. assert (k = 0) as -> by lia. split; [done|]. simpl.
      by rewrite string_app_nil_r.
  - by intros ->.
Qed.
